(** * AI Portfolio Intelligence Platform: analysis pipeline

    A shallow embedding of [src/tools.py] (the five analysis tools and the
    module-level [DATA_STATE]) and of [src/agents.py] (the manual, hybrid and
    autonomous orchestration policies), followed by the properties of the
    pipeline.

    Conventions of the embedding.
    - Python [str] values are [string]s (byte strings); the text helpers
      ([strip], [upper], [split], slicing) are the ASCII fragment of the
      Python methods, bytes above 127 are left untouched.
    - Python [float] values are exact rationals ([Q]): no rounding, no NaN,
      no infinities, and [x / 0] is [0] as in [Qdiv].
    - A Python [dict] is an insertion-ordered association list.
    - The external collaborators (market-data download, the seasonal
      forecaster, the random source, the language model, the square root)
      are the fields of a record [Env]; every call made to one of them is
      appended to a log carried by the world, and the position in that log
      is passed to the oracle so that two calls may answer differently.
    - A Python exception leaves the mutations made before it in place: a
      computation maps a world to an outcome (exception or value) and the
      world reached. *)

From Stdlib Require Import List String Ascii ZArith QArith Qround Qabs Bool Arith Lia.
From Stdlib Require Import Permutation Sorted DecimalString Relations.
Import ListNotations.

Close Scope Q_scope.
Open Scope nat_scope.
Open Scope string_scope.

(** ** Text helpers (ASCII fragment of Python's [str]) *)

Module PyStr.

Definition code (c : ascii) : nat := nat_of_ascii c.

(** [str.isspace] on one character: TAB..CR, FS..US and the blank. *)
Definition is_space (c : ascii) : bool :=
  let n := code c in
  ((9 <=? n)%nat && (n <=? 13)%nat) || ((28 <=? n)%nat && (n <=? 32)%nat).

Definition is_lower (c : ascii) : bool :=
  let n := code c in (97 <=? n)%nat && (n <=? 122)%nat.

Definition is_upper (c : ascii) : bool :=
  let n := code c in (65 <=? n)%nat && (n <=? 90)%nat.

Definition upper_char (c : ascii) : ascii :=
  if is_lower c then ascii_of_nat (code c - 32) else c.

Definition lower_char (c : ascii) : ascii :=
  if is_upper c then ascii_of_nat (code c + 32) else c.

Fixpoint map_chars (f : ascii -> ascii) (s : string) : string :=
  match s with
  | EmptyString => EmptyString
  | String c r => String (f c) (map_chars f r)
  end.

(** [s.upper()] and [s.lower()] *)
Definition upper (s : string) : string := map_chars upper_char s.
Definition lower (s : string) : string := map_chars lower_char s.

(** [s.capitalize()] *)
Definition capitalize (s : string) : string :=
  match s with
  | EmptyString => EmptyString
  | String c r => String (upper_char c) (lower r)
  end.

Fixpoint lstrip (s : string) : string :=
  match s with
  | EmptyString => EmptyString
  | String c r => if is_space c then lstrip r else s
  end.

Fixpoint rstrip (s : string) : string :=
  match s with
  | EmptyString => EmptyString
  | String c r =>
      match rstrip r with
      | EmptyString => if is_space c then EmptyString else String c EmptyString
      | r' => String c r'
      end
  end.

(** [s.strip()] *)
Definition strip (s : string) : string := rstrip (lstrip s).

(** [s.split(sep)] for a one-character separator: never empty. *)
Fixpoint split (sep : ascii) (s : string) : list string :=
  match s with
  | EmptyString => [EmptyString]
  | String c r =>
      if Ascii.eqb c sep then EmptyString :: split sep r
      else match split sep r with
           | h :: t => String c h :: t
           | [] => [String c EmptyString]
           end
  end.

(** [sep.join(l)] *)
Fixpoint join (sep : string) (l : list string) : string :=
  match l with
  | [] => EmptyString
  | [x] => x
  | x :: r => x ++ sep ++ join sep r
  end.

(** [s[:n]] *)
Fixpoint take (n : nat) (s : string) : string :=
  match n, s with
  | O, _ => EmptyString
  | _, EmptyString => EmptyString
  | S n', String c r => String c (take n' r)
  end.

(** [s.startswith(p)] *)
Fixpoint startswith (s p : string) {struct p} : bool :=
  match p with
  | EmptyString => true
  | String c p' =>
      match s with
      | String d s' => Ascii.eqb c d && startswith s' p'
      | EmptyString => false
      end
  end.

Fixpoint has_lower (s : string) : bool :=
  match s with
  | EmptyString => false
  | String c r => is_lower c || has_lower r
  end.

(** The line feed, written ["\n"] in the source. *)
Definition nl : string := String (ascii_of_nat 10) EmptyString.

(** [str(n)] for a natural number *)
Definition of_nat (n : nat) : string := NilZero.string_of_uint (Nat.to_uint n).

Definition of_Z (z : Z) : string :=
  if (z <? 0)%Z then "-" ++ of_nat (Z.to_nat (- z)) else of_nat (Z.to_nat z).

Fixpoint zfill (width : nat) (s : string) : string :=
  match width with
  | O => s
  | S w => if (String.length s <=? w)%nat then zfill w ("0" ++ s) else s
  end.

(** Rounding of a non-negative rational to the nearest integer, ties to the
    even neighbour (the rule of Python's float formatting). *)
Definition round_half_even (q : Q) : Z :=
  let fl := Qfloor q in
  let r := (q - inject_Z fl)%Q in
  match (r ?= (1 # 2))%Q with
  | Lt => fl
  | Gt => (fl + 1)%Z
  | Eq => if Z.even fl then fl else (fl + 1)%Z
  end.

(** [format(q, ".{prec}f")], and with [plus] the ["+.{prec}f"] form. *)
Definition format_f (plus : bool) (prec : nat) (q : Q) : string :=
  let scale := (10 ^ Z.of_nat prec)%Z in
  let n := round_half_even (Qabs q * inject_Z scale)%Q in
  let sign := if Qlt_le_dec q 0 then "-" else if plus then "+" else "" in
  let ip := of_nat (Z.to_nat (n / scale)) in
  match prec with
  | O => sign ++ ip
  | _ => sign ++ ip ++ "." ++ zfill prec (of_nat (Z.to_nat (n mod scale)))
  end.

(** [format(q, ".{prec}%")] *)
Definition format_pct (prec : nat) (q : Q) : string :=
  format_f false prec (q * 100)%Q ++ "%".

End PyStr.

(** ** Numeric helpers (the fragment of numpy, pandas and scikit-learn used) *)

Module Np.

Local Open Scope Q_scope.

Definition Qltb (x y : Q) : bool := negb (Qle_bool y x).

Definition sum (l : list Q) : Q := fold_right Qplus 0 l.

Definition len {A} (l : list A) : Q := inject_Z (Z.of_nat (List.length l)).

(** [Series.mean()] *)
Definition mean (l : list Q) : Q := sum l / len l.

(** Sample covariance and variance, one delta degree of freedom
    ([Series.var()], the off-diagonal entry of [np.cov]). *)
Definition cov (x y : list Q) : Q :=
  let mx := mean x in
  let my := mean y in
  sum (map (fun p => (fst p - mx) * (snd p - my)) (combine x y)) / (len x - 1).

Definition var (x : list Q) : Q := cov x x.

(** [Series.pct_change().dropna()] *)
Fixpoint pct_change (prices : list Q) : list Q :=
  match prices with
  | p0 :: ((p1 :: _) as rest) => (p1 / p0 - 1) :: pct_change rest
  | _ => []
  end.

(** [l[start:]] (also [.iloc[start:]]): a negative [start] counts from the
    end, and [-0] is [0]. *)
Definition slice_from {A} (start : Z) (l : list A) : list A :=
  if (start <? 0)%Z then skipn (List.length l - Z.to_nat (- start)) l
  else skipn (Z.to_nat start) l.

Fixpoint insert_asc (x : Q) (l : list Q) : list Q :=
  match l with
  | [] => [x]
  | y :: r => if Qle_bool x y then x :: l else y :: insert_asc x r
  end.

Definition sort_asc (l : list Q) : list Q := fold_right insert_asc [] l.

(** [np.percentile(l, q)], linear interpolation between order statistics. *)
Definition percentile (l : list Q) (q : Q) : Q :=
  let s := sort_asc l in
  let pos := (len l - 1) * q / 100 in
  let lo := Z.to_nat (Qfloor pos) in
  let g := pos - inject_Z (Qfloor pos) in
  let a := nth lo s 0 in
  let b := nth (Nat.min (S lo) (List.length l - 1)) s 0 in
  a + (b - a) * g.

(** [np.arange(a, b)] over the integers *)
Definition arange (a b : Z) : list Z :=
  map (fun i => (a + Z.of_nat i)%Z) (seq 0 (Z.to_nat (b - a))).

Fixpoint map2 {A B C} (f : A -> B -> C) (x : list A) (y : list B) : list C :=
  match x, y with
  | a :: x', b :: y' => f a b :: map2 f x' y'
  | _, _ => []
  end.

(** Elementwise operation on two one-dimensional arrays with numpy's
    broadcasting: equal lengths, or one operand of List.length one; [None]
    stands for the [ValueError] raised otherwise. *)
Definition broadcast (f : Q -> Q -> Q) (x y : list Q) : option (list Q) :=
  if (List.length x =? List.length y)%nat then Some (map2 f x y)
  else match x, y with
       | [a], _ => Some (map (f a) y)
       | _, [b] => Some (map (fun u => f u b) x)
       | _, _ => None
       end.

Fixpoint minimum (d : Z) (l : list Z) : Z :=
  match l with
  | [] => d
  | x :: r => Z.min x (minimum x r)
  end.

(** [LinearRegression().fit(X, y)] with one feature: ordinary least
    squares; a constant feature gives the minimum-norm solution, slope 0. *)
Record LinearRegression := { coef_ : Q; intercept_ : Q }.

Definition lr_fit (X : list Q) (y : list Q) : LinearRegression :=
  let mx := mean X in
  let my := mean y in
  let sxy := sum (map (fun p => (fst p - mx) * (snd p - my)) (combine X y)) in
  let sxx := sum (map (fun u => (u - mx) * (u - mx)) X) in
  let c := sxy / sxx in
  {| coef_ := c; intercept_ := my - c * mx |}.

Definition lr_predict (m : LinearRegression) (X : list Q) : list Q :=
  map (fun u => u * coef_ m + intercept_ m) X.

End Np.

(** ** Python dictionaries: insertion-ordered association lists *)

Module Dict.

Definition dict (V : Type) : Type := list (string * V).

Section Ops.
Context {V : Type}.

Fixpoint get (k : string) (d : dict V) : option V :=
  match d with
  | [] => None
  | (k', v) :: r => if String.eqb k k' then Some v else get k r
  end.

(** [k in d] *)
Definition mem (k : string) (d : dict V) : bool :=
  match get k d with Some _ => true | None => false end.

(** [d[k] = v]: an existing key keeps its position, a new key goes last. *)
Fixpoint set (k : string) (v : V) (d : dict V) : dict V :=
  match d with
  | [] => [(k, v)]
  | (k', v') :: r =>
      if String.eqb k k' then (k', v) :: r else (k', v') :: set k v r
  end.

(** [list(d.keys())] and [d.items()] run in insertion order. *)
Definition keys (d : dict V) : list string := map fst d.

(** [not d] *)
Definition is_empty (d : dict V) : bool :=
  match d with [] => true | _ => false end.
End Ops.

End Dict.

Import PyStr.

(** ** Configuration ([src/config.py]) *)

Record Config := {
  ENABLE_SENTIMENT : bool;
  DEFAULT_PERIOD : string;
  DEFAULT_FORECAST_DAYS : Z;
  ASSETS_DIR : string
}.

(** [Config()] followed by [__post_init__]: the sentiment flag read from the
    environment is switched off when no news credential is set. *)
Definition Config_init (env_ENABLE_SENTIMENT env_NEWS_API_KEY : option string) : Config :=
  let flag :=
    String.eqb (lower (match env_ENABLE_SENTIMENT with Some s => s | None => "true" end))
               "true" in
  let has_key :=
    match env_NEWS_API_KEY with
    | Some k => negb (String.eqb k "")
    | None => false
    end in
  {| ENABLE_SENTIMENT := if flag && negb has_key then false else flag;
     DEFAULT_PERIOD := "2y";
     DEFAULT_FORECAST_DAYS := 60;
     ASSETS_DIR := "assets" |}.

(** ** Data model *)

(** One daily bar of a fetched frame after [reset_index]; dates are day
    numbers. *)
Record Bar := {
  Date : Z;
  Open : Q;
  High : Q;
  Low : Q;
  Close : Q;
  Volume : Q
}.

Definition DataFrame : Type := list Bar.

(** [df.empty] *)
Definition df_empty (df : DataFrame) : bool :=
  match df with [] => true | _ => false end.

Record RiskMetrics := {
  sharpe : Q;
  beta : Q;
  var_95 : Q;
  volatility : Q
}.

Record Forecast := {
  current : Q;
  predicted : Q;
  change_pct : Q
}.

Record Sentiment := {
  score : Q;
  label : string
}.

(** The dictionary bound to [DATA_STATE]. *)
Record DataState := {
  portfolio : Dict.dict DataFrame;
  forecasts : Dict.dict Forecast;
  risk_metrics : Dict.dict RiskMetrics;
  sentiment : Dict.dict Sentiment
}.

Definition empty_state : DataState :=
  {| portfolio := []; forecasts := []; risk_metrics := []; sentiment := [] |}.

Record exn := Raise { exn_type : string; exn_msg : string }.

(** An invocation of one of [ALL_TOOLS] with its arguments. *)
Inductive tool_call :=
| call_fetch_portfolio_data (tickers : string) (period : option string)
| call_calculate_risk_metrics (tickers : option string)
| call_ensemble_forecast (ticker : string) (days : option Z)
| call_analyze_sentiment (ticker : string)
| call_compare_portfolio.

(** A tool request issued by the language model: one of the tools, or a
    name the tool node does not know. *)
Inductive request :=
| req_tool (c : tool_call)
| req_unknown (name : string).

Inductive message :=
| SystemMessage (content : string)
| HumanMessage (content : string)
| AIMessage (content : string) (tool_calls : list request)
| ToolMessage (content : string).

Definition content_of (m : message) : string :=
  match m with
  | SystemMessage c | HumanMessage c | AIMessage c _ | ToolMessage c => c
  end.

(** Calls that leave the process, in the order they are made. *)
Inductive event :=
| ev_download (ticker period : string)
| ev_prophet (history : list (Z * Q)) (days : Z)
| ev_savefig (path : string) (history forecast : list (Z * Q))
| ev_random
| ev_llm (messages : list message)
| ev_llm_text (prompt : string)
| ev_sleep (seconds : nat).

(** The external collaborators. The first argument of an oracle is the
    number of events logged before the call. *)
Record Env := {
  config : Config;
  (** [yf.download(ticker, period=period, progress=False)] *)
  yf_download : nat -> string -> string -> exn + DataFrame;
  (** [Prophet(...).fit(history)], [make_future_dataframe(periods=days)] and
      [predict]: the [yhat] column of the resulting frame. *)
  prophet_yhat : nat -> list (Z * Q) -> Z -> exn + list Q;
  (** [random.uniform(-0.5, 0.5)] *)
  random_uniform : nat -> Q;
  (** [np.sqrt] *)
  np_sqrt : Q -> Q;
  (** [plt.savefig(path)] *)
  plt_savefig : nat -> string -> exn + unit;
  (** [llm_with_tools.invoke(messages)] and [llm.invoke(prompt)] *)
  llm_invoke : nat -> list message -> exn + message;
  llm_text : nat -> string -> exn + string;
  (** What the prebuilt tool node does with an exception raised by a tool:
      [Some c] answers with a tool message of content [c], [None] lets the
      exception through. *)
  handle_tool_error : exn -> option string;
  (** Content of the tool message answering a request for an unknown
      tool. *)
  invalid_call_content : string -> string;
  (** The recursion limit the graph engine applies when the caller passes
      none. *)
  default_recursion_limit : nat;
  (** The message of the error the graph engine raises when a run of the
      given limit is out of steps. *)
  recursion_error_msg : nat -> string;
  (** [datetime.now().strftime("%B %d, %Y")] *)
  now_text : nat -> string
}.

(** The process state: the object currently bound to [tools.DATA_STATE]; the
    object [agents.DATA_STATE] was bound to by [from tools import DATA_STATE]
    when the module was loaded; whether [reset_state] has since rebound the
    former name to a fresh object; the log of external calls. *)
Record World := {
  DATA_STATE : DataState;
  agents_DATA_STATE : DataState;
  rebound : bool;
  log : list event
}.

Definition initial_world : World :=
  {| DATA_STATE := empty_state; agents_DATA_STATE := empty_state;
     rebound := false; log := [] |}.

(** ** Computations: state with exceptions *)

Definition M (A : Type) : Type := World -> (exn + A) * World.

Definition ret {A} (a : A) : M A := fun w => (inr a, w).

Definition raise {A} (e : exn) : M A := fun w => (inl e, w).

Definition bind {A B} (m : M A) (k : A -> M B) : M B :=
  fun w =>
    match m w with
    | (inl e, w') => (inl e, w')
    | (inr a, w') => k a w'
    end.

(** [try: m except Exception as e: h e] *)
Definition try_except {A} (m : M A) (h : exn -> M A) : M A :=
  fun w =>
    match m w with
    | (inl e, w') => h e w'
    | (inr a, w') => (inr a, w')
    end.

Declare Scope py_scope.
Delimit Scope py_scope with py.
Notation "x <- m ;; k" := (bind m (fun x => k))
  (at level 61, m at next level, right associativity) : py_scope.
Notation "m ;; k" := (bind m (fun _ => k))
  (at level 61, right associativity) : py_scope.
Open Scope py_scope.

Definition get_state : M DataState := fun w => (inr (DATA_STATE w), w).

(** A mutation through [tools.DATA_STATE]; it is visible through
    [agents.DATA_STATE] as long as both names denote the same object. *)
Definition update_state (f : DataState -> DataState) : M unit :=
  fun w =>
    (inr tt,
     {| DATA_STATE := f (DATA_STATE w);
        agents_DATA_STATE :=
          if rebound w then agents_DATA_STATE w else f (agents_DATA_STATE w);
        rebound := rebound w;
        log := log w |}).

Definition log_event (ev : event) (w : World) : World :=
  {| DATA_STATE := DATA_STATE w; agents_DATA_STATE := agents_DATA_STATE w;
     rebound := rebound w; log := log w ++ [ev] |}.

(** An external call: logged, then answered by the oracle. *)
Definition external {A} (ev : event) (oracle : nat -> exn + A) : M A :=
  fun w => (oracle (List.length (log w)), log_event ev w).

Definition set_portfolio (k : string) (v : DataFrame) (s : DataState) : DataState :=
  {| portfolio := Dict.set k v (portfolio s); forecasts := forecasts s;
     risk_metrics := risk_metrics s; sentiment := sentiment s |}.

Definition set_forecasts (k : string) (v : Forecast) (s : DataState) : DataState :=
  {| portfolio := portfolio s; forecasts := Dict.set k v (forecasts s);
     risk_metrics := risk_metrics s; sentiment := sentiment s |}.

Definition set_risk_metrics (k : string) (v : RiskMetrics) (s : DataState) : DataState :=
  {| portfolio := portfolio s; forecasts := forecasts s;
     risk_metrics := Dict.set k v (risk_metrics s); sentiment := sentiment s |}.

Definition set_sentiment (k : string) (v : Sentiment) (s : DataState) : DataState :=
  {| portfolio := portfolio s; forecasts := forecasts s;
     risk_metrics := risk_metrics s; sentiment := Dict.set k v (sentiment s) |}.

(** [reset_state()]: rebinds the module global to a fresh dictionary. *)
Definition reset_state : M unit :=
  fun w =>
    (inr tt,
     {| DATA_STATE := empty_state; agents_DATA_STATE := agents_DATA_STATE w;
        rebound := true; log := log w |}).

(** ** The tools ([src/tools.py]) *)

Section Tools.

Variable E : Env.

Local Open Scope Q_scope.

(** [Series.std()] *)
Definition std (l : list Q) : Q := np_sqrt E (Np.var l).

Definition download (ticker period : string) : M DataFrame :=
  external (ev_download ticker period) (fun i => yf_download E i ticker period).

(** *** [fetch_portfolio_data] *)

(** The body of the loop over [ticker_list]: the line appended to
    [results]. The frames come with single-level columns, flattening a
    column MultiIndex is the identity on them. *)
Definition fetch_ticker (period ticker : string) : M string :=
  try_except
    (df <- download ticker period ;;
     if negb (df_empty df) then
       update_state (set_portfolio ticker df) ;;
       ret ("✅ " ++ ticker ++ ": " ++ of_nat (List.length df) ++ " data points")%string
     else
       ret ("❌ " ++ ticker ++ ": No data available")%string)
    (fun e => ret ("❌ " ++ ticker ++ ": " ++ take 50 (exn_msg e))%string).

Fixpoint fetch_loop (period : string) (ticker_list results : list string)
  : M (list string) :=
  match ticker_list with
  | [] => ret results
  | ticker :: rest =>
      line <- fetch_ticker period ticker ;;
      fetch_loop period rest (results ++ [line])%list
  end.

Definition fetch_portfolio_data (tickers : string) (period : option string) : M string :=
  let period :=
    match period with None => DEFAULT_PERIOD (config E) | Some p => p end in
  let ticker_list := map (fun t => upper (strip t)) (split "," tickers) in
  results <- fetch_loop period ticker_list [] ;;
  ret (join nl results).

(** *** [calculate_risk_metrics] *)

Definition NO_PORTFOLIO : string :=
  "❌ Error: No portfolio data loaded. Fetch data first.".

Definition NO_BENCHMARK : string :=
  "❌ Error: Could not fetch market benchmark (SPY)".

(** [np.cov(x, y)[0][1]]: stacking two rows of different lengths raises. *)
Definition np_cov (x y : list Q) : M Q :=
  if (List.length x =? List.length y)%nat then ret (Np.cov x y)
  else raise (Raise "ValueError"
    "all the input array dimensions except for the concatenation axis must match exactly").

(** Lines 116-124: the Sharpe ratio of a return series. *)
Definition sharpe_of (returns : list Q) : Q :=
  let risk_free_rate := 2 # 100 in
  let excess_returns := map (fun r => r - risk_free_rate / 252) returns in
  let std_dev := std returns in
  if Np.Qltb 0 std_dev
  then np_sqrt E 252 * Np.mean excess_returns / std_dev
  else 0.

(** Lines 126-137: beta over the right-aligned common window. *)
Definition beta_of (returns spy_returns : list Q) : M Q :=
  let min_len := Nat.min (List.length returns) (List.length spy_returns) in
  let aligned_returns := Np.slice_from (- Z.of_nat min_len) returns in
  let aligned_spy := Np.slice_from (- Z.of_nat min_len) spy_returns in
  if (0 <? List.length aligned_returns)%nat then
    covariance <- np_cov aligned_returns aligned_spy ;;
    let market_variance := Np.var aligned_spy in
    ret (if Np.Qltb 0 market_variance then covariance / market_variance else 1)
  else ret 1.

Definition risk_summary (ticker : string) (m : RiskMetrics) : string :=
  ("📊 " ++ ticker ++ ":" ++ nl
   ++ "   • Sharpe Ratio: " ++ format_f false 2 (sharpe m) ++ nl
   ++ "   • Beta: " ++ format_f false 2 (beta m) ++ nl
   ++ "   • VaR (95%): " ++ format_pct 2 (var_95 m) ++ nl
   ++ "   • Volatility: " ++ format_pct 2 (volatility m))%string.

(** The body of the loop over [ticker_list]: the report after the
    iteration. *)
Definition risk_ticker (spy_returns : list Q) (ticker : string)
           (risk_report : list string) : M (list string) :=
  st <- get_state ;;
  match Dict.get ticker (portfolio st) with
  | None => ret risk_report
  | Some df =>
      let close_prices := map Close df in
      let returns := Np.pct_change close_prices in
      if (List.length returns <? 30)%nat then
        ret (risk_report ++ [("⚠️  " ++ ticker ++ ": Insufficient data")%string])%list
      else
        let std_dev := std returns in
        let sharpe_ratio := sharpe_of returns in
        beta <- beta_of returns spy_returns ;;
        let var_95 := Np.percentile returns 5 in
        let volatility := std_dev * np_sqrt E 252 in
        let m := {| sharpe := sharpe_ratio; beta := beta;
                    var_95 := var_95; volatility := volatility |} in
        update_state (set_risk_metrics ticker m) ;;
        ret (risk_report ++ [risk_summary ticker m])%list
  end.

Fixpoint risk_loop (spy_returns : list Q) (ticker_list risk_report : list string)
  : M (list string) :=
  match ticker_list with
  | [] => ret risk_report
  | ticker :: rest =>
      risk_report' <- risk_ticker spy_returns ticker risk_report ;;
      risk_loop spy_returns rest risk_report'
  end.

(** [ticker_list]: the requested tickers, or every key of [portfolio] when
    [tickers] is [None] or empty. *)
Definition risk_ticker_list (tickers : option string) (st : DataState) : list string :=
  match tickers with
  | Some s =>
      if String.eqb s "" then Dict.keys (portfolio st)
      else map (fun t => upper (strip t)) (split "," s)
  | None => Dict.keys (portfolio st)
  end.

(** Lines 85-94: the benchmark returns, [None] when the bare [except]
    catches a failure. *)
Definition fetch_benchmark : M (option (list Q)) :=
  try_except
    (spy <- download "SPY" "2y" ;;
     ret (Some (Np.pct_change (map Close spy))))
    (fun _ => ret None).

Definition calculate_risk_metrics (tickers : option string) : M string :=
  st <- get_state ;;
  if Dict.is_empty (portfolio st) then ret NO_PORTFOLIO
  else
    let ticker_list := risk_ticker_list tickers st in
    benchmark <- fetch_benchmark ;;
    match benchmark with
    | None => ret NO_BENCHMARK
    | Some spy_returns =>
        risk_report <- risk_loop spy_returns ticker_list [] ;;
        ret (match risk_report with
             | [] => "❌ No metrics calculated"%string
             | _ => join (nl ++ nl) risk_report
             end)
    end.

(** *** [ensemble_forecast] *)

Definition NOT_LOADED (ticker : string) : string :=
  ("❌ Error: " ++ ticker ++ " not loaded.")%string.

(** [check_array] of scikit-learn refuses an input without samples. Its
    other test, for NaN or infinite entries, has no counterpart here: the
    closes are rationals, and a frame holding such an entry is outside the
    embedding. *)
Definition require_samples {A} (X : list A) : M unit :=
  match X with
  | [] => raise (Raise "ValueError"
            "Found array with 0 sample(s) while a minimum of 1 is required")
  | _ => ret tt
  end.

(** [0.7 * prophet_pred + 0.3 * lr_forecast] *)
Definition blend (prophet_pred lr_forecast : list Q) : M (list Q) :=
  match Np.broadcast Qplus (map (Qmult (7 # 10)) prophet_pred)
                           (map (Qmult (3 # 10)) lr_forecast) with
  | Some v => ret v
  | None => raise (Raise "ValueError" "operands could not be broadcast together")
  end.

Definition forecast_summary (ticker : string) (f : Forecast) : string :=
  ("📈 " ++ ticker ++ ": $" ++ format_f false 2 (current f) ++ " -> $"
   ++ format_f false 2 (predicted f)
   ++ " (" ++ format_f true 2 (change_pct f) ++ "%)")%string.

Definition ensemble_forecast (ticker : string) (days : option Z) : M string :=
  let days :=
    match days with None => DEFAULT_FORECAST_DAYS (config E) | Some d => d end in
  st <- get_state ;;
  match Dict.get ticker (portfolio st) with
  | None => ret (NOT_LOADED ticker)
  | Some df =>
      let close_series := map Close df in
      let df_prophet := combine (map Date df) close_series in
      (* 1. Prophet *)
      yhat <- external (ev_prophet df_prophet days)
                       (fun i => prophet_yhat E i df_prophet days) ;;
      (* 2. Linear regression *)
      let days_since_start :=
        map (fun d => (d - Np.minimum 0 (map Date df))%Z) (map Date df) in
      let X := map inject_Z days_since_start in
      let y := close_series in
      require_samples X ;;
      let lr_model := Np.lr_fit X y in
      let last_x := List.last days_since_start 0%Z in
      let future_days := Np.arange (last_x + 1) (last_x + days + 1) in
      require_samples future_days ;;
      let lr_forecast := Np.lr_predict lr_model (map inject_Z future_days) in
      (* 3. Ensemble *)
      let prophet_pred := Np.slice_from (- days) yhat in
      ensemble_pred <- blend prophet_pred lr_forecast ;;
      (* Plotting *)
      let last_date := List.last (map Date df) 0%Z in
      let forecast_dates := Np.arange (last_date + 1) (last_date + days + 1) in
      (if (List.length forecast_dates =? List.length ensemble_pred)%nat then ret tt
       else raise (Raise "ValueError" "x and y must have same first dimension")) ;;
      let plot_path := (ASSETS_DIR (config E) ++ "/" ++ ticker ++ "_forecast.png")%string in
      external (ev_savefig plot_path df_prophet (combine forecast_dates ensemble_pred))
               (fun i => plt_savefig E i plot_path) ;;
      (* Save data *)
      let current_price := List.last close_series 0 in
      let predicted_price := List.last ensemble_pred 0 in
      let change_pct := ((predicted_price - current_price) / current_price) * 100 in
      let f := {| current := current_price; predicted := predicted_price;
                  change_pct := change_pct |} in
      update_state (set_forecasts ticker f) ;;
      ret (forecast_summary ticker f)
  end.

(** *** [analyze_sentiment] *)

Definition SENTIMENT_DISABLED : string := "ℹ️ Sentiment Disabled".

Definition analyze_sentiment (ticker : string) : M string :=
  if negb (ENABLE_SENTIMENT (config E)) then ret SENTIMENT_DISABLED
  else
    score <- external ev_random (fun i => inr (random_uniform E i)) ;;
    let label := if Np.Qltb 0 score then "POSITIVE"%string else "NEGATIVE"%string in
    update_state (set_sentiment ticker {| score := score; label := label |}) ;;
    ret ("📰 " ++ ticker ++ " Sentiment: " ++ label
         ++ " (" ++ format_f false 2 score ++ ")")%string.

(** *** [compare_portfolio] *)

Definition NO_RISK : string := "❌ Run risk analysis first.".

(** The score of one [risk_metrics] item. *)
Definition score_of (fc : Dict.dict Forecast) (item : string * RiskMetrics) : Q :=
  let (ticker, metrics) := item in
  sharpe metrics * (5 # 10)
  + match Dict.get ticker fc with
    | Some forecast => change_pct forecast
    | None => 0
    end * (1 # 10).

(** [l.sort(key=lambda x: x[1], reverse=True)]: descending and stable,
    entries of equal score keep their relative order. *)
Fixpoint insert_desc (x : string * Q) (l : list (string * Q)) : list (string * Q) :=
  match l with
  | [] => [x]
  | y :: r => if Np.Qltb (snd x) (snd y) then y :: insert_desc x r else x :: l
  end.

Definition sort_reverse (l : list (string * Q)) : list (string * Q) :=
  fold_right insert_desc [] l.

Definition ranking_of (st : DataState) : list (string * Q) :=
  sort_reverse
    (map (fun item => (fst item, score_of (forecasts st) item)) (risk_metrics st)).

Fixpoint report_lines (i : nat) (ranking : list (string * Q)) : string :=
  match ranking with
  | [] => ""
  | (t, s) :: r =>
      (of_nat i ++ ". " ++ t ++ " (Score: " ++ format_f false 2 s ++ ")" ++ nl
       ++ report_lines (S i) r)%string
  end.

Definition compare_portfolio : M string :=
  st <- get_state ;;
  if Dict.is_empty (risk_metrics st) then ret NO_RISK
  else ret ("🏆 PORTFOLIO RANKING:" ++ nl ++ report_lines 1 (ranking_of st))%string.

End Tools.

(** ** The orchestrator ([src/agents.py]) *)

Record Step := { step : string; result : string }.

(** The dictionary returned by a run. [data_state] is [None] for the
    placeholder [{}] a failed autonomous run leaves in place. *)
Record Result := {
  steps : list Step;
  final_response : string;
  data_state : option DataState;
  synthesis_mode : option string
}.

Inductive node := agent | tools.

Section Agents.

Variable E : Env.

(** [tool.invoke(args)] *)
Definition invoke_tool (c : tool_call) : M string :=
  match c with
  | call_fetch_portfolio_data tickers period => fetch_portfolio_data E tickers period
  | call_calculate_risk_metrics tickers => calculate_risk_metrics E tickers
  | call_ensemble_forecast ticker days => ensemble_forecast E ticker days
  | call_analyze_sentiment ticker => analyze_sentiment E ticker
  | call_compare_portfolio => compare_portfolio
  end.

Definition now : M string :=
  fun w => (inr (now_text E (List.length (log w))), w).

(** *** Manual mode *)

(** The list [steps] built by [run_manual]. *)
Definition manual_steps (tickers : string) (forecast_days : Z)
           (include_sentiment : bool) : list (string * tool_call) :=
  ([("Fetching Data", call_fetch_portfolio_data tickers None);
    ("Risk Analysis", call_calculate_risk_metrics (Some tickers))]
   ++ map (fun t => (("Forecasting " ++ strip t)%string,
                     call_ensemble_forecast (strip t) (Some forecast_days)))
          (split "," tickers)
   ++ (if include_sentiment && ENABLE_SENTIMENT (config E)
       then map (fun t => (("Sentiment " ++ strip t)%string,
                           call_analyze_sentiment (strip t)))
                (split "," tickers)
       else [])
   ++ [("Portfolio Ranking", call_compare_portfolio)])%list.

(** The loop [for name, func, args in steps]. *)
Fixpoint run_steps (todo : list (string * tool_call)) (done : list Step)
  : M (list Step) :=
  match todo with
  | [] => ret done
  | (name, call) :: rest =>
      res <- invoke_tool call ;;
      run_steps rest (done ++ [{| step := name; result := res |}])%list
  end.

Definition last_result (l : list Step) : string :=
  result (List.last l {| step := ""; result := "" |}).

Definition run_manual (tickers : string) (forecast_days : Z)
           (include_sentiment : bool) : M Result :=
  reset_state ;;
  done <- run_steps (manual_steps tickers forecast_days include_sentiment) [] ;;
  fun w =>
    (inr {| steps := done;
            final_response := last_result done;
            data_state := Some (agents_DATA_STATE w);
            synthesis_mode := None |}, w).

(** *** Hybrid mode *)

Definition synthesis_prompt (current_date : string) (log : list Step) : string :=
  (nl ++ "        You are a Senior Financial Analyst. Date: " ++ current_date ++ "." ++ nl
   ++ "        " ++ nl
   ++ "        Based on the data below, provide an Executive Summary with:" ++ nl
   ++ "        1. Top Pick" ++ nl
   ++ "        2. Key Risks" ++ nl
   ++ "        3. Outlook" ++ nl
   ++ "        " ++ nl
   ++ "        DATA:" ++ nl
   ++ "        " ++ join nl (map (fun s => step s ++ ": " ++ result s) log) ++ nl
   ++ "        ")%string.

Definition run_hybrid (tickers : string) (forecast_days : Z)
           (include_sentiment : bool) : M Result :=
  manual_results <- run_manual tickers forecast_days include_sentiment ;;
  current_date <- now ;;
  let prompt := synthesis_prompt current_date (steps manual_results) in
  synthesis <- external (ev_llm_text prompt) (fun i => llm_text E i prompt) ;;
  ret {| steps := steps manual_results;
         final_response := synthesis;
         data_state := data_state manual_results;
         synthesis_mode := Some "hybrid"%string |}.

(** *** Autonomous mode *)

Definition system_prompt (current_date query : string) : string :=
  (nl ++ "        You are a Senior Portfolio Manager. Today is " ++ current_date ++ "." ++ nl
   ++ "        " ++ nl
   ++ "        Your Goal: " ++ query ++ nl
   ++ "        " ++ nl
   ++ "        STRICT INSTRUCTIONS:" ++ nl
   ++ "        1. Use 'fetch_portfolio_data' first." ++ nl
   ++ "        2. Then use 'calculate_risk_metrics'." ++ nl
   ++ "        3. Then forecast each stock." ++ nl
   ++ "        4. Finally, write an Executive Summary." ++ nl
   ++ "        ")%string.

(** The prebuilt tool node on one request: the tool's text, or what
    [handle_tool_error] makes of its exception; an unknown name is answered
    without a call. *)
Definition run_tool_call (r : request) : M message :=
  match r with
  | req_unknown name => ret (ToolMessage (invalid_call_content E name))
  | req_tool c =>
      try_except
        (res <- invoke_tool c ;; ret (ToolMessage res))
        (fun e =>
           match handle_tool_error E e with
           | Some text => ret (ToolMessage text)
           | None => raise e
           end)
  end.

(** The requests of one model message are served in the order given. *)
Fixpoint tool_node (calls : list request) : M (list message) :=
  match calls with
  | [] => ret []
  | c :: rest =>
      m <- run_tool_call c ;;
      ms <- tool_node rest ;;
      ret (m :: ms)
  end.

Definition tool_calls_of (m : message) : list request :=
  match m with
  | AIMessage _ calls => calls
  | _ => []
  end.

(** One super-step of the graph of [_build_graph]: the node run, its update
    of [messages], and the node the edges lead to ([None] is [END]).
    The edge out of [agent] is [tools_condition]. *)
Definition graph_step (n : node) (messages : list message)
  : M (string * list message * option node) :=
  match n with
  | agent =>
      ai <- external (ev_llm messages) (fun i => llm_invoke E i messages) ;;
      ret ("agent"%string, [ai],
           match tool_calls_of ai with
           | [] => None
           | _ => Some tools
           end)
  | tools =>
      out <- tool_node (tool_calls_of (List.last messages (HumanMessage ""))) ;;
      ret ("tools"%string, out, Some agent)
  end.

Definition GraphRecursionError (limit : nat) : exn :=
  Raise "GraphRecursionError" (recursion_error_msg E limit).

(** The graph engine run as a generator: at most [fuel] super-steps, the
    consumer's loop body [body] runs between two super-steps on its own
    state [s], which survives an exception. The outcome is the exception
    raised or the final [messages]. *)
Fixpoint pregel {St : Type} (limit fuel : nat) (next : node) (messages : list message)
         (body : string -> list message -> St -> M St) (s : St)
  : World -> (St * (exn + list message)) * World :=
  fun w =>
    match fuel with
    | O => ((s, inl (GraphRecursionError limit)), w)
    | S fuel' =>
        match graph_step next messages w with
        | (inl e, w1) => ((s, inl e), w1)
        | (inr (key, update, next'), w1) =>
            match body key update s w1 with
            | (inl e, w2) => ((s, inl e), w2)
            | (inr s', w2) =>
                let messages' := (messages ++ update)%list in
                match next' with
                | None => ((s', inr messages'), w2)
                | Some n => pregel limit fuel' n messages' body s' w2
                end
            end
        end
    end.

(** [self.app.stream(inputs, {"recursion_limit": limit})] under a loop of
    body [body]. *)
Definition app_stream {St : Type} (inputs : list message) (limit : nat)
           (body : string -> list message -> St -> M St) (s : St) :=
  pregel limit limit agent inputs body s.

(** [self.app.invoke(inputs)]: no limit is passed. *)
Definition app_invoke (inputs : list message) :=
  pregel (default_recursion_limit E) (default_recursion_limit E) agent inputs
         (fun _ _ (s : unit) => ret s) tt.

Definition sleep (seconds : nat) : M unit :=
  fun w => (inr tt, log_event (ev_sleep seconds) w).

(** The body of [for event in self.app.stream(...)]. *)
Definition autonomous_body (key : string) (messages : list message)
           (steps : list Step) : M (list Step) :=
  sleep 5 ;;
  match messages with
  | [] => ret steps
  | _ =>
      let last_msg := List.last messages (HumanMessage "") in
      let content := content_of last_msg in
      let step_name :=
        if String.eqb key "tools" then "Tool Output"%string else capitalize key in
      ret (steps ++ [{| step := step_name;
                        result := if String.eqb content "" then "[Data Processed]"%string
                                  else (take 300 content ++ "...")%string |}])%list
  end.

Definition autonomous_error (steps : list Step) (e : exn) : Result :=
  {| steps := (steps ++ [{| step := "Critical Error"; result := exn_msg e |}])%list;
     final_response := ("⚠️ Autonomous Agent Error: " ++ exn_msg e)%string;
     data_state := None;
     synthesis_mode := None |}.

Definition run_autonomous (query : string) : M Result :=
  reset_state ;;
  current_date <- now ;;
  let system_msg := SystemMessage (system_prompt current_date query) in
  let inputs := [system_msg; HumanMessage query] in
  fun w =>
    match app_stream inputs 15 autonomous_body [] w with
    | ((steps, inl e), w1) => (inr (autonomous_error steps e), w1)
    | ((steps, inr _), w1) =>
        match app_invoke inputs w1 with
        | ((_, inl e), w2) => (inr (autonomous_error steps e), w2)
        | ((_, inr final_messages), w2) =>
            (inr {| steps := steps;
                    final_response :=
                      content_of (List.last final_messages (HumanMessage ""));
                    data_state := Some (agents_DATA_STATE w2);
                    synthesis_mode := None |}, w2)
        end
    end.

End Agents.

(** ** Auxiliary definitions for the statements *)

Section Statements.

Variable E : Env.

(** A sequence of tool invocations, each made whatever the outcome of the
    previous ones (the manual pipeline, or the tool node under a model
    that keeps going). *)
Fixpoint run_calls (calls : list tool_call) (w : World) : World :=
  match calls with
  | [] => w
  | c :: rest => run_calls rest (snd (invoke_tool E c w))
  end.


Fixpoint for_each {A B} (f : A -> M B) (l : list A) : M (list B) :=
  match l with
  | [] => ret []
  | x :: r => y <- f x ;; ys <- for_each f r ;; ret (y :: ys)
  end.

(** The manual policy as the specification words it: Fetch once, Risk once,
    Forecast once per ticker, Sentiment once per ticker when enabled by
    both the caller and the configuration, Ranking once; the log holds the
    results in call order and the final response is the ranking report. *)
Definition manual_sequence (tickers : string) (forecast_days : Z)
           (include_sentiment : bool) : M Result :=
  let names := map strip (split "," tickers) in
  reset_state ;;
  fetched <- fetch_portfolio_data E tickers None ;;
  risk <- calculate_risk_metrics E (Some tickers) ;;
  projections <- for_each (fun t => ensemble_forecast E t (Some forecast_days)) names ;;
  moods <- (if include_sentiment && ENABLE_SENTIMENT (config E)
            then for_each (analyze_sentiment E) names
            else ret []) ;;
  report <- compare_portfolio ;;
  fun w =>
    (inr {| steps :=
              ([{| step := "Fetching Data"; result := fetched |};
                {| step := "Risk Analysis"; result := risk |}]
               ++ map (fun p => {| step := ("Forecasting " ++ fst p)%string;
                                   result := snd p |})
                      (combine names projections)
               ++ map (fun p => {| step := ("Sentiment " ++ fst p)%string;
                                   result := snd p |})
                      (combine names moods)
               ++ [{| step := "Portfolio Ranking"; result := report |}])%list;
            final_response := report;
            data_state := Some (agents_DATA_STATE w);
            synthesis_mode := None |}, w).



(** The inputs of the blend in [ensemble_forecast]: the history handed to
    the seasonal model, its projection (the last [days] rows of [yhat]),
    and the linear-trend projection of lines 192-201. *)
Definition history_of (df : DataFrame) : list (Z * Q) :=
  combine (map Date df) (map Close df).

Definition seasonal_projection (yhat : list Q) (days : Z) : list Q :=
  Np.slice_from (- days) yhat.

Definition linear_projection (df : DataFrame) (days : Z) : list Q :=
  let days_since_start :=
    map (fun d => (d - Np.minimum 0 (map Date df))%Z) (map Date df) in
  let last_x := List.last days_since_start 0%Z in
  Np.lr_predict (Np.lr_fit (map inject_Z days_since_start) (map Close df))
                (map inject_Z (Np.arange (last_x + 1) (last_x + days + 1))).

Definition forecast_dates_of (df : DataFrame) (days : Z) : list Z :=
  let last_date := List.last (map Date df) 0%Z in
  Np.arange (last_date + 1) (last_date + days + 1).

Definition plot_path_of (ticker : string) : string :=
  (ASSETS_DIR (config E) ++ "/" ++ ticker ++ "_forecast.png")%string.

(** The conversation an autonomous run starts from. *)
Definition autonomous_inputs (query : string) (w : World) : list message :=
  [SystemMessage (system_prompt (now_text E (List.length (log w))) query);
   HumanMessage query].

(** The model invocations a run of the graph can make with [fuel]
    super-steps left: at most every other super-step. *)
Definition llm_budget (next : node) (fuel : nat) : nat :=
  match next with
  | agent => Nat.div2 (S fuel)
  | tools => Nat.div2 fuel
  end.

(** Number of model invocations made so far. *)
Fixpoint count_llm (l : list event) : nat :=
  match l with
  | [] => 0
  | ev_llm _ :: r => S (count_llm r)
  | _ :: r => count_llm r
  end.

Definition success_line (ticker line : string) : Prop :=
  exists n, line = ("✅ " ++ ticker ++ ": " ++ of_nat n ++ " data points")%string.

Definition failure_line (ticker line : string) : Prop :=
  exists reason, line = ("❌ " ++ ticker ++ ": " ++ reason)%string.

End Statements.

(** One mutation of the shared state as the tools make them: Fetch stores an
    upper-cased key, Risk and Forecast store under a key of [portfolio],
    Sentiment stores under any key. *)
Inductive state_step : DataState -> DataState -> Prop :=
| step_fetch s t df :
    has_lower t = false -> state_step s (set_portfolio t df s)
| step_risk s t m :
    Dict.mem t (portfolio s) = true -> state_step s (set_risk_metrics t m s)
| step_forecast s t f :
    Dict.mem t (portfolio s) = true -> state_step s (set_forecasts t f s)
| step_sentiment s t x :
    state_step s (set_sentiment t x s).

Definition evolves : DataState -> DataState -> Prop :=
  clos_refl_trans DataState state_step.

(** The keys of the derived mappings that the steps guard. *)
Definition guarded_keys (s : DataState) : Prop :=
  incl (Dict.keys (risk_metrics s)) (Dict.keys (portfolio s))
  /\ incl (Dict.keys (forecasts s)) (Dict.keys (portfolio s)).

Definition upper_keys (s : DataState) : Prop :=
  Forall (fun k => has_lower k = false) (Dict.keys (portfolio s)).

(** What a tool may do to the world: mutate the shared state by
    [state_step]s and append external calls other than model invocations. *)
Definition extends (w w' : World) : Prop :=
  evolves (DATA_STATE w) (DATA_STATE w')
  /\ exists l, log w' = (log w ++ l)%list /\ count_llm l = 0.

Definition sound {A} (m : M A) : Prop := forall w, extends w (snd (m w)).

(** Soundness from the states that satisfy [P]. *)
Definition sound_from {A} (P : DataState -> Prop) (m : M A) : Prop :=
  forall w, P (DATA_STATE w) -> extends w (snd (m w)).



(** Extensional equality of computations. *)
Definition meq {A} (m1 m2 : M A) : Prop := forall w, m1 w = m2 w.

(** The lines of the risk report. *)
Definition risk_line (s : string) : Prop :=
  startswith s "⚠️  " = true \/ startswith s "📊 " = true.

(** ** Concrete environments *)

Module Demo.

(** [n] daily bars closing at [base], [base + slope], ... *)
Definition frame (n : nat) (base slope : Z) : DataFrame :=
  map (fun i =>
         let p := inject_Z (base + slope * Z.of_nat i) in
         {| Date := Z.of_nat i; Open := p; High := p; Low := p; Close := p;
            Volume := 1000 |})
      (seq 0 n).

(** A square root rounded down to six decimals. *)
Definition sqrt6 (q : Q) : Q :=
  (Z.sqrt (Qnum q * Zpos (Qden q) * 10 ^ 12) # (Qden q * 10 ^ 6))%Q.

(** A seasonal model that repeats the last close over the horizon. *)
Definition flat_prophet (history : list (Z * Q)) (days : Z) : exn + list Q :=
  inr (map snd history ++ repeat (List.last (map snd history) 0%Q) (Z.to_nat days))%list.

Definition env (download : nat -> string -> string -> exn + DataFrame)
           (llm : nat -> list message -> exn + message) (limit : nat) : Env :=
  {| config := Config_init (Some "true") (Some "news-key");
     yf_download := download;
     prophet_yhat := fun _ => flat_prophet;
     random_uniform := fun i => (Z.of_nat (i mod 11) - 5 # 10)%Q;
     np_sqrt := sqrt6;
     plt_savefig := fun _ _ => inr tt;
     llm_invoke := llm;
     llm_text := fun _ _ => inr "Executive Summary";
     handle_tool_error := fun e => Some ("Error: " ++ exn_msg e)%string;
     invalid_call_content := fun name => ("Error: " ++ name ++ " is not a valid tool")%string;
     default_recursion_limit := limit;
     recursion_error_msg := fun n =>
       ("Recursion limit of " ++ of_nat n ++ " reached without hitting a stop condition.")%string;
     now_text := fun _ => "November 03, 2026" |}.

(** A market in which AAA and the benchmark trade, BBB has no data and BAD
    makes the download fail. *)
Definition market (n : nat) : nat -> string -> string -> exn + DataFrame :=
  fun _ ticker _ =>
    if String.eqb ticker "AAA" then inr (frame n 100 1)
    else if String.eqb ticker "AAPL" then inr (frame n 200 2)
    else if String.eqb ticker "SPY" then inr (frame n 400 1)
    else if String.eqb ticker "BAD" then inl (Raise "Exception" "connection reset")
    else inr [].

(** The same market on a day the benchmark download comes back empty. *)
Definition market_without_benchmark (n : nat) : nat -> string -> string -> exn + DataFrame :=
  fun i ticker period =>
    if String.eqb ticker "SPY" then inr [] else market n i ticker period.

Definition final_answer : message := AIMessage "Executive Summary" [].

Definition ask_ranking : message := AIMessage "" [req_tool call_compare_portfolio].

(** A model that answers at once. *)
Definition llm_direct : nat -> list message -> exn + message :=
  fun _ _ => inr final_answer.

(** A model that asks for the ranking until the conversation holds [n]
    messages. *)
Definition llm_until (n : nat) : nat -> list message -> exn + message :=
  fun _ messages =>
    if (List.length messages <? n)%nat then inr ask_ranking else inr final_answer.


(** A market whose first download succeeds and whose later ones fail. *)
Definition market_once (n : nat) : nat -> string -> string -> exn + DataFrame :=
  fun i ticker period =>
    if (i =? 0)%nat then market n i ticker period
    else inl (Raise "Exception" "connection reset").




Definition quiet : Env := env (market 3) llm_direct 25.

Definition stored : DataState :=
  {| portfolio := [("AAA", frame 3 100 1); ("BBB", frame 3 50 0); ("CCC", frame 3 10 1)];
     forecasts := [("AAA", {| current := 102; predicted := 104; change_pct := 2 |});
                   ("CCC", {| current := 12; predicted := 15; change_pct := 25 |})];
     risk_metrics :=
       [("AAA", {| sharpe := 1; beta := 1; var_95 := -1 # 100; volatility := 2 # 10 |});
        ("BBB", {| sharpe := 3 # 2; beta := 1; var_95 := -2 # 100; volatility := 3 # 10 |});
        ("CCC", {| sharpe := -1; beta := 1; var_95 := -3 # 100; volatility := 4 # 10 |})];
     sentiment := [] |}.

Definition world_of (st : DataState) : World :=
  {| DATA_STATE := st; agents_DATA_STATE := empty_state; rebound := true; log := [] |}.

End Demo.

(** ** Further definitions for the statements *)

(** A relation between the world before and after a computation that the
    tools can be shown to maintain: a preorder kept by every external
    call. *)
Record frame (R : World -> World -> Prop) : Prop := {
  frame_refl : forall w, R w w;
  frame_trans : forall w1 w2 w3, R w1 w2 -> R w2 w3 -> R w1 w3;
  frame_log : forall ev w, R w (log_event ev w)
}.

(** The external calls the tools make. *)
Definition tool_event (ev : event) : Prop :=
  match ev with
  | ev_download _ _ | ev_prophet _ _ | ev_savefig _ _ _ | ev_random => True
  | _ => False
  end.

(** A preorder kept by the external calls of the tools. *)
Record tool_frame (R : World -> World -> Prop) : Prop := {
  tf_refl : forall w, R w w;
  tf_trans : forall w1 w2 w3, R w1 w2 -> R w2 w3 -> R w1 w3;
  tf_log : forall ev w, tool_event ev -> R w (log_event ev w)
}.

(** Between [w] and [w'] only the tools' own external calls were made. *)
Definition tool_calls_only (w w' : World) : Prop :=
  exists l, log w' = (log w ++ l)%list /\ Forall tool_event l.

Definition respects {A} (R : World -> World -> Prop) (m : M A) : Prop :=
  forall w, R w (snd (m w)).

(** Every assignment through the setter [set] maintains [R]. *)
Definition writes {V} (R : World -> World -> Prop)
           (set : string -> V -> DataState -> DataState) : Prop :=
  forall k v w, R w (snd (update_state (set k v) w)).

(** The component [proj] of the shared state is left as it was. *)
Definition keeps {V} (proj : DataState -> V) (w w' : World) : Prop :=
  proj (DATA_STATE w') = proj (DATA_STATE w).

(** [l'] extends [l] at the end. *)
Definition extends_list {A} (l l' : list A) : Prop := exists r, l' = (l ++ r)%list.

(** No key of the four mappings is removed or moved. *)
Definition keys_kept (w w' : World) : Prop :=
  extends_list (Dict.keys (portfolio (DATA_STATE w))) (Dict.keys (portfolio (DATA_STATE w')))
  /\ extends_list (Dict.keys (forecasts (DATA_STATE w))) (Dict.keys (forecasts (DATA_STATE w')))
  /\ extends_list (Dict.keys (risk_metrics (DATA_STATE w)))
                  (Dict.keys (risk_metrics (DATA_STATE w')))
  /\ extends_list (Dict.keys (sentiment (DATA_STATE w))) (Dict.keys (sentiment (DATA_STATE w'))).

(** Once [reset_state] has rebound [tools.DATA_STATE], the object bound in
    [agents] is out of reach of the tools. *)
Definition stale (w w' : World) : Prop :=
  rebound w = true ->
  rebound w' = true /\ agents_DATA_STATE w' = agents_DATA_STATE w.

(** The label of a stored sentiment entry agrees with its score. *)
Definition sentiment_ok (s : Sentiment) : Prop :=
  (label s = "POSITIVE" /\ (0 < score s)%Q) \/ (label s = "NEGATIVE" /\ (score s <= 0)%Q).

(** The percentage of a stored forecast entry is the one of its two prices. *)
Definition forecast_ok (f : Forecast) : Prop :=
  (change_pct f == ((predicted f - current f) / current f) * 100)%Q.

Definition entries_ok {V} (ok : V -> Prop) (d : Dict.dict V) : Prop :=
  Forall (fun kv => ok (snd kv)) d.

(** An invariant of the shared state seen as a relation between worlds. *)
Definition maintains (P : DataState -> Prop) (w w' : World) : Prop :=
  P (DATA_STATE w) -> P (DATA_STATE w').

(** The keys of each of the four mappings are distinct. *)
Definition distinct_keys (s : DataState) : Prop :=
  NoDup (Dict.keys (portfolio s)) /\ NoDup (Dict.keys (forecasts s))
  /\ NoDup (Dict.keys (risk_metrics s)) /\ NoDup (Dict.keys (sentiment s)).

(** What the tools keep true of the shared state. *)
Definition state_ok (s : DataState) : Prop :=
  guarded_keys s /\ upper_keys s /\ distinct_keys s
  /\ entries_ok (fun df => df <> []) (portfolio s)
  /\ entries_ok forecast_ok (forecasts s)
  /\ entries_ok sentiment_ok (sentiment s).

(** An entry of the step log of an autonomous run: named after the node
    that produced it, with a result cut to 300 characters. *)
Definition step_shape (s : Step) : Prop :=
  (step s = "Agent"%string \/ step s = "Tool Output"%string)
  /\ (String.length (result s) <= 303)%nat.

(** ** The response cleaner of the user interface ([src/app.py]) *)

Module App.

(** The Python values the cleaner meets: the response of the model and what
    [ast.literal_eval] builds from a string. [VOther] stands for the values
    that are neither strings, lists nor dictionaries. *)
#[local] Unset Elimination Schemes.
Inductive pyval :=
| VStr (s : string)
| VList (items : list pyval)
| VDict (items : list (pyval * pyval))
| VOther (repr : string).
#[local] Set Elimination Schemes.

(** [sub in s] *)
Fixpoint contains (s sub : string) : bool :=
  startswith s sub
  || match s with
     | EmptyString => false
     | String _ r => contains r sub
     end.

(** [d.get("text")]: the value under the string key [text]. *)
Fixpoint get_text (items : list (pyval * pyval)) : option pyval :=
  match items with
  | [] => None
  | (VStr k, v) :: r => if String.eqb k "text" then Some v else get_text r
  | _ :: r => get_text r
  end.

Section Cleaner.

(** [ast.literal_eval], and [str] on the values that are not strings. *)
Variable literal_eval : string -> exn + pyval.
Variable repr : pyval -> string.

Definition str (v : pyval) : string :=
  match v with
  | VStr s => s
  | _ => repr v
  end.

(** [clean_ai_response]: the bare [except] also catches the
    [AttributeError] of [parsed[0].get] on a first item that is not a
    dictionary. *)
Definition clean_ai_response (response : pyval) : pyval :=
  match response with
  | VStr s =>
      if startswith (strip s) "[" && contains s "type" then
        match literal_eval s with
        | inr (VList (VDict d :: rest)) =>
            match get_text d with
            | Some v => v
            | None => VStr (str (VList (VDict d :: rest)))
            end
        | _ => response
        end
      else response
  | VList (VDict d :: rest) =>
      match get_text d with
      | Some v => v
      | None => VStr (str response)
      end
  | VList (first :: rest) => VStr (str first)
  | _ => VStr (str response)
  end.

End Cleaner.

End App.

(** More environments. *)
Module Scenario.

(** [Demo.env] with the configuration, the seasonal model and the handling
    of tool errors as further parameters. *)
Definition env (cfg : Config)
           (download : nat -> string -> string -> exn + DataFrame)
           (prophet : nat -> list (Z * Q) -> Z -> exn + list Q)
           (llm : nat -> list message -> exn + message)
           (on_tool_error : exn -> option string) (limit : nat) : Env :=
  {| config := cfg;
     yf_download := download;
     prophet_yhat := prophet;
     random_uniform := random_uniform (Demo.env download llm limit);
     np_sqrt := Demo.sqrt6;
     plt_savefig := fun _ _ => inr tt;
     llm_invoke := llm;
     llm_text := fun _ prompt => inr ("Summary of " ++ of_nat (String.length prompt) ++ " characters")%string;
     handle_tool_error := on_tool_error;
     invalid_call_content := invalid_call_content (Demo.env download llm limit);
     default_recursion_limit := limit;
     recursion_error_msg := recursion_error_msg (Demo.env download llm limit);
     now_text := fun _ => "November 03, 2026" |}.

Definition with_news : Config := Config_init (Some "true") (Some "news-key").

(** The flag is set but no news credential is. *)
Definition without_news : Config := Config_init (Some "TRUE") None.


(** The market of [Demo.market] on a day the benchmark download fails. *)
Definition market_benchmark_down (n : nat) : nat -> string -> string -> exn + DataFrame :=
  fun i ticker period =>
    if String.eqb ticker "SPY" then inl (Raise "Exception" "Too Many Requests")
    else Demo.market n i ticker period.

(** A model that never stops asking for the ranking. *)
Definition llm_forever : nat -> list message -> exn + message :=
  fun _ _ => inr Demo.ask_ranking.

(** A model whose provider refuses the call. *)
Definition llm_down : nat -> list message -> exn + message :=
  fun _ _ => inl (Raise "ResourceExhausted" "429 quota exceeded").

Definition keep_going (e : exn) : option string := Some ("Error: " ++ exn_msg e)%string.

(** A day on which every download comes back empty. *)
Definition market_closed : nat -> string -> string -> exn + DataFrame :=
  fun _ _ _ => inr [].

End Scenario.


(** The entry lines 116-147 of [calculate_risk_metrics] compute from the
    frame of a ticker and the benchmark returns. *)
Definition risk_entry (E : Env) (spy_returns : list Q) (df : DataFrame)
           (m : RiskMetrics) : Prop :=
  let returns := Np.pct_change (map Close df) in
  sharpe m = sharpe_of E returns
  /\ var_95 m = Np.percentile returns 5
  /\ volatility m = (std E returns * np_sqrt E 252)%Q
  /\ forall w, beta_of returns spy_returns w = (inr (beta m), w).

(** The line of the risk report for a requested ticker that is loaded in
    [st], the state at the call; [st'] is the state after it. *)
Definition risk_report_line (E : Env) (spy_returns : list Q) (st st' : DataState)
           (ticker line : string) : Prop :=
  exists df,
    Dict.get ticker (portfolio st) = Some df
    /\ if (List.length (Np.pct_change (map Close df)) <? 30)%nat
       then line = ("⚠️  " ++ ticker ++ ": Insufficient data")%string
       else exists m, risk_entry E spy_returns df m
                      /\ line = risk_summary ticker m
                      /\ Dict.get ticker (risk_metrics st') = Some m.

(** * Properties *)

(** ** Text *)

Module PyStrFacts.

Lemma is_lower_upper_char (c : ascii) : is_lower (upper_char c) = false.
Proof. destruct c as [[] [] [] [] [] [] [] []]; reflexivity. Qed.

Lemma has_lower_upper (s : string) : has_lower (upper s) = false.
Proof.
  unfold upper. induction s as [|c r IH]; simpl; [reflexivity|].
  now rewrite is_lower_upper_char, IH.
Qed.

Lemma space_not_lower (c : ascii) : is_space c = true -> is_lower c = false.
Proof. destruct c as [[] [] [] [] [] [] [] []]; simpl; intros H; try reflexivity; discriminate H. Qed.

Lemma has_lower_lstrip (s : string) : has_lower (lstrip s) = has_lower s.
Proof.
  induction s as [|c r IH]; simpl; [reflexivity|].
  destruct (is_space c) eqn:Hc; [|reflexivity].
  now rewrite (space_not_lower c Hc), IH.
Qed.

Lemma has_lower_rstrip (s : string) : has_lower (rstrip s) = has_lower s.
Proof.
  induction s as [|c r IH]; simpl; [reflexivity|].
  destruct (rstrip r) as [|c' r'] eqn:Hr.
  - simpl in IH. rewrite <- IH.
    destruct (is_space c) eqn:Hc; simpl.
    + now rewrite (space_not_lower c Hc).
    + reflexivity.
  - simpl. simpl in IH. now rewrite IH.
Qed.

Lemma has_lower_strip (s : string) : has_lower (strip s) = has_lower s.
Proof. unfold strip. now rewrite has_lower_rstrip, has_lower_lstrip. Qed.

Lemma split_not_nil (sep : ascii) (s : string) : split sep s <> [].
Proof.
  induction s as [|c r IH]; simpl; [discriminate|].
  destruct (Ascii.eqb c sep); [discriminate|].
  destruct (split sep r); [contradiction | discriminate].
Qed.

Lemma startswith_app (p x y : string) :
  startswith x p = true -> startswith (x ++ y) p = true.
Proof.
  revert x; induction p as [|c p IH]; intros x H; [reflexivity|].
  destruct x as [|d x]; simpl in *; [discriminate|].
  apply andb_true_iff in H as [H1 H2]. rewrite H1. simpl. auto.
Qed.

Lemma startswith_join (p sep x : string) (l : list string) :
  startswith x p = true -> startswith (join sep (x :: l)) p = true.
Proof.
  intros H. destruct l; simpl; [assumption|]. now apply startswith_app.
Qed.

End PyStrFacts.

(** ** Dictionaries *)

Module DictFacts.

Import Dict.

Section Facts.
Context {V : Type}.
Implicit Types (d : dict V) (k : string) (v : V).

Lemma get_set k k' v d :
  get k (set k' v d) = if String.eqb k k' then Some v else get k d.
Proof.
  induction d as [|[k0 v0] r IH]; simpl.
  - reflexivity.
  - destruct (String.eqb k' k0) eqn:H0; simpl.
    + apply String.eqb_eq in H0; subst k0.
      destruct (String.eqb k k'); reflexivity.
    + rewrite IH. destruct (String.eqb k k') eqn:H1; [|reflexivity].
      apply String.eqb_eq in H1; subst k'. now rewrite H0.
Qed.

Lemma get_set_same k v d : get k (set k v d) = Some v.
Proof. now rewrite get_set, String.eqb_refl. Qed.

Lemma mem_set k k' v d : mem k (set k' v d) = String.eqb k k' || mem k d.
Proof. unfold mem. rewrite get_set. destruct (String.eqb k k'); reflexivity. Qed.

Lemma mem_keys k d : mem k d = true <-> In k (keys d).
Proof.
  unfold mem, keys. induction d as [|[k0 v0] r IH]; simpl.
  - split; [discriminate | contradiction].
  - destruct (String.eqb k k0) eqn:H0.
    + apply String.eqb_eq in H0. subst. tauto.
    + apply String.eqb_neq in H0. split.
      * intros H. right. now apply IH.
      * intros [H|H]; [congruence | now apply IH].
Qed.

Lemma get_some_mem k v d : get k d = Some v -> mem k d = true.
Proof. unfold mem. now intros ->. Qed.

Lemma in_keys_set x k v d : In x (keys (set k v d)) <-> x = k \/ In x (keys d).
Proof.
  rewrite <- !mem_keys, mem_set, orb_true_iff, String.eqb_eq. tauto.
Qed.

Lemma keys_set_mem k v d : mem k d = true -> keys (set k v d) = keys d.
Proof.
  unfold mem, keys. induction d as [|[k0 v0] r IH]; simpl; [discriminate|].
  destruct (String.eqb k k0) eqn:H0; simpl; [reflexivity|].
  intros H. now rewrite IH.
Qed.

Lemma get_in k v d : get k d = Some v -> In (k, v) d.
Proof.
  induction d as [|[k0 v0] r IH]; simpl; [discriminate|].
  destruct (String.eqb k k0) eqn:H0.
  - apply String.eqb_eq in H0. intros [= ->]. left. now subst.
  - intros H. right. auto.
Qed.


End Facts.

End DictFacts.

(** ** The step relation and its invariants *)

Lemma evolves_refl s : evolves s s.
Proof. apply rt_refl. Qed.

Lemma evolves_trans s1 s2 s3 : evolves s1 s2 -> evolves s2 s3 -> evolves s1 s3.
Proof. apply rt_trans. Qed.

Lemma evolves_step s s' : state_step s s' -> evolves s s'.
Proof. apply rt_step. Qed.

Create HintDb pipeline.
#[local] Hint Resolve evolves_refl evolves_step : pipeline.

Lemma state_step_guarded s s' : state_step s s' -> guarded_keys s -> guarded_keys s'.
Proof.
  intros Hs [Hr Hf]. destruct Hs as [s t df _|s t m Hm|s t f Hm|s t x];
    split; simpl; intros k Hk.
  - apply DictFacts.in_keys_set. right. now apply Hr.
  - apply DictFacts.in_keys_set. right. now apply Hf.
  - apply DictFacts.in_keys_set in Hk as [->|Hk].
    + now apply DictFacts.mem_keys.
    + now apply Hr.
  - now apply Hf.
  - now apply Hr.
  - apply DictFacts.in_keys_set in Hk as [->|Hk].
    + now apply DictFacts.mem_keys.
    + now apply Hf.
  - now apply Hr.
  - now apply Hf.
Qed.

Lemma state_step_upper s s' : state_step s s' -> upper_keys s -> upper_keys s'.
Proof.
  unfold upper_keys. intros Hs Hu.
  destruct Hs as [s t df Ht|s t m Hm|s t f Hm|s t x]; simpl; try assumption.
  apply Forall_forall. intros k Hk.
  apply DictFacts.in_keys_set in Hk as [->|Hk]; [assumption|].
  now apply (proj1 (Forall_forall _ _) Hu).
Qed.

Lemma evolves_guarded s s' : evolves s s' -> guarded_keys s -> guarded_keys s'.
Proof.
  induction 1; eauto using state_step_guarded.
Qed.

Lemma evolves_upper s s' : evolves s s' -> upper_keys s -> upper_keys s'.
Proof.
  induction 1; eauto using state_step_upper.
Qed.

Lemma guarded_empty : guarded_keys empty_state.
Proof. split; intros k []. Qed.

Lemma upper_empty : upper_keys empty_state.
Proof. constructor. Qed.

Lemma count_llm_app l1 l2 : count_llm (l1 ++ l2) = count_llm l1 + count_llm l2.
Proof.
  induction l1 as [|ev l1 IH]; simpl; [reflexivity|].
  destruct ev; simpl; now rewrite IH.
Qed.

Lemma extends_refl w : extends w w.
Proof.
  split; [apply evolves_refl|]. exists []. now rewrite app_nil_r.
Qed.

Lemma extends_trans w1 w2 w3 : extends w1 w2 -> extends w2 w3 -> extends w1 w3.
Proof.
  intros [H1 (l1 & E1 & C1)] [H2 (l2 & E2 & C2)]. split.
  - eapply evolves_trans; eassumption.
  - exists (l1 ++ l2)%list. rewrite E2, E1, app_assoc, count_llm_app, C1, C2. auto.
Qed.

(** ** Computations *)

Lemma sound_ret {A} (a : A) : sound (ret a).
Proof. intros w. apply extends_refl. Qed.

Lemma sound_raise {A} (e : exn) : sound (@raise A e).
Proof. intros w. apply extends_refl. Qed.

Lemma sound_bind {A B} (m : M A) (k : A -> M B) :
  sound m -> (forall a, sound (k a)) -> sound (bind m k).
Proof.
  intros Hm Hk w. unfold bind. specialize (Hm w).
  destruct (m w) as [[e|a] w1]; simpl in *; [assumption|].
  eapply extends_trans; [eassumption | apply Hk].
Qed.

Lemma sound_try {A} (m : M A) (h : exn -> M A) :
  sound m -> (forall e, sound (h e)) -> sound (try_except m h).
Proof.
  intros Hm Hh w. unfold try_except. specialize (Hm w).
  destruct (m w) as [[e|a] w1]; simpl in *; [|assumption].
  eapply extends_trans; [eassumption | apply Hh].
Qed.

Lemma sound_external {A} (ev : event) (oracle : nat -> exn + A) :
  count_llm [ev] = 0 -> sound (external ev oracle).
Proof.
  intros Hc w. split; simpl; [apply evolves_refl|]. now exists [ev].
Qed.

(** A computation that reads the state first. *)
Lemma sound_get_state {A} (k : DataState -> M A) :
  (forall w, extends w (snd (k (DATA_STATE w) w))) -> sound (bind get_state k).
Proof. intros H w. apply H. Qed.

Lemma extends_update f w :
  evolves (DATA_STATE w) (f (DATA_STATE w)) -> extends w (snd (update_state f w)).
Proof.
  intros H. split; simpl; [assumption|]. exists []. now rewrite app_nil_r.
Qed.

Lemma meq_refl {A} (m : M A) : meq m m.
Proof. intros w. reflexivity. Qed.

Lemma meq_trans {A} (m1 m2 m3 : M A) : meq m1 m2 -> meq m2 m3 -> meq m1 m3.
Proof. intros H1 H2 w. now rewrite H1. Qed.

Lemma meq_bind {A B} (m m' : M A) (k k' : A -> M B) :
  meq m m' -> (forall a, meq (k a) (k' a)) -> meq (bind m k) (bind m' k').
Proof.
  intros Hm Hk w. unfold bind. rewrite Hm.
  destruct (m' w) as [[e|a] w1]; [reflexivity | apply Hk].
Qed.

Lemma bind_assoc {A B C} (m : M A) (k : A -> M B) (h : B -> M C) :
  meq (bind (bind m k) h) (bind m (fun a => bind (k a) h)).
Proof.
  intros w. unfold bind. destruct (m w) as [[e|a] w1]; reflexivity.
Qed.

Lemma bind_ret_l {A B} (a : A) (k : A -> M B) : meq (bind (ret a) k) (k a).
Proof. intros w. reflexivity. Qed.

Lemma bind_get_state {A} (k : DataState -> M A) w :
  bind get_state k w = k (DATA_STATE w) w.
Proof. reflexivity. Qed.

Lemma external_eq {A} (ev : event) (oracle : nat -> exn + A) w :
  external ev oracle w = (oracle (List.length (log w)), log_event ev w).
Proof. reflexivity. Qed.


Lemma bind_eq {A B} (m : M A) (k : A -> M B) w :
  bind m k w = match m w with
               | (inl e, w') => (inl e, w')
               | (inr a, w') => k a w'
               end.
Proof. reflexivity. Qed.

(** ** The Fetch step *)

Section FetchFacts.

Variable E : Env.

(** One iteration in closed form. *)
Lemma fetch_ticker_eq period t w :
  fetch_ticker E period t w =
    let w1 := log_event (ev_download t period) w in
    match yf_download E (List.length (log w)) t period with
    | inr (b :: df) =>
        (inr ("✅ " ++ t ++ ": " ++ of_nat (List.length (b :: df)) ++ " data points")%string,
         snd (update_state (set_portfolio t (b :: df)) w1))
    | inr [] => (inr ("❌ " ++ t ++ ": No data available")%string, w1)
    | inl e => (inr ("❌ " ++ t ++ ": " ++ take 50 (exn_msg e))%string, w1)
    end.
Proof.
  unfold fetch_ticker, try_except, bind, download, external.
  destruct (yf_download E (List.length (log w)) t period) as [e|[|b df]]; reflexivity.
Qed.

Lemma fetch_ticker_line period t w :
  exists line w',
    fetch_ticker E period t w = (inr line, w')
    /\ log w' = (log w ++ [ev_download t period])%list
    /\ ((success_line t line
         /\ exists df, DATA_STATE w' = set_portfolio t df (DATA_STATE w))
        \/ (failure_line t line /\ DATA_STATE w' = DATA_STATE w)).
Proof.
  rewrite fetch_ticker_eq. cbv zeta.
  destruct (yf_download E (List.length (log w)) t period) as [e|[|b df]];
    eexists; eexists; (split; [reflexivity|]); (split; [reflexivity|]).
  - right. split; [|reflexivity]. now eexists.
  - right. split; [|reflexivity]. now eexists.
  - left. split; [now eexists|]. now eexists.
Qed.

Lemma fetch_ticker_sound period t : has_lower t = false -> sound (fetch_ticker E period t).
Proof.
  intros Ht w. destruct (fetch_ticker_line period t w) as (line & w' & -> & Hl & H).
  split; simpl.
  - destruct H as [[_ [df ->]]|[_ ->]]; auto with pipeline.
    apply evolves_step. now constructor.
  - exists [ev_download t period]. auto.
Qed.

Lemma fetch_loop_sound period l acc :
  Forall (fun t => has_lower t = false) l -> sound (fetch_loop E period l acc).
Proof.
  intros Hl. revert acc. induction Hl as [|t l Ht Hl IH]; intros acc; simpl.
  - apply sound_ret.
  - apply sound_bind; [now apply fetch_ticker_sound | intros a; apply IH].
Qed.

Lemma fetch_sound tickers period : sound (fetch_portfolio_data E tickers period).
Proof.
  unfold fetch_portfolio_data. apply sound_bind.
  - apply fetch_loop_sound. apply Forall_forall. intros t Ht.
    apply in_map_iff in Ht as (x & <- & _). apply PyStrFacts.has_lower_upper.
  - intros a. apply sound_ret.
Qed.

(** The loop: one line per ticker, one download per ticker, and the
    portfolio gains exactly the tickers of the success lines. *)
Lemma fetch_loop_spec period l : forall acc w,
  exists lines w',
    fetch_loop E period l acc w = (inr (acc ++ lines)%list, w')
    /\ Forall2 (fun t line => success_line t line \/ failure_line t line) l lines
    /\ (forall t, Dict.mem t (portfolio (DATA_STATE w')) = true <->
                  Dict.mem t (portfolio (DATA_STATE w)) = true
                  \/ exists line, In (t, line) (combine l lines) /\ success_line t line)
    /\ log w' = (log w ++ map (fun t => ev_download t period) l)%list.
Proof.
  induction l as [|t l IH]; intros acc w; simpl.
  - exists [], w. rewrite !app_nil_r. repeat split; auto.
    + intros [H|(line & [] & _)]. exact H.
  - unfold bind at 1.
    destruct (fetch_ticker_line period t w) as (line & w1 & -> & Hlog & H).
    destruct (IH (acc ++ [line])%list w1) as (lines & w' & -> & HF & Hmem & Hlog').
    exists (line :: lines), w'. rewrite <- app_assoc. simpl.
    split; [reflexivity|]. split; [|split].
    + constructor; [|assumption]. destruct H as [[H _]|[H _]]; auto.
    + intros k. rewrite Hmem. destruct H as [[Hs [df ->]]|[Hf ->]]; simpl.
      * rewrite DictFacts.mem_set, orb_true_iff, String.eqb_eq. split.
        -- intros [[->|H]|(ln & Hin & Hln)]; eauto.
        -- intros [H|(ln & [Heq|Hin] & Hln)]; eauto.
           injection Heq as -> ->. auto.
      * split.
        -- intros [H|(ln & Hin & Hln)]; eauto.
        -- intros [H|(ln & [Heq|Hin] & Hln)]; eauto.
           injection Heq as -> ->.
           destruct Hf as [reason Hr], Hln as [n Hn]. rewrite Hr in Hn.
           discriminate Hn.
    + rewrite Hlog', Hlog, <- app_assoc. reflexivity.
Qed.

End FetchFacts.

(** ** The Risk Metrics step *)

Section RiskFacts.

Variable E : Env.

Lemma np_cov_eq x y w :
  np_cov x y w =
    if (List.length x =? List.length y)%nat then (inr (Np.cov x y), w)
    else (inl (Raise "ValueError"
      "all the input array dimensions except for the concatenation axis must match exactly"), w).
Proof. unfold np_cov. now destruct (List.length x =? List.length y)%nat. Qed.

(** [beta_of] never touches the world. *)
Lemma beta_of_world returns spy_returns w :
  snd (beta_of returns spy_returns w) = w.
Proof.
  unfold beta_of. cbv zeta.
  destruct (0 <? _)%nat; [|reflexivity].
  unfold bind. rewrite np_cov_eq.
  destruct (_ =? _)%nat; reflexivity.
Qed.

(** One iteration: the ticker is skipped, reported as insufficient,
    aborts the step, or gets its metrics stored and summarised. *)
Lemma risk_ticker_cases spy_returns t rep w :
  let r := risk_ticker E spy_returns t rep w in
  (Dict.get t (portfolio (DATA_STATE w)) = None /\ r = (inr rep, w))
  \/ (exists df, Dict.get t (portfolio (DATA_STATE w)) = Some df
        /\ (List.length (Np.pct_change (map Close df)) < 30)%nat
        /\ r = (inr (rep ++ [("⚠️  " ++ t ++ ": Insufficient data")%string])%list, w))
  \/ (exists df e, Dict.get t (portfolio (DATA_STATE w)) = Some df
        /\ (30 <= List.length (Np.pct_change (map Close df)))%nat
        /\ beta_of (Np.pct_change (map Close df)) spy_returns w = (inl e, w)
        /\ r = (inl e, w))
  \/ (exists df b, Dict.get t (portfolio (DATA_STATE w)) = Some df
        /\ (30 <= List.length (Np.pct_change (map Close df)))%nat
        /\ beta_of (Np.pct_change (map Close df)) spy_returns w = (inr b, w)
        /\ let returns := Np.pct_change (map Close df) in
           let m := {| sharpe := sharpe_of E returns; beta := b;
                       var_95 := Np.percentile returns 5;
                       volatility := (std E returns * np_sqrt E 252)%Q |} in
           r = (inr (rep ++ [risk_summary t m])%list,
                snd (update_state (set_risk_metrics t m) w))).
Proof.
  cbv zeta. unfold risk_ticker. rewrite bind_get_state.
  destruct (Dict.get t (portfolio (DATA_STATE w))) as [df|] eqn:Hg; [|now left].
  right. destruct (Nat.ltb_spec (List.length (Np.pct_change (map Close df))) 30) as [Hlt|Hge].
  - left. exists df. auto.
  - right. unfold bind.
    pose proof (beta_of_world (Np.pct_change (map Close df)) spy_returns w) as Hw.
    destruct (beta_of (Np.pct_change (map Close df)) spy_returns w) as [[e|b] w1] eqn:Hb;
      simpl in Hw; subst w1.
    + left. exists df, e. repeat split; auto.
    + right. exists df, b. repeat split; auto.
Qed.

Lemma risk_ticker_sound spy_returns t rep : sound (risk_ticker E spy_returns t rep).
Proof.
  intros w.
  destruct (risk_ticker_cases spy_returns t rep w)
    as [[_ ->]|[(df & _ & _ & ->)|[(df & e & _ & _ & _ & ->)|(df & b & Hg & _ & _ & ->)]]];
    try apply extends_refl.
  apply extends_update, evolves_step. constructor.
  eapply DictFacts.get_some_mem; eassumption.
Qed.

Lemma risk_loop_sound spy_returns l : forall rep, sound (risk_loop E spy_returns l rep).
Proof.
  induction l as [|t l IH]; intros rep; simpl.
  - apply sound_ret.
  - apply sound_bind; [apply risk_ticker_sound | intros a; apply IH].
Qed.

Lemma download_sound t p : sound (download E t p).
Proof. apply sound_external. reflexivity. Qed.

Lemma fetch_benchmark_eq w :
  fetch_benchmark E w =
    (match yf_download E (List.length (log w)) "SPY" "2y" with
     | inl _ => inr None
     | inr spy => inr (Some (Np.pct_change (map Close spy)))
     end, log_event (ev_download "SPY" "2y") w).
Proof.
  unfold fetch_benchmark, try_except, bind, download. rewrite external_eq.
  now destruct (yf_download E (List.length (log w)) "SPY" "2y").
Qed.

Lemma fetch_benchmark_sound : sound (fetch_benchmark E).
Proof.
  apply sound_try; [|intros; apply sound_ret].
  apply sound_bind; [apply download_sound | intros; apply sound_ret].
Qed.

Lemma risk_sound tickers : sound (calculate_risk_metrics E tickers).
Proof.
  unfold calculate_risk_metrics. apply sound_get_state. intros w.
  destruct (Dict.is_empty (portfolio (DATA_STATE w))); [apply extends_refl|].
  apply sound_bind.
  - apply fetch_benchmark_sound.
  - intros [spy_returns|]; [|apply sound_ret].
    apply sound_bind; [apply risk_loop_sound | intros; apply sound_ret].
Qed.

Lemma risk_ticker_lines spy_returns t rep w rep' w' :
  risk_ticker E spy_returns t rep w = (inr rep', w') ->
  Forall risk_line rep -> Forall risk_line rep'.
Proof.
  intros Hr Hrep.
  destruct (risk_ticker_cases spy_returns t rep w)
    as [[_ H]|[(df & _ & _ & H)|[(df & e & _ & _ & _ & H)|(df & b & _ & _ & _ & H)]]];
    cbv zeta in H; rewrite H in Hr; try discriminate Hr; injection Hr as <- <-;
    try assumption; apply Forall_app; (split; [assumption|]); (constructor; [|constructor]).
  - left. reflexivity.
  - right. reflexivity.
Qed.

Lemma risk_loop_lines spy_returns l : forall rep w rep' w',
  risk_loop E spy_returns l rep w = (inr rep', w') ->
  Forall risk_line rep -> Forall risk_line rep'.
Proof.
  induction l as [|t l IH]; simpl; intros rep w rep' w' Hr Hrep.
  - now injection Hr as <- <-.
  - unfold bind in Hr.
    destruct (risk_ticker E spy_returns t rep w) as [[e|rep1] w1] eqn:H1;
      [discriminate Hr|].
    eapply IH; [eassumption|]. eapply risk_ticker_lines; eassumption.
Qed.

Lemma risk_line_not_no_portfolio sep x l :
  risk_line x -> join sep (x :: l) <> NO_PORTFOLIO.
Proof.
  intros [H|H] Heq;
    apply (PyStrFacts.startswith_join _ sep _ l) in H; rewrite Heq in H;
    discriminate H.
Qed.

(** With every benchmark return missing, the beta of a non-empty return
    series is not 1.0: the covariance call fails. *)
Lemma beta_of_no_overlap r returns w :
  beta_of (r :: returns) [] w =
    (inl (Raise "ValueError"
       "all the input array dimensions except for the concatenation axis must match exactly"), w).
Proof.
  unfold beta_of. cbv zeta.
  replace (Nat.min (List.length (r :: returns)) (@List.length Q [])) with 0%nat
    by reflexivity.
  reflexivity.
Qed.

(** Beta as lines 126-137 compute it on a common window of [n >= 1] days. *)
Lemma beta_of_overlap returns spy_returns w :
  let n := Nat.min (List.length returns) (List.length spy_returns) in
  let aligned_returns := skipn (List.length returns - n) returns in
  let aligned_spy := skipn (List.length spy_returns - n) spy_returns in
  (0 < n)%nat ->
  beta_of returns spy_returns w =
    (inr (if Np.Qltb 0 (Np.var aligned_spy)
          then (Np.cov aligned_returns aligned_spy / Np.var aligned_spy)%Q
          else 1%Q), w).
Proof.
  cbv zeta. intros Hn. unfold beta_of. cbv zeta.
  set (n := Nat.min (List.length returns) (List.length spy_returns)) in *.
  assert (Hs : forall A (l : list A),
             Np.slice_from (- Z.of_nat n) l = skipn (List.length l - n) l).
  { intros A l. unfold Np.slice_from.
    destruct (Z.ltb_spec (- Z.of_nat n) 0); [|lia].
    now rewrite Z.opp_involutive, Nat2Z.id. }
  rewrite !Hs.
  assert (Hl1 : List.length (skipn (List.length returns - n) returns) = n)
    by (rewrite length_skipn; lia).
  assert (Hl2 : List.length (skipn (List.length spy_returns - n) spy_returns) = n)
    by (rewrite length_skipn; lia).
  rewrite Hl1. destruct (Nat.ltb_spec 0 n); [|lia].
  unfold bind. rewrite np_cov_eq, Hl1, Hl2, Nat.eqb_refl. reflexivity.
Qed.

Lemma sharpe_of_zero_std returns :
  (std E returns == 0)%Q -> sharpe_of E returns = 0%Q.
Proof.
  intros H. unfold sharpe_of. cbv zeta. unfold Np.Qltb.
  replace (Qle_bool (std E returns) 0) with true; [reflexivity|].
  symmetry. apply Qle_bool_iff. rewrite H. apply Qle_refl.
Qed.

Lemma sharpe_of_positive_std returns :
  (0 < std E returns)%Q ->
  sharpe_of E returns =
    (np_sqrt E 252 * Np.mean (map (fun r => r - (2 # 100) / 252) returns)
     / std E returns)%Q.
Proof.
  intros H. unfold sharpe_of. cbv zeta. unfold Np.Qltb.
  replace (Qle_bool (std E returns) 0) with false; [reflexivity|].
  symmetry. apply not_true_iff_false. rewrite Qle_bool_iff.
  now apply Qlt_not_le.
Qed.

End RiskFacts.

(** ** The Forecast, Sentiment and Ranking steps *)

Lemma evolves_loaded t s s' :
  evolves s s' -> Dict.mem t (portfolio s) = true -> Dict.mem t (portfolio s') = true.
Proof.
  induction 1 as [s s' Hs| |]; auto.
  destruct Hs; simpl; auto.
  intros Hm. rewrite DictFacts.mem_set, Hm. apply orb_true_r.
Qed.

Lemma sound_from_sound {A} P (m : M A) : sound m -> sound_from P m.
Proof. intros H w _. apply H. Qed.

Lemma sound_from_bind {A B} t (m : M A) (k : A -> M B) :
  let P := fun s => Dict.mem t (portfolio s) = true in
  sound_from P m -> (forall a, sound_from P (k a)) -> sound_from P (bind m k).
Proof.
  intros P Hm Hk w Hw. unfold bind. specialize (Hm w Hw).
  destruct (m w) as [[e|a] w1]; simpl in *; [assumption|].
  eapply extends_trans; [eassumption|]. apply Hk.
  destruct Hm as [Hm _]. now apply (evolves_loaded t _ _ Hm).
Qed.

Section ForecastFacts.

Variable E : Env.

Lemma require_samples_sound {A} (X : list A) : sound (require_samples X).
Proof. destruct X; [apply sound_raise | apply sound_ret]. Qed.

Lemma blend_sound p l : sound (blend p l).
Proof. unfold blend. destruct (Np.broadcast _ _ _); [apply sound_ret | apply sound_raise]. Qed.

Lemma forecast_not_loaded t days w :
  Dict.get t (portfolio (DATA_STATE w)) = None ->
  ensemble_forecast E t days w = (inr (NOT_LOADED t), w).
Proof.
  intros H. unfold ensemble_forecast. cbv zeta. rewrite bind_get_state. now rewrite H.
Qed.

Lemma forecast_sound t days : sound (ensemble_forecast E t days).
Proof.
  unfold ensemble_forecast. cbv zeta. apply sound_get_state. intros w.
  destruct (Dict.get t (portfolio (DATA_STATE w))) as [df|] eqn:Hg;
    [|apply extends_refl].
  apply DictFacts.get_some_mem in Hg. revert w Hg.
  match goal with
  | |- forall w, _ -> extends w (snd (?m w)) =>
      change (sound_from (fun s => Dict.mem t (portfolio s) = true) m)
  end.
  apply sound_from_bind; [apply sound_from_sound, sound_external; reflexivity|].
  intros yhat.
  apply sound_from_bind; [apply sound_from_sound, require_samples_sound|]. intros _.
  apply sound_from_bind; [apply sound_from_sound, require_samples_sound|]. intros _.
  apply sound_from_bind; [apply sound_from_sound, blend_sound|]. intros pred.
  apply sound_from_bind.
  { apply sound_from_sound. destruct (_ =? _)%nat; [apply sound_ret | apply sound_raise]. }
  intros _.
  apply sound_from_bind; [apply sound_from_sound, sound_external; reflexivity|].
  intros _.
  apply sound_from_bind; [|intros; apply sound_from_sound, sound_ret].
  intros w Hw. apply extends_update, evolves_step. now constructor.
Qed.

Lemma sentiment_sound t : sound (analyze_sentiment E t).
Proof.
  unfold analyze_sentiment.
  destruct (negb (ENABLE_SENTIMENT (config E))); [apply sound_ret|].
  apply sound_bind; [apply sound_external; reflexivity|]. intros s.
  apply sound_bind; [|intros; apply sound_ret].
  intros w. apply extends_update, evolves_step. constructor.
Qed.

Lemma compare_eq w :
  compare_portfolio w =
    (inr (if Dict.is_empty (risk_metrics (DATA_STATE w)) then NO_RISK
          else ("🏆 PORTFOLIO RANKING:" ++ nl
                ++ report_lines 1 (ranking_of (DATA_STATE w)))%string), w).
Proof.
  unfold compare_portfolio. rewrite bind_get_state.
  now destruct (Dict.is_empty (risk_metrics (DATA_STATE w))).
Qed.

Lemma compare_sound : sound compare_portfolio.
Proof. intros w. rewrite compare_eq. apply extends_refl. Qed.

Lemma invoke_tool_sound c : sound (invoke_tool E c).
Proof.
  destruct c; simpl.
  - apply fetch_sound.
  - apply risk_sound.
  - apply forecast_sound.
  - apply sentiment_sound.
  - apply compare_sound.
Qed.

Lemma run_calls_extends calls : forall w, extends w (run_calls E calls w).
Proof.
  induction calls as [|c calls IH]; intros w; simpl.
  - apply extends_refl.
  - eapply extends_trans; [apply invoke_tool_sound | apply IH].
Qed.

End ForecastFacts.

(** ** Claims on the steps *)

Section StepClaims.

Variable E : Env.

(** C4, as amended. The Fetch step never raises and never stops at a bad ticker: it
    returns one status line per comma-separated input ticker, in input
    order, each a success line (the ticker is then stored in [portfolio])
    or a failure line; one download is attempted per ticker whatever the
    outcome of the others; [portfolio] gains exactly the tickers of the
    success lines, and a ticker that was absent and has failure lines only
    is left absent. *)
Theorem fetch_one_line_per_ticker (tickers : string) (period : option string) (w : World) :
  let ticker_list := map (fun t => upper (strip t)) (split "," tickers) in
  let period' := match period with None => DEFAULT_PERIOD (config E) | Some p => p end in
  exists lines w',
    fetch_portfolio_data E tickers period w = (inr (join nl lines), w')
    /\ List.length lines = List.length (split "," tickers)
    /\ Forall2 (fun t line =>
                  (success_line t line
                   /\ Dict.mem t (portfolio (DATA_STATE w')) = true)
                  \/ failure_line t line) ticker_list lines
    /\ (forall t, Dict.mem t (portfolio (DATA_STATE w')) = true <->
                  Dict.mem t (portfolio (DATA_STATE w)) = true
                  \/ exists line, In (t, line) (combine ticker_list lines)
                                  /\ success_line t line)
    /\ (forall t, Dict.mem t (portfolio (DATA_STATE w)) = false ->
                  (forall line, In (t, line) (combine ticker_list lines) ->
                                failure_line t line) ->
                  Dict.mem t (portfolio (DATA_STATE w')) = false)
    /\ log w' = (log w ++ map (fun t => ev_download t period') ticker_list)%list.
Proof.
  cbv zeta. unfold fetch_portfolio_data.
  set (p := match period with None => DEFAULT_PERIOD (config E) | Some p => p end).
  set (l := map (fun t => upper (strip t)) (split "," tickers)).
  destruct (fetch_loop_spec E p l [] w) as (lines & w' & Hrun & HF & Hmem & Hlog).
  exists lines, w'. unfold bind. rewrite Hrun. simpl.
  split; [reflexivity|].
  split; [apply Forall2_length in HF; rewrite <- HF; unfold l; apply length_map|].
  split.
  { assert (Hin : forall t line, In (t, line) (combine l lines) -> success_line t line ->
                                 Dict.mem t (portfolio (DATA_STATE w')) = true)
      by (intros t line Hi Hs; apply Hmem; eauto).
    clear Hmem Hrun Hlog. induction HF as [|t line l' lines' H HF IH]; constructor.
    - destruct H as [H|H]; [left|now right]. split; [assumption|].
      apply (Hin t line); [now left | assumption].
    - apply IH. intros t' line' Hi. apply Hin. now right. }
  split; [exact Hmem|]. split; [|exact Hlog].
  intros t Habsent Hall.
  destruct (Dict.mem t (portfolio (DATA_STATE w'))) eqn:Hm; [|reflexivity].
  apply Hmem in Hm as [Hm|(line & Hin & [n Hn])]; [congruence|].
  destruct (Hall line Hin) as [reason Hr]. rewrite Hr in Hn. discriminate Hn.
Qed.

(** C3. The Risk Metrics step returns its fixed "no portfolio data loaded"
    string if and only if [portfolio] is empty at the call, and whenever it
    returns that string the world is untouched: no state is mutated and no
    external call is made. *)
Theorem risk_error_iff_portfolio_empty (tickers : option string) (w : World) :
  (fst (calculate_risk_metrics E tickers w) = inr NO_PORTFOLIO
   <-> portfolio (DATA_STATE w) = [])
  /\ (fst (calculate_risk_metrics E tickers w) = inr NO_PORTFOLIO
      <-> calculate_risk_metrics E tickers w = (inr NO_PORTFOLIO, w)).
Proof.
  assert (Hempty : portfolio (DATA_STATE w) = [] ->
                   calculate_risk_metrics E tickers w = (inr NO_PORTFOLIO, w)).
  { intros H. unfold calculate_risk_metrics. rewrite bind_get_state. now rewrite H. }
  assert (Hfull : portfolio (DATA_STATE w) <> [] ->
                  fst (calculate_risk_metrics E tickers w) <> inr NO_PORTFOLIO).
  { intros H. unfold calculate_risk_metrics. rewrite bind_get_state.
    destruct (portfolio (DATA_STATE w)) as [|kv d] eqn:Hp; [contradiction|].
    cbv zeta. change (Dict.is_empty (kv :: d)) with false. cbv iota.
    unfold bind at 1. cbv beta. rewrite fetch_benchmark_eq.
    destruct (yf_download E (List.length (log w)) "SPY" "2y") as [e|spy];
      [simpl; discriminate|].
    unfold bind.
    destruct (risk_loop E _ _ [] _) as [[e|rep] w1] eqn:Hloop; [simpl; discriminate|].
    apply risk_loop_lines in Hloop; [|constructor].
    destruct rep as [|x rep]; cbn [fst]; [discriminate|].
    intros Heq. injection Heq as Heq.
    apply (risk_line_not_no_portfolio (nl ++ nl) x rep); [now inversion Hloop | exact Heq]. }
  destruct (portfolio (DATA_STATE w)) as [|kv d].
  - rewrite (Hempty eq_refl). simpl. tauto.
  - assert (Hne := Hfull ltac:(discriminate)).
    split; split; intros H; try contradiction; try discriminate H.
    rewrite H in Hne. now elim Hne.
Qed.

(** C2, as amended. After any sequence of tool invocations from the reset
    state, every key of [risk_metrics] and every key of [forecasts] is a
    key of [portfolio]. *)
Theorem derived_keys_in_portfolio (calls : list tool_call) (w : World) :
  let w' := run_calls E calls (snd (reset_state w)) in
  incl (Dict.keys (risk_metrics (DATA_STATE w'))) (Dict.keys (portfolio (DATA_STATE w')))
  /\ incl (Dict.keys (forecasts (DATA_STATE w'))) (Dict.keys (portfolio (DATA_STATE w'))).
Proof.
  cbv zeta.
  destruct (run_calls_extends E calls (snd (reset_state w))) as [Hev _].
  exact (evolves_guarded _ _ Hev guarded_empty).
Qed.

(** Without a single benchmark return the step stops at the first ticker
    that has enough data: the right-aligned slice [iloc[-0:]] is the whole
    series, and the covariance of series of different lengths raises. *)
Lemma risk_aborts_without_overlap tickers w t rest df spy :
  risk_ticker_list tickers (DATA_STATE w) = t :: rest ->
  Dict.get t (portfolio (DATA_STATE w)) = Some df ->
  (30 <= List.length (Np.pct_change (map Close df)))%nat ->
  yf_download E (List.length (log w)) "SPY" "2y" = inr spy ->
  Np.pct_change (map Close spy) = [] ->
  calculate_risk_metrics E tickers w =
    (inl (Raise "ValueError"
       "all the input array dimensions except for the concatenation axis must match exactly"),
     log_event (ev_download "SPY" "2y") w).
Proof.
  intros Hl Hg Hn Hspy Hempty.
  unfold calculate_risk_metrics. rewrite bind_get_state.
  assert (Hne : Dict.is_empty (portfolio (DATA_STATE w)) = false)
    by (destruct (portfolio (DATA_STATE w)); [discriminate Hg | reflexivity]).
  rewrite Hne. cbv zeta. unfold bind at 1. rewrite fetch_benchmark_eq, Hspy.
  rewrite Hempty, Hl. simpl risk_loop. unfold bind.
  set (w1 := log_event (ev_download "SPY" "2y") w).
  destruct (risk_ticker_cases E [] t [] w1)
    as [[H _]|[(df' & H & Hlt & _)|[(df' & e & H & _ & Hb & ->)|(df' & b & H & _ & Hb & _)]]];
    simpl in H; rewrite Hg in H; try discriminate H; injection H as <-.
  - lia.
  - destruct (Np.pct_change (map Close df)) as [|r returns]; [simpl in Hn; lia|].
    rewrite beta_of_no_overlap in Hb. now injection Hb as <-.
  - destruct (Np.pct_change (map Close df)) as [|r returns]; [simpl in Hn; lia|].
    rewrite beta_of_no_overlap in Hb. discriminate Hb.
Qed.

End StepClaims.

(** C4, the claim as stated fails for a ticker that is named twice (or was
    loaded before the call): the second download of AAA fails and yields a
    failure line, while AAA, stored by the first, stays in [portfolio]. *)
Lemma fetch_failure_line_for_stored_ticker :
  let E := Demo.env (Demo.market_once 3) Demo.llm_direct 25 in
  let r := fetch_portfolio_data E "AAA,AAA" None (snd (reset_state initial_world)) in
  let lines := ["✅ AAA: 3 data points"; "❌ AAA: connection reset"] in
  fst r = inr (join nl lines)
  /\ failure_line "AAA" "❌ AAA: connection reset"
  /\ Dict.mem "AAA" (portfolio (DATA_STATE (snd r))) = true
  /\ ~ Forall2 (fun t line =>
                  (success_line t line
                   /\ Dict.mem t (portfolio (DATA_STATE (snd r))) = true)
                  \/ (failure_line t line
                      /\ Dict.mem t (portfolio (DATA_STATE (snd r))) = false))
               ["AAA"; "AAA"] lines.
Proof.
  cbv zeta. split; [vm_compute; reflexivity|].
  split; [exists "connection reset"; reflexivity|].
  split; [vm_compute; reflexivity|].
  intros H. inversion H as [|t1 l1 ts1 ls1 _ H2]; subst.
  inversion H2 as [|t2 l2 ts2 ls2 Hx _]; subst.
  destruct Hx as [[[n Hn] _]|[_ Hm]].
  - cbn in Hn. discriminate Hn.
  - vm_compute in Hm. discriminate Hm.
Qed.

(** C2, the claim as stated fails for [sentiment]: the Sentiment step stores
    under a ticker that was never fetched. *)
Lemma sentiment_key_outside_portfolio :
  let w' := run_calls Demo.quiet [call_analyze_sentiment "ZZZ"]
                      (snd (reset_state initial_world)) in
  ~ incl (Dict.keys (sentiment (DATA_STATE w'))) (Dict.keys (portfolio (DATA_STATE w'))).
Proof.
  cbv zeta. intros H. specialize (H "ZZZ"). vm_compute in H. apply H. now left.
Qed.

(** C5, at the failing input: AAA is loaded with 33 bars (32 returns) and the
    benchmark download comes back empty; the step raises from the covariance
    call instead of storing beta 1.0, and no metrics are stored. *)
Theorem risk_raises_without_benchmark_returns :
  let E := Demo.env (Demo.market_without_benchmark 33) Demo.llm_direct 25 in
  let w := snd (fetch_portfolio_data E "AAA" None (snd (reset_state initial_world))) in
  Dict.get "AAA" (portfolio (DATA_STATE w)) = Some (Demo.frame 33 100 1)
  /\ List.length (Np.pct_change (map Close (Demo.frame 33 100 1))) = 32%nat
  /\ fst (calculate_risk_metrics E (Some "AAA") w)
     = inl (Raise "ValueError"
         "all the input array dimensions except for the concatenation axis must match exactly")
  /\ risk_metrics (DATA_STATE (snd (calculate_risk_metrics E (Some "AAA") w))) = [].
Proof.
  cbv zeta.
  set (E := Demo.env (Demo.market_without_benchmark 33) Demo.llm_direct 25).
  set (w := snd (fetch_portfolio_data E "AAA" None (snd (reset_state initial_world)))).
  assert (Hg : Dict.get "AAA" (portfolio (DATA_STATE w)) = Some (Demo.frame 33 100 1))
    by (vm_compute; reflexivity).
  assert (Hn : List.length (Np.pct_change (map Close (Demo.frame 33 100 1))) = 32%nat)
    by (vm_compute; reflexivity).
  split; [exact Hg|]. split; [exact Hn|].
  rewrite (risk_aborts_without_overlap E (Some "AAA") w "AAA" [] (Demo.frame 33 100 1) []).
  - split; reflexivity.
  - reflexivity.
  - exact Hg.
  - rewrite Hn. lia.
  - reflexivity.
  - reflexivity.
Qed.

(** ** Arrays *)

Module NpFacts.

Import Np.

Lemma length_arange a b : List.length (arange a b) = Z.to_nat (b - a).
Proof. unfold arange. now rewrite length_map, length_seq. Qed.

Lemma length_map2 {A B C} (f : A -> B -> C) x y :
  List.length (map2 f x y) = Nat.min (List.length x) (List.length y).
Proof.
  revert y; induction x as [|a x IH]; intros [|b y]; simpl; auto.
Qed.

Lemma map2_map {A B A' B' C} (f : A' -> B' -> C) (g : A -> A') (h : B -> B') x y :
  map2 f (map g x) (map h y) = map2 (fun a b => f (g a) (h b)) x y.
Proof.
  revert y; induction x as [|a x IH]; intros [|b y]; simpl; auto.
  now rewrite IH.
Qed.

Lemma nth_map2 {A B C} (f : A -> B -> C) x y i da db dc :
  (i < List.length x)%nat -> (i < List.length y)%nat ->
  nth i (map2 f x y) dc = f (nth i x da) (nth i y db).
Proof.
  revert y i; induction x as [|a x IH]; intros [|b y] [|i]; simpl; intros; try lia; auto.
  apply IH; lia.
Qed.

Lemma length_slice_tail {A} (n : Z) (l : list A) :
  (0 < n)%Z -> (Z.to_nat n <= List.length l)%nat ->
  List.length (slice_from (- n) l) = Z.to_nat n.
Proof.
  intros Hn Hl. unfold slice_from.
  destruct (Z.ltb_spec (- n) 0); [|lia].
  rewrite length_skipn, Z.opp_involutive. lia.
Qed.

Lemma broadcast_same_length f x y :
  List.length x = List.length y -> broadcast f x y = Some (map2 f x y).
Proof. intros H. unfold broadcast. now rewrite H, Nat.eqb_refl. Qed.

End NpFacts.

(** ** Claim on the Forecast step *)

Section ForecastClaim.

Variable E : Env.

Local Open Scope Q_scope.

Lemma require_samples_ok {A} (X : list A) w :
  X <> [] -> require_samples X w = (inr tt, w).
Proof. destruct X; [contradiction | reflexivity]. Qed.

Lemma blend_eq p l w :
  List.length p = List.length l ->
  blend p l w = (inr (Np.map2 (fun a b => (7 # 10) * a + (3 # 10) * b) p l), w).
Proof.
  intros H. unfold blend.
  rewrite NpFacts.broadcast_same_length by now rewrite !length_map.
  now rewrite NpFacts.map2_map.
Qed.

(** C6. For a ticker present in [portfolio], whenever the seasonal model
    answers with at least [days] rows and the chart is written, the
    Forecast step blends elementwise over the horizon, 0.7 times the
    seasonal projection plus 0.3 times the linear-trend projection, plots
    that blend, and stores under the ticker the last close, the last
    blended value and the percentage change between them. *)
Theorem forecast_blend_and_change (ticker : string) (days : option Z) (w : World)
        (df : DataFrame) (yhat : list Q) :
  let horizon := match days with None => DEFAULT_FORECAST_DAYS (config E) | Some d => d end in
  let seasonal := seasonal_projection yhat horizon in
  let linear := linear_projection df horizon in
  let blended := Np.map2 (fun p l => (7 # 10) * p + (3 # 10) * l) seasonal linear in
  let f := {| current := List.last (map Close df) 0;
              predicted := List.last blended 0;
              change_pct := ((List.last blended 0 - List.last (map Close df) 0)
                             / List.last (map Close df) 0) * 100 |} in
  Dict.get ticker (portfolio (DATA_STATE w)) = Some df ->
  df <> [] ->
  (0 < horizon)%Z ->
  prophet_yhat E (List.length (log w)) (history_of df) horizon = inr yhat ->
  (Z.to_nat horizon <= List.length yhat)%nat ->
  plt_savefig E (S (List.length (log w))) (plot_path_of E ticker) = inr tt ->
  exists w',
    ensemble_forecast E ticker days w = (inr (forecast_summary ticker f), w')
    /\ Dict.get ticker (forecasts (DATA_STATE w')) = Some f
    /\ List.length blended = Z.to_nat horizon
    /\ (forall i, (i < Z.to_nat horizon)%nat ->
                  nth i blended 0 = (7 # 10) * nth i seasonal 0 + (3 # 10) * nth i linear 0)
    /\ change_pct f == 100 * (predicted f - current f) / current f
    /\ In (ev_savefig (plot_path_of E ticker) (history_of df)
                      (combine (forecast_dates_of df horizon) blended)) (log w').
Proof.
  cbv zeta. intros Hget Hdf Hpos Hprophet Hlen Hsave.
  set (horizon := match days with None => DEFAULT_FORECAST_DAYS (config E) | Some d => d end) in *.
  set (seasonal := seasonal_projection yhat horizon).
  set (linear := linear_projection df horizon).
  set (blended := Np.map2 (fun p l => (7 # 10) * p + (3 # 10) * l) seasonal linear).
  assert (Hls : List.length seasonal = Z.to_nat horizon)
    by (apply NpFacts.length_slice_tail; assumption).
  assert (Hll : List.length linear = Z.to_nat horizon).
  { unfold linear, linear_projection, Np.lr_predict. cbv zeta.
    rewrite !length_map, NpFacts.length_arange. f_equal. lia. }
  assert (Hlb : List.length blended = Z.to_nat horizon)
    by (unfold blended; rewrite NpFacts.length_map2, Hls, Hll; lia).
  eexists. split; [|split; [|split; [exact Hlb|split; [|split]]]].
  - unfold ensemble_forecast. cbv zeta. fold horizon.
    rewrite bind_get_state, Hget.
    unfold bind at 1. rewrite external_eq.
    fold (history_of df). rewrite Hprophet.
    unfold bind at 1. rewrite require_samples_ok
      by (destruct df; [contradiction | discriminate]).
    unfold bind at 1. rewrite require_samples_ok.
    2:{ intros Hnil. apply (f_equal (@List.length Z)) in Hnil.
        rewrite NpFacts.length_arange in Hnil. simpl in Hnil. lia. }
    fold (linear_projection df horizon). fold linear.
    fold (seasonal_projection yhat horizon). fold seasonal.
    unfold bind at 1. rewrite blend_eq by congruence. fold blended.
    fold (forecast_dates_of df horizon).
    unfold bind at 1.
    replace (List.length (forecast_dates_of df horizon) =? List.length blended)%nat
      with true.
    2:{ symmetry. apply Nat.eqb_eq. unfold forecast_dates_of. cbv zeta.
        rewrite NpFacts.length_arange, Hlb. f_equal. lia. }
    unfold ret at 1. unfold bind at 1. rewrite external_eq.
    fold (plot_path_of E ticker).
    replace (List.length (log (log_event (ev_prophet (history_of df) horizon) w)))
      with (S (List.length (log w)))
      by (simpl; rewrite length_app; simpl; lia).
    rewrite Hsave. unfold bind, update_state, ret. reflexivity.
  - simpl. apply DictFacts.get_set_same.
  - intros i Hi. unfold blended.
    rewrite (NpFacts.nth_map2 _ seasonal linear i 0 0 0) by lia. reflexivity.
  - simpl. unfold Qdiv. ring.
  - simpl. apply in_or_app. right. now left.
Qed.

End ForecastClaim.

(** C6 on a three-day history of AAA and a horizon of two days. *)
Lemma forecast_blend_witness :
  exists f,
    Dict.get "AAA"
      (forecasts (DATA_STATE (snd (ensemble_forecast Demo.quiet "AAA" (Some 2%Z)
                                     (Demo.world_of Demo.stored))))) = Some f
    /\ (change_pct f == 100 * (predicted f - current f) / current f)%Q
    /\ forecast_summary "AAA" f = "📈 AAA: $102.00 -> $102.60 (+0.59%)".
Proof.
  destruct (forecast_blend_and_change Demo.quiet "AAA" (Some 2%Z)
              (Demo.world_of Demo.stored) (Demo.frame 3 100 1)
              [100; 101; 102; 102; 102]%Q)
    as (w' & Hrun & Hstored & _ & _ & Hchange & _).
  - reflexivity.
  - discriminate.
  - reflexivity.
  - reflexivity.
  - simpl. lia.
  - reflexivity.
  - rewrite Hrun. simpl snd. eexists. split; [exact Hstored|]. split; [exact Hchange|].
    vm_compute. reflexivity.
Defined.

(** ** Claim on the Ranking step *)

Section RankingClaim.

Local Open Scope Q_scope.

Lemma Qltb_true x y : Np.Qltb x y = true -> x < y.
Proof.
  unfold Np.Qltb. intros H. apply negb_true_iff in H.
  apply Qnot_le_lt. intros Hle. apply Qle_bool_iff in Hle. congruence.
Qed.

Lemma Qltb_false x y : Np.Qltb x y = false -> y <= x.
Proof.
  unfold Np.Qltb. intros H. apply negb_false_iff in H. now apply Qle_bool_iff.
Qed.












End RankingClaim.


(** ** Manual mode *)

Section ManualFacts.

Variable E : Env.

Lemma run_steps_app a b : forall done,
  meq (run_steps E (a ++ b) done) (bind (run_steps E a done) (run_steps E b)).
Proof.
  induction a as [|[name call] a IH]; intros done w; simpl; [reflexivity|].
  rewrite !bind_eq.
  destruct (invoke_tool E call w) as [[e|res] w1]; [reflexivity|].
  rewrite IH. reflexivity.
Qed.

Lemma run_steps_for_each {A} (name : A -> string) (call : A -> tool_call) l : forall done,
  meq (run_steps E (map (fun t => (name t, call t)) l) done)
      (bind (for_each (fun t => invoke_tool E (call t)) l)
            (fun rs => ret (done ++ map (fun p => {| step := name (fst p); result := snd p |})
                                        (combine l rs))%list)).
Proof.
  induction l as [|t l IH]; intros done w; simpl.
  - unfold bind, ret. now rewrite app_nil_r.
  - rewrite !bind_eq.
    destruct (invoke_tool E (call t) w) as [[e|res] w1]; [reflexivity|].
    rewrite IH, !bind_eq.
    destruct (for_each _ l w1) as [[e|rs] w2]; [reflexivity|].
    unfold ret. simpl. now rewrite <- app_assoc.
Qed.

Lemma run_steps_single name call done :
  meq (run_steps E [(name, call)] done)
      (bind (invoke_tool E call)
            (fun res => ret (done ++ [{| step := name; result := res |}])%list)).
Proof. intros w. reflexivity. Qed.

Lemma last_result_snoc l s : last_result (l ++ [s]) = result s.
Proof. unfold last_result. now rewrite last_last. Qed.

Lemma last_result_manual a b X Y r :
  last_result (a :: b :: X ++ Y ++ [r])%list = result r.
Proof.
  rewrite (app_assoc X Y [r]).
  change (a :: b :: (X ++ Y) ++ [r])%list with ((a :: b :: X ++ Y) ++ [r])%list.
  apply last_result_snoc.
Qed.

Lemma for_each_sound {A B} (f : A -> M B) l : (forall x, sound (f x)) -> sound (for_each f l).
Proof.
  intros Hf. induction l as [|x l IH]; simpl; [apply sound_ret|].
  apply sound_bind; [apply Hf|]. intros y.
  apply sound_bind; [apply IH|]. intros ys. apply sound_ret.
Qed.

Lemma run_steps_sound todo : forall done, sound (run_steps E todo done).
Proof.
  induction todo as [|[name call] todo IH]; intros done; simpl; [apply sound_ret|].
  apply sound_bind; [apply invoke_tool_sound | intros; apply IH].
Qed.

(** The loop over the list built by [run_manual] is the fixed sequence. *)
Lemma run_manual_sequence tickers forecast_days include_sentiment :
  meq (run_manual E tickers forecast_days include_sentiment)
      (manual_sequence E tickers forecast_days include_sentiment).
Proof.
  intros w. unfold run_manual, manual_sequence, manual_steps. cbv zeta.
  rewrite !bind_eq. unfold reset_state at 1 2. cbv beta iota.
  set (w0 := {| DATA_STATE := empty_state; agents_DATA_STATE := agents_DATA_STATE w;
                rebound := true; log := log w |}).
  simpl run_steps. rewrite !bind_eq.
  destruct (fetch_portfolio_data E tickers None w0) as [[e|fetched] w1]; [reflexivity|].
  rewrite !bind_eq.
  destruct (calculate_risk_metrics E (Some tickers) w1) as [[e|risk] w2]; [reflexivity|].
  rewrite <- (map_map strip
    (fun n => (("Forecasting " ++ n)%string, call_ensemble_forecast n (Some forecast_days)))).
  rewrite run_steps_app, bind_eq, run_steps_for_each, !bind_eq. simpl invoke_tool.
  destruct (for_each (fun t => ensemble_forecast E t (Some forecast_days))
                     (map strip (split "," tickers)) w2) as [[e|projections] w3];
    [reflexivity|].
  unfold ret at 1. cbv beta iota.
  rewrite run_steps_app, !bind_eq.
  destruct (include_sentiment && ENABLE_SENTIMENT (config E)).
  - rewrite <- (map_map strip
      (fun n => (("Sentiment " ++ n)%string, call_analyze_sentiment n))).
    rewrite run_steps_for_each, !bind_eq. simpl invoke_tool.
    destruct (for_each _ (map strip (split "," tickers)) w3) as [[e|moods] w4];
      [reflexivity|].
    unfold ret at 1. cbv beta iota. rewrite run_steps_single, !bind_eq.
    simpl invoke_tool.
    destruct (compare_portfolio w4) as [[e|report] w5]; [reflexivity|].
    unfold ret. cbv beta iota. rewrite last_result_snoc.
    rewrite <- !app_assoc. reflexivity.
  - simpl run_steps at 1. unfold ret at 1 2. cbv beta iota.
    rewrite run_steps_single, !bind_eq. simpl invoke_tool.
    destruct (compare_portfolio w3) as [[e|report] w5]; [reflexivity|].
    unfold ret. cbv beta iota. rewrite last_result_snoc, combine_nil.
    reflexivity.
Qed.

End ManualFacts.

Section ManualClaims.

Variable E : Env.

Lemma for_each_length {A B} (f : A -> M B) l : forall w rs w',
  for_each f l w = (inr rs, w') -> List.length rs = List.length l.
Proof.
  induction l as [|x l IH]; simpl; intros w rs w' H.
  - now injection H as <- <-.
  - rewrite bind_eq in H. destruct (f x w) as [[e|y] w1]; [discriminate H|].
    rewrite bind_eq in H.
    destruct (for_each f l w1) as [[e|ys] w2] eqn:Hl; [discriminate H|].
    injection H as <- <-. simpl. f_equal. eapply IH; eassumption.
Qed.

Lemma map_fst_combine {A B} (l : list A) (l' : list B) :
  List.length l' = List.length l -> map fst (combine l l') = l.
Proof.
  revert l'; induction l as [|a l IH]; intros [|b l'] H; simpl in *;
    try discriminate; [reflexivity|].
  f_equal. apply IH. now injection H.
Qed.

Lemma nth_error_combine {A B} (l : list A) (l' : list B) i a b :
  nth_error l i = Some a -> nth_error l' i = Some b ->
  nth_error (combine l l') i = Some (a, b).
Proof.
  revert l l'; induction i as [|i IH]; intros [|x l] [|y l']; simpl;
    try discriminate; [now intros [= ->] [= ->] | apply IH].
Qed.

Lemma upper_keys_not_loaded st k :
  upper_keys st -> has_lower k = true -> Dict.get k (portfolio st) = None.
Proof.
  intros Hu Hk. destruct (Dict.get k (portfolio st)) eqn:Hg; [|reflexivity].
  apply DictFacts.get_some_mem, DictFacts.mem_keys in Hg.
  apply (proj1 (Forall_forall _ _) Hu) in Hg. congruence.
Qed.

(** Under upper-case portfolio keys, the forecast of a name written with a
    lower-case letter is the "not loaded" string. *)
Lemma for_each_forecast_lower days names : forall w rs w',
  upper_keys (DATA_STATE w) ->
  for_each (fun t => ensemble_forecast E t days) names w = (inr rs, w') ->
  forall i n, nth_error names i = Some n -> has_lower n = true ->
              nth_error rs i = Some (NOT_LOADED n).
Proof.
  induction names as [|x names IH]; simpl; intros w rs w' Hu H i n Hi Hn.
  - now destruct i.
  - rewrite bind_eq in H.
    destruct (ensemble_forecast E x days w) as [[e|y] w1] eqn:Hx; [discriminate H|].
    rewrite bind_eq in H.
    destruct (for_each _ names w1) as [[e|ys] w2] eqn:Hl; [discriminate H|].
    injection H as <- <-. destruct i as [|i]; simpl in *.
    + injection Hi as ->.
      rewrite forecast_not_loaded in Hx by now apply upper_keys_not_loaded.
      now injection Hx as <- _.
    + apply (IH w1 ys w2); try assumption.
      destruct (forecast_sound E x days w) as [Hev _]. rewrite Hx in Hev.
      exact (evolves_upper _ _ Hev Hu).
Qed.

Lemma run_manual_world tickers forecast_days include_sentiment w :
  snd (run_manual E tickers forecast_days include_sentiment w)
  = snd (run_steps E (manual_steps E tickers forecast_days include_sentiment) []
                   (snd (reset_state w))).
Proof.
  unfold run_manual. rewrite bind_eq. unfold reset_state at 1. cbv beta iota.
  rewrite bind_eq. unfold reset_state. cbn [snd].
  now destruct (run_steps E _ [] _) as [[e|done] w1].
Qed.

(** C7. A manual run is the fixed sequence: Fetch once on all tickers, Risk
    once on all tickers, Forecast once per input ticker in input order,
    Sentiment once per input ticker in input order when the caller's flag
    and the configuration both enable it, Ranking once; the step log holds
    the results in call order under the step names, and the final response
    is the result of the last step, the ranking report. *)
Theorem manual_runs_fixed_sequence (tickers : string) (forecast_days : Z)
        (include_sentiment : bool) (w : World) :
  let names := map strip (split "," tickers) in
  run_manual E tickers forecast_days include_sentiment w
    = manual_sequence E tickers forecast_days include_sentiment w
  /\ forall res w',
      run_manual E tickers forecast_days include_sentiment w = (inr res, w') ->
      map step (steps res)
        = (["Fetching Data"; "Risk Analysis"]
           ++ map (fun n => "Forecasting " ++ n)%string names
           ++ (if include_sentiment && ENABLE_SENTIMENT (config E)
               then map (fun n => "Sentiment " ++ n)%string names else [])
           ++ ["Portfolio Ranking"])%list
      /\ final_response res = last_result (steps res)
      /\ exists w_rank, compare_portfolio w_rank = (inr (final_response res), w').
Proof.
  cbv zeta. split; [apply run_manual_sequence|].
  intros res w' H. rewrite run_manual_sequence in H.
  unfold manual_sequence in H. cbv zeta in H. rewrite !bind_eq in H.
  unfold reset_state at 1 in H. cbv beta iota in H. rewrite !bind_eq in H.
  destruct (fetch_portfolio_data E tickers None _) as [[e|fetched] w1]; [discriminate H|].
  rewrite !bind_eq in H.
  destruct (calculate_risk_metrics E (Some tickers) w1) as [[e|risk] w2]; [discriminate H|].
  rewrite !bind_eq in H.
  destruct (for_each _ (map strip (split "," tickers)) w2) as [[e|projections] w3] eqn:Hp;
    [discriminate H|].
  apply for_each_length in Hp.
  rewrite !bind_eq in H.
  assert (Hmoods : forall moods w4,
    (if include_sentiment && ENABLE_SENTIMENT (config E)
     then for_each (analyze_sentiment E) (map strip (split "," tickers))
     else ret []) w3 = (inr moods, w4) ->
    map (fun p => ("Sentiment " ++ fst p)%string)
        (combine (map strip (split "," tickers)) moods)
    = if include_sentiment && ENABLE_SENTIMENT (config E)
      then map (fun n => "Sentiment " ++ n)%string (map strip (split "," tickers))
      else []).
  { intros moods w4 Hm. destruct (include_sentiment && ENABLE_SENTIMENT (config E)).
    - apply for_each_length in Hm.
      rewrite <- (map_fst_combine _ moods Hm) at 2. now rewrite map_map.
    - injection Hm as <- _. now rewrite combine_nil. }
  destruct ((if include_sentiment && ENABLE_SENTIMENT (config E)
             then for_each (analyze_sentiment E) (map strip (split "," tickers))
             else ret []) w3) as [[e|moods] w4] eqn:Hm; [discriminate H|].
  specialize (Hmoods moods w4 eq_refl).
  rewrite !bind_eq in H.
  destruct (compare_portfolio w4) as [[e|report] w5] eqn:Hr; [discriminate H|].
  injection H as <- <-. cbv beta iota delta [steps final_response].
  split; [|split].
  - assert (HA : map (fun p => ("Forecasting " ++ fst p)%string)
                     (combine (map strip (split "," tickers)) projections)
                 = map (fun n => "Forecasting " ++ n)%string
                       (map strip (split "," tickers)))
      by (rewrite <- (map_fst_combine _ projections Hp) at 2; now rewrite map_map).
    transitivity
      (["Fetching Data"; "Risk Analysis"]
       ++ map (fun p => ("Forecasting " ++ fst p)%string)
              (combine (map strip (split "," tickers)) projections)
       ++ map (fun p => ("Sentiment " ++ fst p)%string)
              (combine (map strip (split "," tickers)) moods)
       ++ ["Portfolio Ranking"])%list.
    { rewrite !map_cons, !map_app, !map_map. reflexivity. }
    rewrite HA, Hmoods. reflexivity.
  - symmetry. apply last_result_manual.
  - now exists w4.
Qed.

(** C10. In a manual run, an input ticker written with a lower-case letter
    gets no forecast: whatever the outcome of the run no forecast is stored
    under its stripped name; after the reset, whatever tools have run, the
    Forecast step on that name returns the "not loaded" string and leaves the
    world as it is; and in the log of a completed run the entry of its
    Forecast step holds that string. *)
Theorem lowercase_ticker_not_forecast (tickers : string) (forecast_days : Z)
        (include_sentiment : bool) (w : World) (i : nat) (t : string) :
  nth_error (split "," tickers) i = Some t ->
  has_lower t = true ->
  let r := run_manual E tickers forecast_days include_sentiment w in
  Dict.mem (strip t) (forecasts (DATA_STATE (snd r))) = false
  /\ (forall calls,
        let w' := run_calls E calls (snd (reset_state w)) in
        ensemble_forecast E (strip t) (Some forecast_days) w'
          = (inr (NOT_LOADED (strip t)), w'))
  /\ forall res,
      fst r = inr res ->
      nth_error (steps res) (2 + i)
        = Some {| step := ("Forecasting " ++ strip t)%string;
                  result := NOT_LOADED (strip t) |}.
Proof.
  intros Hi Ht. cbv zeta.
  assert (Hs : has_lower (strip t) = true) by now rewrite PyStrFacts.has_lower_strip.
  split; [|split].
  2:{ intros calls. apply forecast_not_loaded, upper_keys_not_loaded; [|exact Hs].
      destruct (run_calls_extends E calls (snd (reset_state w))) as [Hev _].
      exact (evolves_upper _ _ Hev upper_empty). }
  - rewrite run_manual_world.
    set (final := snd (run_steps E (manual_steps E tickers forecast_days include_sentiment)
                                 [] (snd (reset_state w)))).
    pose proof (run_steps_sound E
                  (manual_steps E tickers forecast_days include_sentiment) []
                  (snd (reset_state w))) as [Hev _].
    fold final in Hev. change (DATA_STATE (snd (reset_state w))) with empty_state in Hev.
    destruct (evolves_guarded _ _ Hev guarded_empty) as [_ Hf].
    pose proof (evolves_upper _ _ Hev upper_empty) as Hu.
    destruct (Dict.mem (strip t) (forecasts (DATA_STATE final))) eqn:Hm; [|reflexivity].
    apply DictFacts.mem_keys, Hf in Hm.
    apply (proj1 (Forall_forall _ _) Hu) in Hm. congruence.
  - intros res Hres.
    destruct (run_manual E tickers forecast_days include_sentiment w) as [r w'] eqn:Hrun.
    simpl in Hres. subst r.
    rewrite run_manual_sequence in Hrun.
    unfold manual_sequence in Hrun. cbv zeta in Hrun. rewrite !bind_eq in Hrun.
    unfold reset_state at 1 in Hrun. cbv beta iota in Hrun. rewrite !bind_eq in Hrun.
    set (w0 := {| DATA_STATE := empty_state; agents_DATA_STATE := agents_DATA_STATE w;
                  rebound := true; log := log w |}) in Hrun.
    pose proof (fetch_sound E tickers None w0) as [Hev1 _].
    destruct (fetch_portfolio_data E tickers None w0) as [[e|fetched] w1];
      [discriminate Hrun|].
    rewrite !bind_eq in Hrun.
    pose proof (risk_sound E (Some tickers) w1) as [Hev2 _].
    destruct (calculate_risk_metrics E (Some tickers) w1) as [[e|risk] w2];
      [discriminate Hrun|].
    rewrite !bind_eq in Hrun.
    destruct (for_each _ (map strip (split "," tickers)) w2) as [[e|projections] w3] eqn:Hp;
      [discriminate Hrun|].
    assert (Hproj : nth_error projections i = Some (NOT_LOADED (strip t))).
    { eapply (for_each_forecast_lower _ _ w2); try eassumption.
      - simpl in Hev1, Hev2.
        exact (evolves_upper _ _ Hev2 (evolves_upper _ _ Hev1 upper_empty)).
      - now apply map_nth_error. }
    rewrite !bind_eq in Hrun.
    destruct ((if include_sentiment && ENABLE_SENTIMENT (config E)
               then for_each (analyze_sentiment E) (map strip (split "," tickers))
               else ret []) w3) as [[e|moods] w4]; [discriminate Hrun|].
    rewrite !bind_eq in Hrun.
    destruct (compare_portfolio w4) as [[e|report] w5]; [discriminate Hrun|].
    injection Hrun as <- _. cbv beta iota delta [steps].
    change (2 + i)%nat with (S (S i)). cbn [nth_error app].
    rewrite nth_error_app1.
    + pose proof (map_nth_error strip _ _ Hi) as Hname.
      now rewrite (map_nth_error _ _ _ (nth_error_combine _ _ _ _ _ Hname Hproj)).
    + rewrite length_map. apply nth_error_Some.
      rewrite (nth_error_combine _ _ i (strip t) (NOT_LOADED (strip t)));
        [discriminate | now apply map_nth_error | assumption].
Qed.

End ManualClaims.

(** C7 on the tickers "aapl, AAA,BBB,BAD" with sentiment on. *)
Lemma manual_sequence_witness :
  exists res w',
    run_manual Demo.quiet "aapl, AAA,BBB,BAD" 2 true initial_world = (inr res, w')
    /\ map step (steps res)
       = ["Fetching Data"; "Risk Analysis";
          "Forecasting aapl"; "Forecasting AAA"; "Forecasting BBB"; "Forecasting BAD";
          "Sentiment aapl"; "Sentiment AAA"; "Sentiment BBB"; "Sentiment BAD";
          "Portfolio Ranking"]
    /\ final_response res = last_result (steps res).
Proof.
  destruct (run_manual Demo.quiet "aapl, AAA,BBB,BAD" 2 true initial_world)
    as [[e|res] w'] eqn:Hrun; [vm_compute in Hrun; discriminate Hrun|].
  exists res, w'. split; [reflexivity|].
  destruct (manual_runs_fixed_sequence Demo.quiet "aapl, AAA,BBB,BAD" 2 true initial_world)
    as [_ H].
  destruct (H res w' Hrun) as (Hnames & Hfinal & _).
  split; [rewrite Hnames; reflexivity | exact Hfinal].
Defined.

(** C10 on the input "aapl": the download of AAPL succeeds and the frame is
    stored under "AAPL", the Forecast step looks up "aapl". *)
Lemma lowercase_ticker_witness :
  let r := run_manual Demo.quiet "aapl" 2 true initial_world in
  Dict.mem "AAPL" (portfolio (DATA_STATE (snd r))) = true
  /\ Dict.mem "aapl" (forecasts (DATA_STATE (snd r))) = false
  /\ exists res,
      fst r = inr res
      /\ nth_error (steps res) 2
         = Some {| step := "Forecasting aapl"; result := "❌ Error: aapl not loaded." |}.
Proof.
  cbv zeta.
  destruct (lowercase_ticker_not_forecast Demo.quiet "aapl" 2 true initial_world 0 "aapl")
    as (Hstore & _ & Hlog); [reflexivity | reflexivity |].
  split; [vm_compute; reflexivity|]. split; [exact Hstore|].
  destruct (fst (run_manual Demo.quiet "aapl" 2 true initial_world)) as [e|res] eqn:Hrun;
    [vm_compute in Hrun; discriminate Hrun|].
  exists res. split; [reflexivity|]. exact (Hlog res eq_refl).
Defined.

(** ** Autonomous mode *)

Section AutonomousFacts.

Variable E : Env.

Lemma run_tool_call_sound r : sound (run_tool_call E r).
Proof.
  destruct r as [c|name]; simpl; [|apply sound_ret].
  apply sound_try.
  - apply sound_bind; [apply invoke_tool_sound | intros; apply sound_ret].
  - intros e. destruct (handle_tool_error E e); [apply sound_ret | apply sound_raise].
Qed.

Lemma tool_node_sound calls : sound (tool_node E calls).
Proof.
  induction calls as [|c calls IH]; simpl; [apply sound_ret|].
  apply sound_bind; [apply run_tool_call_sound|]. intros m.
  apply sound_bind; [apply IH|]. intros ms. apply sound_ret.
Qed.

Lemma autonomous_body_sound key messages steps :
  sound (autonomous_body key messages steps).
Proof.
  unfold autonomous_body. apply sound_bind.
  - intros w. split; simpl; [apply evolves_refl|]. now exists [ev_sleep 5].
  - intros _. destruct messages; apply sound_ret.
Qed.

(** The agent node in closed form: one model invocation on the messages
    so far. *)
Lemma graph_step_agent messages w :
  graph_step E agent messages w =
    (match llm_invoke E (List.length (log w)) messages with
     | inl e => inl e
     | inr ai => inr ("agent"%string, [ai],
                      match tool_calls_of ai with [] => None | _ => Some tools end)
     end, log_event (ev_llm messages) w).
Proof.
  unfold graph_step. rewrite bind_eq, external_eq.
  now destruct (llm_invoke E (List.length (log w)) messages).
Qed.

Lemma graph_step_tools messages w :
  extends w (snd (graph_step E tools messages w))
  /\ forall key update next,
      fst (graph_step E tools messages w) = inr (key, update, next) -> next = Some agent.
Proof.
  unfold graph_step. rewrite bind_eq.
  pose proof (tool_node_sound
                (tool_calls_of (List.last messages (HumanMessage ""))) w) as Hs.
  destruct (tool_node E _ w) as [[e|out] w1]; simpl in *.
  - split; [assumption | discriminate].
  - split; [assumption|]. now intros key update next [= _ _ <-].
Qed.

Lemma pregel_llm_bound {St : Type} (body : string -> list message -> St -> M St) limit :
  (forall key update s, sound (body key update s)) ->
  forall fuel next messages s w,
  exists l, log (snd (pregel E limit fuel next messages body s w)) = (log w ++ l)%list
            /\ (count_llm l <= llm_budget next fuel)%nat.
Proof.
  intros Hbody. induction fuel as [|fuel IH]; intros next messages s w.
  - exists []. simpl. rewrite app_nil_r. split; [reflexivity | lia].
  - cbn [pregel].
    assert (Hstep : exists l1,
               log (snd (graph_step E next messages w)) = (log w ++ l1)%list
               /\ (count_llm l1 <= match next with agent => 1 | tools => 0 end)%nat
               /\ forall key update nxt n,
                   fst (graph_step E next messages w) = inr (key, update, nxt) ->
                   nxt = Some n ->
                   n = match next with agent => tools | tools => agent end).
    { destruct next.
      - rewrite graph_step_agent. exists [ev_llm messages]. simpl.
        split; [reflexivity|]. split; [lia|].
        intros key update nxt n H ->.
        destruct (llm_invoke E (List.length (log w)) messages) as [e|ai]; [discriminate H|].
        injection H as _ _ H. destruct (tool_calls_of ai); [discriminate H|].
        now injection H.
      - destruct (graph_step_tools messages w) as [[_ (l1 & Hl & Hc)] Hn].
        exists l1. split; [assumption|]. split; [lia|].
        intros key update nxt n H ->. apply Hn in H. now injection H. }
    destruct Hstep as (l1 & Hl1 & Hc1 & Hnext).
    destruct (graph_step E next messages w) as [[e|[[key update] nxt]] w1];
      simpl in Hl1.
    + exists l1. simpl. split; [assumption|]. destruct next; simpl in *; try lia.
      destruct fuel; simpl; lia.
    + pose proof (Hbody key update s w1) as [_ (l2 & Hl2 & Hc2)].
      destruct (body key update s w1) as [[e|s'] w2]; simpl in Hl2.
      * exists (l1 ++ l2)%list. simpl. rewrite Hl2, Hl1, app_assoc, count_llm_app.
        split; [reflexivity|]. destruct next; simpl in *; try lia.
        destruct fuel; simpl; lia.
      * destruct nxt as [n|].
        -- specialize (Hnext key update (Some n) n eq_refl eq_refl). subst n.
           destruct (IH (match next with agent => tools | tools => agent end)
                        (messages ++ update)%list s' w2) as (l3 & Hl3 & Hc3).
           exists (l1 ++ l2 ++ l3)%list.
           rewrite Hl3, Hl2, Hl1, !app_assoc, !count_llm_app.
           split; [reflexivity|]. destruct next; simpl in *; lia.
        -- exists (l1 ++ l2)%list. simpl. rewrite Hl2, Hl1, app_assoc, count_llm_app.
           split; [reflexivity|]. destruct next; simpl in *; try lia.
           destruct fuel; simpl; lia.
Qed.


End AutonomousFacts.

Section AutonomousClaims.

Variable E : Env.

(** Model invocations of one autonomous run: those of a run of limit 15
    and, when that run completes, those of a run of the default limit. *)
Lemma autonomous_llm_bound query w :
  exists l, log (snd (run_autonomous E query w)) = (log w ++ l)%list
            /\ (count_llm l <= 8 + Nat.div2 (S (default_recursion_limit E)))%nat.
Proof.
  unfold run_autonomous. rewrite bind_eq. unfold reset_state at 1. cbv beta iota.
  rewrite bind_eq. unfold now at 1. cbv beta iota.
  set (w0 := {| DATA_STATE := empty_state; agents_DATA_STATE := agents_DATA_STATE w;
                rebound := true; log := log w |}).
  change (List.length (log w0)) with (List.length (log w)).
  fold (autonomous_inputs E query w). unfold app_stream, app_invoke.
  destruct (pregel_llm_bound E (autonomous_body) 15 (autonomous_body_sound) 15 agent
              (autonomous_inputs E query w) [] w0) as (l1 & Hl1 & Hc1).
  change (llm_budget agent 15) with 8%nat in Hc1.
  destruct (pregel E 15 15 agent (autonomous_inputs E query w) autonomous_body [] w0)
    as [[steps1 [e|msgs1]] w1]; simpl in Hl1.
  - exists l1. simpl. split; [assumption | lia].
  - destruct (pregel_llm_bound E (fun _ _ (s : unit) => ret s)
                (default_recursion_limit E) (fun _ _ _ => sound_ret _)
                (default_recursion_limit E) agent (autonomous_inputs E query w) tt w1)
      as (l2 & Hl2 & Hc2).
    simpl in Hc2.
    destruct (pregel E _ _ agent (autonomous_inputs E query w) _ tt w1)
      as [[u [e|final_messages]] w2]; simpl in Hl2 |- *;
      exists (l1 ++ l2)%list; rewrite Hl2, Hl1, app_assoc, count_llm_app;
      (split; [reflexivity|]);
      generalize dependent (Nat.div2 (default_recursion_limit E)); intros;
      destruct (default_recursion_limit E); simpl in *; lia.
Qed.





End AutonomousClaims.



(** C8, at the failing input: a model that asks for the ranking until the
    conversation holds 14 messages. The streamed run completes in 13
    super-steps (13 log entries, 7 model invocations), within its limit of
    15; the graph is then run again from the initial inputs and takes 13
    more, so that the run makes 14 model invocations where a limit of 15
    super-steps allows 8, and returns normally. *)
Theorem autonomous_exceeds_fifteen_rounds :
  let E := Demo.env (Demo.market 3) (Demo.llm_until 14) 25 in
  let r := run_autonomous E "Analyze AAA" initial_world in
  (exists res, fst r = inr res
               /\ List.length (steps res) = 13%nat
               /\ final_response res = "Executive Summary")
  /\ count_llm (log (snd r)) = 14%nat
  /\ llm_budget agent 15 = 8%nat.
Proof.
  cbv zeta. split; [|split]; [|vm_compute; reflexivity | reflexivity].
  eexists. split; [vm_compute; reflexivity|]. split; reflexivity.
Qed.

(** * Further properties of the tools and of the orchestrator *)

(** ** Frames *)

Lemma respects_ret {A} R (a : A) : frame R -> respects R (ret a).
Proof. intros F w. apply (frame_refl R F). Qed.

Lemma respects_raise {A} R (e : exn) : frame R -> respects R (@raise A e).
Proof. intros F w. apply (frame_refl R F). Qed.

Lemma respects_bind {A B} R (m : M A) (k : A -> M B) :
  frame R -> respects R m -> (forall a, respects R (k a)) -> respects R (bind m k).
Proof.
  intros F Hm Hk w. rewrite bind_eq. specialize (Hm w).
  destruct (m w) as [[e|a] w1]; simpl in *; [assumption|].
  eapply (frame_trans R F); [eassumption | apply Hk].
Qed.

Lemma respects_try {A} R (m : M A) (h : exn -> M A) :
  frame R -> respects R m -> (forall e, respects R (h e)) -> respects R (try_except m h).
Proof.
  intros F Hm Hh w. unfold try_except. specialize (Hm w).
  destruct (m w) as [[e|a] w1]; simpl in *; [|assumption].
  eapply (frame_trans R F); [eassumption | apply Hh].
Qed.

Lemma respects_external {A} R (ev : event) (oracle : nat -> exn + A) :
  frame R -> respects R (external ev oracle).
Proof. intros F w. apply (frame_log R F). Qed.

Lemma respects_get_state {A} R (k : DataState -> M A) :
  (forall st, respects R (k st)) -> respects R (bind get_state k).
Proof. intros H w. rewrite bind_get_state. apply H. Qed.

(** The same for relations that only the external calls of the tools need
    maintain. *)
Lemma tf_ret {A} R (a : A) : tool_frame R -> respects R (ret a).
Proof. intros F w. apply (tf_refl R F). Qed.

Lemma tf_raise {A} R (e : exn) : tool_frame R -> respects R (@raise A e).
Proof. intros F w. apply (tf_refl R F). Qed.

Lemma tf_bind {A B} R (m : M A) (k : A -> M B) :
  tool_frame R -> respects R m -> (forall a, respects R (k a)) -> respects R (bind m k).
Proof.
  intros F Hm Hk w. rewrite bind_eq. specialize (Hm w).
  destruct (m w) as [[e|a] w1]; simpl in *; [assumption|].
  eapply (tf_trans R F); [eassumption | apply Hk].
Qed.

Lemma tf_try {A} R (m : M A) (h : exn -> M A) :
  tool_frame R -> respects R m -> (forall e, respects R (h e)) -> respects R (try_except m h).
Proof.
  intros F Hm Hh w. unfold try_except. specialize (Hm w).
  destruct (m w) as [[e|a] w1]; simpl in *; [|assumption].
  eapply (tf_trans R F); [eassumption | apply Hh].
Qed.

Lemma tf_external {A} R (ev : event) (oracle : nat -> exn + A) :
  tool_frame R -> tool_event ev -> respects R (external ev oracle).
Proof. intros F Hev w. now apply (tf_log R F). Qed.

Lemma frame_tool_frame R : frame R -> tool_frame R.
Proof.
  intros F. split; [apply (frame_refl R F) | apply (frame_trans R F) |].
  intros ev w _. apply (frame_log R F).
Qed.

Section ToolFramesCore.

Variable E : Env.
Variable R : World -> World -> Prop.
Hypothesis F : tool_frame R.

Lemma fetch_respects_tf tickers period :
  writes R set_portfolio -> respects R (fetch_portfolio_data E tickers period).
Proof.
  intros Hw. unfold fetch_portfolio_data.
  apply tf_bind; [assumption| |intros; now apply tf_ret].
  generalize (@nil string).
  induction (map (fun t => upper (strip t)) (split "," tickers)) as [|t l IH];
    intros acc; simpl; [now apply tf_ret|].
  apply tf_bind; [assumption| |intros; apply IH].
  unfold fetch_ticker. apply tf_try; [assumption| |intros; now apply tf_ret].
  apply tf_bind; [assumption|apply tf_external; [assumption | exact I]|].
  intros df. destruct (negb (df_empty df)); [|now apply tf_ret].
  apply tf_bind; [assumption|intros w0; apply Hw|intros; now apply tf_ret].
Qed.

Lemma risk_respects_tf tickers :
  writes R set_risk_metrics -> respects R (calculate_risk_metrics E tickers).
Proof.
  intros Hw. unfold calculate_risk_metrics. apply respects_get_state. intros st.
  destruct (Dict.is_empty (portfolio st)); [now apply tf_ret|].
  apply tf_bind; [assumption| |].
  - unfold fetch_benchmark. apply tf_try; [assumption| |intros; now apply tf_ret].
    apply tf_bind; [assumption|apply tf_external; [assumption | exact I]|intros; now apply tf_ret].
  - intros [spy_returns|]; [|now apply tf_ret].
    apply tf_bind; [assumption| |intros; now apply tf_ret].
    generalize (@nil string).
    induction (risk_ticker_list tickers st) as [|t l IH]; intros rep; simpl;
      [now apply tf_ret|].
    apply tf_bind; [assumption| |intros; apply IH].
    intros w.
    destruct (risk_ticker_cases E spy_returns t rep w)
      as [[_ ->]|[(df & _ & _ & ->)|[(df & e & _ & _ & _ & ->)|(df & b & _ & _ & _ & ->)]]];
      try apply (tf_refl R F).
    simpl. apply Hw.
Qed.

Lemma forecast_respects_tf ticker days :
  writes R set_forecasts -> respects R (ensemble_forecast E ticker days).
Proof.
  intros Hw. unfold ensemble_forecast. cbv zeta. apply respects_get_state. intros st.
  destruct (Dict.get ticker (portfolio st)) as [df|]; [|now apply tf_ret].
  apply tf_bind; [assumption|apply tf_external; [assumption | exact I]|]. intros yhat.
  apply tf_bind; [assumption| |intros _].
  { unfold require_samples. destruct (map _ _); [now apply tf_raise | now apply tf_ret]. }
  apply tf_bind; [assumption| |intros _].
  { unfold require_samples. destruct (Np.arange _ _); [now apply tf_raise | now apply tf_ret]. }
  apply tf_bind; [assumption| |intros pred].
  { unfold blend. destruct (Np.broadcast _ _ _); [now apply tf_ret | now apply tf_raise]. }
  apply tf_bind; [assumption| |intros _].
  { destruct (_ =? _)%nat; [now apply tf_ret | now apply tf_raise]. }
  apply tf_bind; [assumption|apply tf_external; [assumption | exact I]|intros _].
  apply tf_bind; [assumption|intros w0; apply Hw|intros; now apply tf_ret].
Qed.

Lemma sentiment_respects_tf ticker :
  writes R set_sentiment -> respects R (analyze_sentiment E ticker).
Proof.
  intros Hw. unfold analyze_sentiment.
  destruct (negb (ENABLE_SENTIMENT (config E))); [now apply tf_ret|].
  apply tf_bind; [assumption|apply tf_external; [assumption | exact I]|intros s].
  apply tf_bind; [assumption|intros w0; apply Hw|intros; now apply tf_ret].
Qed.

(** The same for a relation that holds of the assignments of values of the
    form the tool stores. *)
Lemma forecast_respects_values_tf (Pv : Forecast -> Prop) ticker days :
  (forall k f w, Pv f -> R w (snd (update_state (set_forecasts k f) w))) ->
  (forall cur pred,
      Pv {| current := cur; predicted := pred;
            change_pct := ((pred - cur) / cur * 100)%Q |}) ->
  respects R (ensemble_forecast E ticker days).
Proof.
  intros Hw Hv. unfold ensemble_forecast. cbv zeta. apply respects_get_state. intros st.
  destruct (Dict.get ticker (portfolio st)) as [df|]; [|now apply tf_ret].
  apply tf_bind; [assumption|apply tf_external; [assumption | exact I]|]. intros yhat.
  apply tf_bind; [assumption| |intros _].
  { unfold require_samples. destruct (map _ _); [now apply tf_raise | now apply tf_ret]. }
  apply tf_bind; [assumption| |intros _].
  { unfold require_samples. destruct (Np.arange _ _); [now apply tf_raise | now apply tf_ret]. }
  apply tf_bind; [assumption| |intros pred].
  { unfold blend. destruct (Np.broadcast _ _ _); [now apply tf_ret | now apply tf_raise]. }
  apply tf_bind; [assumption| |intros _].
  { destruct (_ =? _)%nat; [now apply tf_ret | now apply tf_raise]. }
  apply tf_bind; [assumption|apply tf_external; [assumption | exact I]|intros _].
  apply tf_bind; [assumption| |intros; now apply tf_ret].
  intros w0. apply Hw, Hv.
Qed.

Lemma sentiment_respects_values_tf (Pv : Sentiment -> Prop) ticker :
  (forall k s w, Pv s -> R w (snd (update_state (set_sentiment k s) w))) ->
  (forall x, Pv {| score := x;
                   label := if Np.Qltb 0 x then "POSITIVE"%string else "NEGATIVE"%string |}) ->
  respects R (analyze_sentiment E ticker).
Proof.
  intros Hw Hv. unfold analyze_sentiment.
  destruct (negb (ENABLE_SENTIMENT (config E))); [now apply tf_ret|].
  apply tf_bind; [assumption|apply tf_external; [assumption | exact I]|intros s].
  apply tf_bind; [assumption| |intros; now apply tf_ret].
  intros w0. apply Hw, Hv.
Qed.

Lemma run_calls_respects_tools_tf calls :
  (forall c, respects R (invoke_tool E c)) -> forall w, R w (run_calls E calls w).
Proof.
  intros H. induction calls as [|c calls IH]; intros w; simpl.
  - apply (tf_refl R F).
  - eapply (tf_trans R F); [apply H | apply IH].
Qed.

Lemma compare_respects_tf : respects R compare_portfolio.
Proof. intros w. rewrite compare_eq. apply (tf_refl R F). Qed.

Lemma invoke_tool_respects_tf c :
  writes R set_portfolio -> writes R set_risk_metrics ->
  writes R set_forecasts -> writes R set_sentiment ->
  respects R (invoke_tool E c).
Proof.
  intros H1 H2 H3 H4. destruct c; simpl.
  - now apply fetch_respects_tf.
  - now apply risk_respects_tf.
  - now apply forecast_respects_tf.
  - now apply sentiment_respects_tf.
  - apply compare_respects_tf.
Qed.

Lemma run_calls_respects_tf calls :
  writes R set_portfolio -> writes R set_risk_metrics ->
  writes R set_forecasts -> writes R set_sentiment ->
  forall w, R w (run_calls E calls w).
Proof.
  intros H1 H2 H3 H4. induction calls as [|c calls IH]; intros w; simpl.
  - apply (tf_refl R F).
  - eapply (tf_trans R F); [now apply invoke_tool_respects_tf | apply IH].
Qed.

End ToolFramesCore.

Section ToolFrames.

Variable E : Env.
Variable R : World -> World -> Prop.
Hypothesis F : frame R.

Lemma fetch_respects tickers period :
  writes R set_portfolio -> respects R (fetch_portfolio_data E tickers period).
Proof. apply fetch_respects_tf, frame_tool_frame, F. Qed.

Lemma risk_respects tickers :
  writes R set_risk_metrics -> respects R (calculate_risk_metrics E tickers).
Proof. apply risk_respects_tf, frame_tool_frame, F. Qed.

Lemma forecast_respects ticker days :
  writes R set_forecasts -> respects R (ensemble_forecast E ticker days).
Proof. apply forecast_respects_tf, frame_tool_frame, F. Qed.

Lemma sentiment_respects ticker :
  writes R set_sentiment -> respects R (analyze_sentiment E ticker).
Proof. apply sentiment_respects_tf, frame_tool_frame, F. Qed.

Lemma forecast_respects_values (Pv : Forecast -> Prop) ticker days :
  (forall k f w, Pv f -> R w (snd (update_state (set_forecasts k f) w))) ->
  (forall cur pred,
      Pv {| current := cur; predicted := pred;
            change_pct := ((pred - cur) / cur * 100)%Q |}) ->
  respects R (ensemble_forecast E ticker days).
Proof. apply forecast_respects_values_tf, frame_tool_frame, F. Qed.

Lemma sentiment_respects_values (Pv : Sentiment -> Prop) ticker :
  (forall k s w, Pv s -> R w (snd (update_state (set_sentiment k s) w))) ->
  (forall x, Pv {| score := x;
                   label := if Np.Qltb 0 x then "POSITIVE"%string else "NEGATIVE"%string |}) ->
  respects R (analyze_sentiment E ticker).
Proof. apply sentiment_respects_values_tf, frame_tool_frame, F. Qed.

Lemma run_calls_respects_tools calls :
  (forall c, respects R (invoke_tool E c)) -> forall w, R w (run_calls E calls w).
Proof. apply run_calls_respects_tools_tf, frame_tool_frame, F. Qed.

Lemma compare_respects : respects R compare_portfolio.
Proof. apply compare_respects_tf, frame_tool_frame, F. Qed.

Lemma invoke_tool_respects c :
  writes R set_portfolio -> writes R set_risk_metrics ->
  writes R set_forecasts -> writes R set_sentiment ->
  respects R (invoke_tool E c).
Proof. apply invoke_tool_respects_tf, frame_tool_frame, F. Qed.

Lemma run_calls_respects calls :
  writes R set_portfolio -> writes R set_risk_metrics ->
  writes R set_forecasts -> writes R set_sentiment ->
  forall w, R w (run_calls E calls w).
Proof. apply run_calls_respects_tf, frame_tool_frame, F. Qed.

End ToolFrames.

Lemma keeps_frame {V} (proj : DataState -> V) : frame (keeps proj).
Proof.
  split; unfold keeps.
  - reflexivity.
  - intros w1 w2 w3 H1 H2. now rewrite H2.
  - reflexivity.
Qed.

Lemma keys_set_extends {V} k (v : V) d :
  Dict.keys (Dict.set k v d)
  = (Dict.keys d ++ if Dict.mem k d then [] else [k])%list.
Proof.
  unfold Dict.mem, Dict.keys. induction d as [|[k0 v0] r IH]; simpl; [reflexivity|].
  destruct (String.eqb k k0); simpl.
  - now rewrite app_nil_r.
  - now rewrite IH.
Qed.

Lemma extends_list_refl {A} (l : list A) : extends_list l l.
Proof. exists []. now rewrite app_nil_r. Qed.

Lemma extends_list_trans {A} (l1 l2 l3 : list A) :
  extends_list l1 l2 -> extends_list l2 l3 -> extends_list l1 l3.
Proof. intros [r1 ->] [r2 ->]. exists (r1 ++ r2)%list. now rewrite app_assoc. Qed.

Lemma keys_kept_frame : frame keys_kept.
Proof.
  split; unfold keys_kept.
  - intros w. repeat split; apply extends_list_refl.
  - intros w1 w2 w3 (A1 & B1 & C1 & D1) (A2 & B2 & C2 & D2).
    repeat split; eapply extends_list_trans; eassumption.
  - intros ev w. repeat split; apply extends_list_refl.
Qed.

Lemma keys_kept_writes :
  writes keys_kept set_portfolio /\ writes keys_kept set_risk_metrics
  /\ writes keys_kept set_forecasts /\ writes keys_kept set_sentiment.
Proof.
  repeat split; simpl; try apply extends_list_refl;
    rewrite keys_set_extends; eexists; reflexivity.
Qed.

(** ** Invariants that every tool maintains *)

Lemma maintains_frame (P : DataState -> Prop) : frame (maintains P).
Proof. split; unfold maintains; simpl; auto. Qed.

Lemma entries_ok_set {V} (ok : V -> Prop) k v (d : Dict.dict V) :
  entries_ok ok d -> ok v -> entries_ok ok (Dict.set k v d).
Proof.
  unfold entries_ok. intros Hd Hv. induction Hd as [|[k0 v0] r H0 Hr IH]; simpl.
  - repeat constructor. exact Hv.
  - destruct (String.eqb k k0); constructor; assumption.
Qed.

Lemma nodup_keys_set {V} k (v : V) d :
  NoDup (Dict.keys d) -> NoDup (Dict.keys (Dict.set k v d)).
Proof.
  intros H. rewrite keys_set_extends.
  destruct (Dict.mem k d) eqn:Hm; [now rewrite app_nil_r|].
  apply NoDup_app; [exact H | repeat constructor; intros [] |].
  intros x Hx [<-|[]]. apply DictFacts.mem_keys in Hx. congruence.
Qed.

Lemma sentiment_value_ok x :
  sentiment_ok {| score := x;
                  label := if Np.Qltb 0 x then "POSITIVE"%string else "NEGATIVE"%string |}.
Proof.
  unfold sentiment_ok. simpl. destruct (Np.Qltb 0 x) eqn:Hx.
  - left. split; [reflexivity | now apply Qltb_true].
  - right. split; [reflexivity | now apply Qltb_false].
Qed.

Section StateOk.

Variable E : Env.

Lemma fetch_respects_values (R : World -> World -> Prop) (F : frame R)
      (Pv : DataFrame -> Prop) tickers period :
  (forall k df w, Pv df -> R w (snd (update_state (set_portfolio k df) w))) ->
  (forall df, df_empty df = false -> Pv df) ->
  respects R (fetch_portfolio_data E tickers period).
Proof.
  intros Hw Hv. unfold fetch_portfolio_data.
  apply respects_bind; [assumption| |intros; now apply respects_ret].
  generalize (@nil string).
  induction (map (fun t => upper (strip t)) (split "," tickers)) as [|t l IH];
    intros acc; simpl; [now apply respects_ret|].
  apply respects_bind; [assumption| |intros; apply IH].
  unfold fetch_ticker. apply respects_try; [assumption| |intros; now apply respects_ret].
  apply respects_bind; [assumption|now apply respects_external|].
  intros df. destruct (df_empty df) eqn:Hdf; simpl; [now apply respects_ret|].
  apply respects_bind; [assumption| |intros; now apply respects_ret].
  intros w0. apply Hw, Hv, Hdf.
Qed.

Lemma tools_maintain_keys c :
  respects (maintains (fun s => guarded_keys s /\ upper_keys s)) (invoke_tool E c).
Proof.
  intros w [Hg Hu]. destruct (invoke_tool_sound E c w) as [Hev _].
  split; [exact (evolves_guarded _ _ Hev Hg) | exact (evolves_upper _ _ Hev Hu)].
Qed.

Lemma tools_maintain_shape c :
  respects (maintains (fun s => distinct_keys s
                                /\ entries_ok (fun df => df <> []) (portfolio s)))
           (invoke_tool E c).
Proof.
  set (P := fun s => distinct_keys s /\ entries_ok (fun df => df <> []) (portfolio s)).
  destruct c as [tickers period|tickers|ticker days|ticker|]; simpl.
  - apply (fetch_respects_values _ (maintains_frame P) (fun df => df <> [])).
    + intros k df w0 Hdf ((H1 & H2 & H3 & H4) & H5).
      repeat split; simpl; auto using nodup_keys_set. now apply entries_ok_set.
    + intros [|b df] H; [discriminate H | discriminate].
  - apply risk_respects; [apply maintains_frame|].
    intros k v w0 ((H1 & H2 & H3 & H4) & H5).
    repeat split; simpl; auto using nodup_keys_set.
  - apply forecast_respects; [apply maintains_frame|].
    intros k v w0 ((H1 & H2 & H3 & H4) & H5).
    repeat split; simpl; auto using nodup_keys_set.
  - apply sentiment_respects; [apply maintains_frame|].
    intros k v w0 ((H1 & H2 & H3 & H4) & H5).
    repeat split; simpl; auto using nodup_keys_set.
  - apply compare_respects, maintains_frame.
Qed.

Lemma tools_maintain_forecasts c :
  respects (maintains (fun s => entries_ok forecast_ok (forecasts s))) (invoke_tool E c).
Proof.
  destruct c as [tickers period|tickers|ticker days|ticker|]; simpl.
  - apply fetch_respects; [apply maintains_frame | intros k v w0 H; exact H].
  - apply risk_respects; [apply maintains_frame | intros k v w0 H; exact H].
  - apply (forecast_respects_values E _ (maintains_frame _) forecast_ok).
    + intros k f w0 Hf H. simpl. now apply entries_ok_set.
    + intros cur pred. unfold forecast_ok. reflexivity.
  - apply sentiment_respects; [apply maintains_frame | intros k v w0 H; exact H].
  - apply compare_respects, maintains_frame.
Qed.

Lemma tools_maintain_sentiment c :
  respects (maintains (fun s => entries_ok sentiment_ok (sentiment s))) (invoke_tool E c).
Proof.
  destruct c as [tickers period|tickers|ticker days|ticker|]; simpl.
  - apply fetch_respects; [apply maintains_frame | intros k v w0 H; exact H].
  - apply risk_respects; [apply maintains_frame | intros k v w0 H; exact H].
  - apply forecast_respects; [apply maintains_frame | intros k v w0 H; exact H].
  - apply (sentiment_respects_values E _ (maintains_frame _) sentiment_ok).
    + intros k s w0 Hs H. simpl. now apply entries_ok_set.
    + apply sentiment_value_ok.
  - apply compare_respects, maintains_frame.
Qed.

Lemma tools_maintain_state_ok c : respects (maintains state_ok) (invoke_tool E c).
Proof.
  intros w (Hg & Hu & Hd & Hp & Hf & Hs).
  destruct (tools_maintain_keys c w (conj Hg Hu)) as [Hg' Hu'].
  destruct (tools_maintain_shape c w (conj Hd Hp)) as [Hd' Hp'].
  pose proof (tools_maintain_forecasts c w Hf) as Hf'.
  pose proof (tools_maintain_sentiment c w Hs) as Hs'.
  exact (conj Hg' (conj Hu' (conj Hd' (conj Hp' (conj Hf' Hs'))))).
Qed.

Lemma state_ok_empty : state_ok empty_state.
Proof.
  split; [exact guarded_empty|]. split; [exact upper_empty|].
  repeat split; constructor.
Qed.

Lemma run_calls_state_ok calls w :
  state_ok (DATA_STATE (run_calls E calls (snd (reset_state w)))).
Proof.
  apply (run_calls_respects_tools E _ (maintains_frame state_ok) calls
           tools_maintain_state_ok).
  exact state_ok_empty.
Qed.

End StateOk.

Section WriteSets.

Variable E : Env.

(** X1. Each tool writes its own mapping only: Fetch leaves [forecasts],
    [risk_metrics] and [sentiment] as they were, Risk leaves [portfolio],
    [forecasts] and [sentiment], Forecast leaves [portfolio], [risk_metrics]
    and [sentiment], Sentiment leaves [portfolio], [forecasts] and
    [risk_metrics], whatever the outcome (exceptions included); Ranking
    returns without raising and leaves the whole world as it was. *)
Theorem tools_write_own_mapping (w : World) :
  (forall tickers period,
      let s' := DATA_STATE (snd (fetch_portfolio_data E tickers period w)) in
      forecasts s' = forecasts (DATA_STATE w)
      /\ risk_metrics s' = risk_metrics (DATA_STATE w)
      /\ sentiment s' = sentiment (DATA_STATE w))
  /\ (forall tickers,
      let s' := DATA_STATE (snd (calculate_risk_metrics E tickers w)) in
      portfolio s' = portfolio (DATA_STATE w)
      /\ forecasts s' = forecasts (DATA_STATE w)
      /\ sentiment s' = sentiment (DATA_STATE w))
  /\ (forall ticker days,
      let s' := DATA_STATE (snd (ensemble_forecast E ticker days w)) in
      portfolio s' = portfolio (DATA_STATE w)
      /\ risk_metrics s' = risk_metrics (DATA_STATE w)
      /\ sentiment s' = sentiment (DATA_STATE w))
  /\ (forall ticker,
      let s' := DATA_STATE (snd (analyze_sentiment E ticker w)) in
      portfolio s' = portfolio (DATA_STATE w)
      /\ forecasts s' = forecasts (DATA_STATE w)
      /\ risk_metrics s' = risk_metrics (DATA_STATE w))
  /\ exists report, compare_portfolio w = (inr report, w).
Proof.
  split; [|split; [|split; [|split]]].
  - intros tickers period.
    pose proof (fetch_respects E _ (keeps_frame (fun s => (forecasts s, risk_metrics s, sentiment s)))
                  tickers period (fun _ _ _ => eq_refl) w) as H.
    unfold keeps in H. now injection H.
  - intros tickers.
    pose proof (risk_respects E _ (keeps_frame (fun s => (portfolio s, forecasts s, sentiment s)))
                  tickers (fun _ _ _ => eq_refl) w) as H.
    unfold keeps in H. now injection H.
  - intros ticker days.
    pose proof (forecast_respects E _ (keeps_frame (fun s => (portfolio s, risk_metrics s, sentiment s)))
                  ticker days (fun _ _ _ => eq_refl) w) as H.
    unfold keeps in H. now injection H.
  - intros ticker.
    pose proof (sentiment_respects E _ (keeps_frame (fun s => (portfolio s, forecasts s, risk_metrics s)))
                  ticker (fun _ _ _ => eq_refl) w) as H.
    unfold keeps in H. now injection H.
  - rewrite compare_eq. eexists. reflexivity.
Qed.

(** X2. No tool removes or reorders an entry: after any sequence of tool
    invocations, the keys each of the four mappings had are still there, in
    the same order, new keys coming after them. *)
Theorem tools_keep_keys (calls : list tool_call) (w : World) :
  keys_kept w (run_calls E calls w).
Proof.
  destruct keys_kept_writes as (H1 & H2 & H3 & H4).
  now apply run_calls_respects; [apply keys_kept_frame| | | |].
Qed.

End WriteSets.



Section SentimentFacts.

Variable E : Env.

Lemma analyze_sentiment_eq ticker w :
  analyze_sentiment E ticker w =
    if ENABLE_SENTIMENT (config E) then
      let x := random_uniform E (List.length (log w)) in
      let s := {| score := x;
                  label := if Np.Qltb 0 x then "POSITIVE"%string else "NEGATIVE"%string |} in
      (inr ("📰 " ++ ticker ++ " Sentiment: " ++ label s
            ++ " (" ++ format_f false 2 x ++ ")")%string,
       snd (update_state (set_sentiment ticker s) (log_event ev_random w)))
    else (inr SENTIMENT_DISABLED, w).
Proof.
  unfold analyze_sentiment. destruct (ENABLE_SENTIMENT (config E)); reflexivity.
Qed.

(** X3. The Sentiment step returns its "disabled" notice if and only if the
    configuration disables sentiment, and whenever it returns that notice
    the world is untouched: nothing is stored and no random number is
    drawn. *)
Theorem sentiment_disabled_iff (ticker : string) (w : World) :
  (fst (analyze_sentiment E ticker w) = inr SENTIMENT_DISABLED
   <-> ENABLE_SENTIMENT (config E) = false)
  /\ (fst (analyze_sentiment E ticker w) = inr SENTIMENT_DISABLED
      <-> analyze_sentiment E ticker w = (inr SENTIMENT_DISABLED, w)).
Proof.
  rewrite analyze_sentiment_eq.
  destruct (ENABLE_SENTIMENT (config E)); cbv zeta; simpl fst.
  - split; split; intros H; discriminate H.
  - split; split; reflexivity.
Qed.


(** X4. When sentiment is enabled the step never raises, draws exactly one
    random number and stores it under the ticker as given, labelled POSITIVE
    when it is above zero and NEGATIVE otherwise (zero included), replacing
    any earlier entry of that ticker; the entries of the other tickers stay,
    and the returned line shows the stored label. *)
Theorem sentiment_stores_draw (ticker : string) (w : World) :
  ENABLE_SENTIMENT (config E) = true ->
  exists w' s,
    analyze_sentiment E ticker w
      = (inr ("📰 " ++ ticker ++ " Sentiment: " ++ label s
              ++ " (" ++ format_f false 2 (score s) ++ ")")%string, w')
    /\ score s = random_uniform E (List.length (log w))
    /\ sentiment_ok s
    /\ log w' = (log w ++ [ev_random])%list
    /\ Dict.get ticker (sentiment (DATA_STATE w')) = Some s
    /\ forall other, other <> ticker ->
                     Dict.get other (sentiment (DATA_STATE w'))
                     = Dict.get other (sentiment (DATA_STATE w)).
Proof.
  intros Hon. rewrite analyze_sentiment_eq, Hon. cbv zeta.
  eexists.
  exists {| score := random_uniform E (List.length (log w));
            label := if Np.Qltb 0 (random_uniform E (List.length (log w)))
                     then "POSITIVE"%string else "NEGATIVE"%string |}.
  split; [reflexivity|]. simpl.
  split; [reflexivity|]. split; [apply sentiment_value_ok|].
  split; [reflexivity|]. split; [apply DictFacts.get_set_same|].
  intros other Hne. rewrite DictFacts.get_set.
  destruct (String.eqb other ticker) eqn:Heq; [|reflexivity].
  apply String.eqb_eq in Heq. contradiction.
Qed.

(** X5. Score and label never disagree: after any sequence of tool
    invocations from the reset state, every stored sentiment entry is
    labelled POSITIVE with a score above zero or NEGATIVE with a score of
    zero or less. *)
Theorem sentiment_labels_agree (calls : list tool_call) (w : World) :
  entries_ok sentiment_ok
    (sentiment (DATA_STATE (run_calls E calls (snd (reset_state w))))).
Proof. apply run_calls_state_ok. Qed.

(** X6. With sentiment disabled by the configuration no tool ever writes
    [sentiment]: the mapping stays as it was through any sequence of tool
    invocations. *)
Theorem sentiment_off_stays (calls : list tool_call) (w : World) :
  ENABLE_SENTIMENT (config E) = false ->
  sentiment (DATA_STATE (run_calls E calls w)) = sentiment (DATA_STATE w).
Proof.
  intros Hoff.
  apply (run_calls_respects_tools E _ (keeps_frame sentiment) calls).
  intros [tickers period|tickers|ticker days|ticker|].
  - apply fetch_respects; [apply keeps_frame | intros k v w0; reflexivity].
  - apply risk_respects; [apply keeps_frame | intros k v w0; reflexivity].
  - apply forecast_respects; [apply keeps_frame | intros k v w0; reflexivity].
  - intros w0. simpl. rewrite analyze_sentiment_eq, Hoff. reflexivity.
  - apply compare_respects, keeps_frame.
Qed.

End SentimentFacts.

(** X4 on the ticker "zzz": the draw at an empty log is -0.5. *)
Lemma sentiment_stores_draw_witness :
  Dict.get "zzz" (sentiment (DATA_STATE (snd (analyze_sentiment Demo.quiet "zzz" initial_world))))
  = Some {| score := (-5 # 10)%Q; label := "NEGATIVE" |}.
Proof.
  destruct (sentiment_stores_draw Demo.quiet "zzz" initial_world eq_refl)
    as (w' & s & Hrun & Hscore & [[_ Hpos]|[Hlabel _]] & _ & Hget & _).
  - rewrite Hscore in Hpos. vm_compute in Hpos. discriminate Hpos.
  - rewrite Hrun. simpl snd. rewrite Hget. destruct s as [x l]. simpl in *. now subst.
Defined.

(** X6 under a configuration without news credential: a manual pipeline that
    asks for sentiment stores none. *)
Lemma sentiment_off_witness :
  let E := Scenario.env Scenario.without_news (Demo.market 3) (fun _ => Demo.flat_prophet)
                        Demo.llm_direct Scenario.keep_going 25 in
  sentiment (DATA_STATE (run_calls E [call_fetch_portfolio_data "AAA" None;
                                      call_analyze_sentiment "AAA";
                                      call_analyze_sentiment "BBB"] initial_world)) = [].
Proof.
  cbv zeta.
  exact (sentiment_off_stays
           (Scenario.env Scenario.without_news (Demo.market 3) (fun _ => Demo.flat_prophet)
                         Demo.llm_direct Scenario.keep_going 25)
           _ initial_world eq_refl).
Defined.

(** ** The Forecast step *)

Section ForecastOutcomes.

Variable E : Env.

Lemma require_samples_cases {A} (X : list A) w :
  (X = [] /\ exists e, require_samples X w = (inl e, w))
  \/ (X <> [] /\ require_samples X w = (inr tt, w)).
Proof.
  destruct X; [left | right]; split; try reflexivity; try discriminate.
  eexists. reflexivity.
Qed.

Lemma blend_world p l w : snd (blend p l w) = w.
Proof. unfold blend. now destruct (Np.broadcast _ _ _). Qed.

(** The three outcomes of the step. *)
Lemma forecast_outcomes ticker days w :
  let horizon := match days with None => DEFAULT_FORECAST_DAYS (config E) | Some d => d end in
  let r := ensemble_forecast E ticker days w in
  (Dict.get ticker (portfolio (DATA_STATE w)) = None /\ r = (inr (NOT_LOADED ticker), w))
  \/ (exists df e, Dict.get ticker (portfolio (DATA_STATE w)) = Some df
                   /\ fst r = inl e /\ DATA_STATE (snd r) = DATA_STATE w)
  \/ (exists df f, Dict.get ticker (portfolio (DATA_STATE w)) = Some df
                   /\ df <> [] /\ (0 < horizon)%Z
                   /\ fst r = inr (forecast_summary ticker f)
                   /\ DATA_STATE (snd r) = set_forecasts ticker f (DATA_STATE w)
                   /\ current f = List.last (map Close df) 0%Q
                   /\ forecast_ok f
                   /\ exists blended,
                       log (snd r)
                       = (log w ++ [ev_prophet (history_of df) horizon;
                                    ev_savefig (plot_path_of E ticker) (history_of df)
                                               (combine (forecast_dates_of df horizon) blended)])%list
                       /\ List.length blended = Z.to_nat horizon
                       /\ predicted f = List.last blended 0%Q).
Proof.
  cbv zeta. unfold ensemble_forecast. cbv zeta.
  set (horizon := match days with None => DEFAULT_FORECAST_DAYS (config E) | Some d => d end).
  rewrite bind_get_state.
  destruct (Dict.get ticker (portfolio (DATA_STATE w))) as [df|]; [right | now left].
  fold (history_of df). rewrite bind_eq, external_eq.
  destruct (prophet_yhat E (List.length (log w)) (history_of df) horizon) as [e|yhat].
  { left. exists df, e. repeat split. }
  set (w1 := log_event (ev_prophet (history_of df) horizon) w).
  rewrite bind_eq.
  destruct (require_samples_cases
              (map inject_Z (map (fun d => (d - Np.minimum 0 (map Date df))%Z) (map Date df))) w1)
    as [[_ [e ->]]|[HX ->]].
  { left. exists df, e. repeat split. }
  rewrite bind_eq.
  set (last_x := List.last (map (fun d => (d - Np.minimum 0 (map Date df))%Z) (map Date df)) 0%Z).
  destruct (require_samples_cases (Np.arange (last_x + 1) (last_x + horizon + 1)) w1)
    as [[_ [e ->]]|[HF ->]].
  { left. exists df, e. repeat split. }
  rewrite bind_eq.
  pose proof (blend_world (Np.slice_from (- horizon) yhat)
                (Np.lr_predict
                   (Np.lr_fit (map inject_Z (map (fun d => (d - Np.minimum 0 (map Date df))%Z)
                                                 (map Date df))) (map Close df))
                   (map inject_Z (Np.arange (last_x + 1) (last_x + horizon + 1)))) w1) as Hb.
  destruct (blend _ _ w1) as [[e|blended] w2]; simpl in Hb; subst w2.
  { left. exists df, e. repeat split. }
  rewrite bind_eq. fold (forecast_dates_of df horizon).
  destruct (Nat.eqb_spec (List.length (forecast_dates_of df horizon)) (List.length blended))
    as [Hlen|Hlen].
  2:{ left. eexists df, _. repeat split. }
  change (ret tt w1) with (@inr exn unit tt, w1). cbv beta iota.
  rewrite bind_eq, external_eq.
  fold (plot_path_of E ticker).
  destruct (plt_savefig E (List.length (log w1)) (plot_path_of E ticker)) as [e|[]].
  { left. exists df, e. repeat split. }
  right. eexists df, _. rewrite !bind_eq. unfold update_state, ret. cbv beta iota.
  assert (Hh : (0 < horizon)%Z).
  { destruct (Z.ltb_spec 0 horizon) as [H|H]; [exact H|]. exfalso. apply HF.
    unfold Np.arange. replace (Z.to_nat (last_x + horizon + 1 - (last_x + 1))) with 0%nat by lia.
    reflexivity. }
  split; [reflexivity|]. split; [now destruct df|]. split; [exact Hh|].
  split; [reflexivity|]. split; [reflexivity|]. split; [reflexivity|].
  split; [unfold forecast_ok; reflexivity|].
  exists blended. split; [simpl; now rewrite <- app_assoc|]. split; [|reflexivity].
  rewrite <- Hlen. unfold forecast_dates_of. cbv zeta.
  rewrite NpFacts.length_arange. f_equal. lia.
Qed.

(** X7. The Forecast step is all or nothing. On a ticker absent from
    [portfolio], and only then, it returns the "not loaded" string and
    touches nothing (no model is fitted, no chart written). On a loaded
    ticker it either raises, leaving the shared state as it was, or returns
    the summary line of the entry it stored under the ticker: last close,
    last blended value and their percentage change, after exactly one call
    of the seasonal model and one chart written under the ticker's name. *)
Theorem forecast_all_or_nothing (ticker : string) (days : option Z) (w : World) :
  let horizon := match days with None => DEFAULT_FORECAST_DAYS (config E) | Some d => d end in
  let r := ensemble_forecast E ticker days w in
  (fst r = inr (NOT_LOADED ticker) <-> Dict.get ticker (portfolio (DATA_STATE w)) = None)
  /\ (fst r = inr (NOT_LOADED ticker) <-> r = (inr (NOT_LOADED ticker), w))
  /\ ((exists e, fst r = inl e /\ DATA_STATE (snd r) = DATA_STATE w)
      \/ r = (inr (NOT_LOADED ticker), w)
      \/ exists df f blended,
          Dict.get ticker (portfolio (DATA_STATE w)) = Some df
          /\ fst r = inr (forecast_summary ticker f)
          /\ DATA_STATE (snd r) = set_forecasts ticker f (DATA_STATE w)
          /\ current f = List.last (map Close df) 0%Q
          /\ predicted f = List.last blended 0%Q
          /\ forecast_ok f
          /\ log (snd r)
             = (log w ++ [ev_prophet (history_of df) horizon;
                          ev_savefig (plot_path_of E ticker) (history_of df)
                                     (combine (forecast_dates_of df horizon) blended)])%list).
Proof.
  cbv zeta.
  destruct (forecast_outcomes ticker days w)
    as [[Hg Hr]|[(df & e & Hg & Hr & Hs)|(df & f & Hg & _ & _ & Hr & Hs & Hc & Hok & (bl & Hl & _ & Hp))]].
  - rewrite Hr, Hg. simpl. split; [tauto|]. split; [tauto|]. right. now left.
  - rewrite Hg. split; [|split].
    + rewrite Hr. split; discriminate.
    + split; intros H; rewrite H in Hr; discriminate Hr.
    + left. now exists e.
  - rewrite Hg. split; [|split].
    + rewrite Hr. split; intros H; discriminate H.
    + split; intros H; rewrite H in Hr; discriminate Hr.
    + right. right. exists df, f, bl. repeat split; assumption.
Qed.

(** X8. A horizon of zero days or less never yields a forecast: on a loaded
    ticker the step raises and stores nothing. *)
Theorem forecast_needs_positive_horizon (ticker : string) (days : option Z) (w : World) :
  let horizon := match days with None => DEFAULT_FORECAST_DAYS (config E) | Some d => d end in
  (horizon <= 0)%Z ->
  Dict.mem ticker (portfolio (DATA_STATE w)) = true ->
  exists e, fst (ensemble_forecast E ticker days w) = inl e
            /\ DATA_STATE (snd (ensemble_forecast E ticker days w)) = DATA_STATE w.
Proof.
  cbv zeta. intros Hh Hm.
  destruct (forecast_outcomes ticker days w)
    as [[Hg _]|[(df & e & _ & Hr & Hs)|(df & f & _ & _ & Hpos & _)]].
  - unfold Dict.mem in Hm. now rewrite Hg in Hm.
  - now exists e.
  - lia.
Qed.

End ForecastOutcomes.

(** X8 on AAA, loaded, and a horizon of zero days. *)
Lemma forecast_horizon_witness :
  exists e,
    fst (ensemble_forecast Demo.quiet "AAA" (Some 0%Z) (Demo.world_of Demo.stored)) = inl e
    /\ forecasts (DATA_STATE (snd (ensemble_forecast Demo.quiet "AAA" (Some 0%Z)
                                    (Demo.world_of Demo.stored))))
       = forecasts Demo.stored.
Proof.
  destruct (forecast_needs_positive_horizon Demo.quiet "AAA" (Some 0%Z)
              (Demo.world_of Demo.stored)) as (e & He & Hs).
  - simpl. lia.
  - reflexivity.
  - exists e. split; [exact He|]. now rewrite Hs.
Defined.

(** ** The Risk step *)

Section RiskReport.

Variable E : Env.

Lemma beta_of_pure returns spy_returns w w' :
  fst (beta_of returns spy_returns w) = fst (beta_of returns spy_returns w').
Proof.
  unfold beta_of. cbv zeta.
  destruct (0 <? _)%nat; [|reflexivity].
  rewrite !bind_eq, !np_cov_eq.
  destruct (_ =? _)%nat; reflexivity.
Qed.

Lemma beta_of_total returns spy_returns w b :
  beta_of returns spy_returns w = (inr b, w) ->
  forall w', beta_of returns spy_returns w' = (inr b, w').
Proof.
  intros H w'.
  pose proof (beta_of_pure returns spy_returns w' w) as Hf.
  pose proof (beta_of_world returns spy_returns w') as Hs.
  rewrite H in Hf. destruct (beta_of returns spy_returns w') as [r w1].
  simpl in *. now subst.
Qed.

Lemma risk_entry_unique spy df m1 m2 :
  risk_entry E spy df m1 -> risk_entry E spy df m2 -> m1 = m2.
Proof.
  intros (Hs1 & Hv1 & Ho1 & Hb1) (Hs2 & Hv2 & Ho2 & Hb2).
  pose proof (Hb1 (Demo.world_of empty_state)) as B1.
  rewrite (Hb2 (Demo.world_of empty_state)) in B1.
  destruct m1, m2. simpl in *. injection B1 as ->. congruence.
Qed.

Lemma beta_of_never_raises returns spy_returns w :
  spy_returns <> [] -> exists b, beta_of returns spy_returns w = (inr b, w).
Proof.
  intros Hspy. destruct returns as [|r returns].
  - exists 1%Q. reflexivity.
  - eexists. apply beta_of_overlap. destruct spy_returns; [contradiction|]. simpl. lia.
Qed.

Lemma risk_loop_report spy l :
  spy <> [] ->
  forall rep w,
  exists new w',
    risk_loop E spy l rep w = (inr (rep ++ new)%list, w')
    /\ log w' = log w
    /\ portfolio (DATA_STATE w') = portfolio (DATA_STATE w)
    /\ Forall2 (risk_report_line E spy (DATA_STATE w) (DATA_STATE w'))
               (filter (fun t => Dict.mem t (portfolio (DATA_STATE w))) l) new
    /\ (forall t df m, Dict.get t (portfolio (DATA_STATE w)) = Some df ->
                       risk_entry E spy df m ->
                       Dict.get t (risk_metrics (DATA_STATE w)) = Some m ->
                       Dict.get t (risk_metrics (DATA_STATE w')) = Some m)
    /\ (forall t, (forall df, In t l -> Dict.get t (portfolio (DATA_STATE w)) = Some df ->
                              (List.length (Np.pct_change (map Close df)) < 30)%nat) ->
                  Dict.get t (risk_metrics (DATA_STATE w'))
                  = Dict.get t (risk_metrics (DATA_STATE w))).
Proof.
  intros Hspy. induction l as [|t rest IH]; intros rep w.
  - exists [], w. simpl. rewrite app_nil_r. repeat split; auto.
  - simpl risk_loop. rewrite bind_eq.
    destruct (risk_ticker_cases E spy t rep w)
      as [[Hg ->]|[(df & Hg & Hlen & ->)|[(df & e & Hg & Hlen & Hb & _)
                                         |(df & b & Hg & Hlen & Hb & ->)]]].
    + destruct (IH rep w) as (new & w' & Hr & Hl & Hp & Hf & Hk & Hu).
      exists new, w'. simpl filter. unfold Dict.mem at 1. rewrite Hg.
      repeat split; auto. intros t' H. apply Hu. intros df Hin. apply H. now right.
    + destruct (IH (rep ++ ["⚠️  " ++ t ++ ": Insufficient data"]%string)%list w)
        as (new & w' & Hr & Hl & Hp & Hf & Hk & Hu).
      exists (("⚠️  " ++ t ++ ": Insufficient data")%string :: new), w'.
      simpl filter. unfold Dict.mem at 1. rewrite Hg.
      rewrite Hr, <- app_assoc. repeat split; auto.
      * constructor; [|exact Hf]. exists df. split; [exact Hg|].
        apply Nat.ltb_lt in Hlen. now rewrite Hlen.
      * intros t' H. apply Hu. intros df' Hin. apply H. now right.
    + destruct (beta_of_never_raises (Np.pct_change (map Close df)) spy w Hspy) as [b Hb'].
      rewrite Hb' in Hb. discriminate Hb.
    + cbv zeta.
      set (m := {| sharpe := sharpe_of E (Np.pct_change (map Close df)); beta := b;
                   var_95 := Np.percentile (Np.pct_change (map Close df)) 5;
                   volatility := (std E (Np.pct_change (map Close df)) * np_sqrt E 252)%Q |}).
      set (w1 := snd (update_state (set_risk_metrics t m) w)).
      assert (Hm : risk_entry E spy df m).
      { repeat split. intros w0. exact (beta_of_total _ _ _ _ Hb w0). }
      destruct (IH (rep ++ [risk_summary t m])%list w1)
        as (new & w' & Hr & Hl & Hp & Hf & Hk & Hu).
      exists (risk_summary t m :: new), w'.
      simpl filter. unfold Dict.mem at 1. rewrite Hg.
      rewrite Hr, <- app_assoc. split; [reflexivity|]. split; [exact Hl|].
      split; [exact Hp|]. split; [|split].
      * constructor.
        -- exists df. split; [exact Hg|].
           apply Nat.ltb_ge in Hlen. rewrite Hlen.
           exists m. split; [exact Hm|]. split; [reflexivity|].
           apply (Hk t df m); [exact Hg | exact Hm |].
           apply DictFacts.get_set_same.
        -- exact Hf.
      * intros t' df' m' Hg' Hm' Hs'. apply (Hk t' df' m'); [exact Hg' | exact Hm' |].
        unfold w1. simpl. rewrite DictFacts.get_set.
        destruct (String.eqb_spec t' t) as [->|Hne]; [|exact Hs'].
        rewrite Hg in Hg'. injection Hg' as <-.
        f_equal. exact (risk_entry_unique _ _ _ _ Hm Hm').
      * intros t' H. rewrite Hu.
        -- unfold w1. simpl. rewrite DictFacts.get_set.
           destruct (String.eqb_spec t' t) as [->|Hne]; [|reflexivity].
           specialize (H df (or_introl eq_refl) Hg). lia.
        -- intros df' Hin. apply H. now right.
Qed.

Lemma risk_lines_of_report spy st st' ts report :
  Forall2 (risk_report_line E spy st st') ts report -> Forall risk_line report.
Proof.
  induction 1 as [|t line ts report (df & _ & H) _ IH]; constructor; [|exact IH].
  destruct (_ <? _)%nat.
  - left. subst line. reflexivity.
  - right. destruct H as (m & _ & -> & _). reflexivity.
Qed.

(** X10. With a portfolio loaded and a benchmark of at least two bars, the
    Risk step never raises and makes one external call, the SPY download.
    Its report has one line per requested ticker that is loaded, in request
    order: "Insufficient data" for a frame with fewer than 30 returns, and
    otherwise the summary of the metrics that are stored under the ticker
    when the step ends. Entries of tickers for which nothing was computed
    are as before. *)
Theorem risk_report_per_ticker (tickers : option string) (w : World) (spy : DataFrame) :
  let st := DATA_STATE w in
  let spy_returns := Np.pct_change (map Close spy) in
  let requested :=
    filter (fun t => Dict.mem t (portfolio st)) (risk_ticker_list tickers st) in
  portfolio st <> [] ->
  yf_download E (List.length (log w)) "SPY" "2y" = inr spy ->
  spy_returns <> [] ->
  exists report w',
    calculate_risk_metrics E tickers w
    = (inr (match report with
            | [] => "❌ No metrics calculated"%string
            | _ => join (nl ++ nl) report
            end), w')
    /\ log w' = (log w ++ [ev_download "SPY" "2y"])%list
    /\ Forall2 (risk_report_line E spy_returns st (DATA_STATE w')) requested report
    /\ forall t, (forall df, In t requested -> Dict.get t (portfolio st) = Some df ->
                             (List.length (Np.pct_change (map Close df)) < 30)%nat) ->
                 Dict.get t (risk_metrics (DATA_STATE w')) = Dict.get t (risk_metrics st).
Proof.
  cbv zeta. intros Hne Hd Hspy.
  unfold calculate_risk_metrics. rewrite bind_get_state.
  destruct (portfolio (DATA_STATE w)) as [|kv d] eqn:Hp; [contradiction|].
  cbv beta iota delta [Dict.is_empty]. rewrite bind_eq, fetch_benchmark_eq, Hd.
  rewrite bind_eq.
  destruct (risk_loop_report (Np.pct_change (map Close spy))
              (risk_ticker_list tickers (DATA_STATE w)) Hspy []
              (log_event (ev_download "SPY" "2y") w))
    as (report & w' & Hr & Hl & Hpf & Hf & _ & Hu).
  rewrite Hr. simpl app. exists report, w'. unfold ret.
  split; [reflexivity|]. split; [exact Hl|]. simpl in Hf, Hu. rewrite Hp in Hf, Hu.
  split; [exact Hf|].
  intros t H. apply Hu. intros df Hin Hg. apply H; [|exact Hg].
  apply filter_In. split; [exact Hin|]. unfold Dict.mem. now rewrite Hg.
Qed.

Lemma risk_line_not_error sep x l (msg : string) :
  risk_line x ->
  startswith msg "⚠️  " = false -> startswith msg "📊 " = false ->
  join sep (x :: l) <> msg.
Proof.
  intros [H|H] H1 H2 Heq;
    apply (PyStrFacts.startswith_join _ sep _ l) in H; rewrite Heq in H; congruence.
Qed.

Lemma risk_loop_skips spy l : forall rep w,
  Forall (fun t => Dict.mem t (portfolio (DATA_STATE w)) = false) l ->
  risk_loop E spy l rep w = (inr rep, w).
Proof.
  induction l as [|t rest IH]; intros rep w H; [reflexivity|].
  inversion H as [|? ? Ht Hrest]; subst. simpl risk_loop. rewrite bind_eq.
  destruct (risk_ticker_cases E spy t rep w)
    as [[Hg ->]|[(df & Hg & _)|[(df & e & Hg & _)|(df & b & Hg & _)]]];
    try (unfold Dict.mem in Ht; rewrite Hg in Ht; discriminate Ht).
  now apply IH.
Qed.

Lemma risk_ticker_grows spy t rep w rep' w' :
  risk_ticker E spy t rep w = (inr rep', w') ->
  portfolio (DATA_STATE w') = portfolio (DATA_STATE w)
  /\ ((Dict.mem t (portfolio (DATA_STATE w)) = false /\ rep' = rep)
      \/ exists x, rep' = (rep ++ [x])%list).
Proof.
  destruct (risk_ticker_cases E spy t rep w)
    as [[Hg ->]|[(df & Hg & _ & ->)|[(df & e & Hg & _ & _ & ->)|(df & b & Hg & _ & _ & ->)]]];
    intros [= <- <-].
  - split; [reflexivity|]. left. unfold Dict.mem. now rewrite Hg.
  - split; [reflexivity|]. right. eexists. reflexivity.
  - split; [reflexivity|]. right. eexists. reflexivity.
Qed.

Lemma risk_loop_empty spy l : forall rep w w',
  risk_loop E spy l rep w = (inr [], w') ->
  rep = [] /\ Forall (fun t => Dict.mem t (portfolio (DATA_STATE w)) = false) l.
Proof.
  induction l as [|t rest IH]; intros rep w w'; simpl risk_loop.
  - intros [= -> _]. split; constructor.
  - rewrite bind_eq.
    destruct (risk_ticker E spy t rep w) as [[e|rep1] w1] eqn:Ht; [discriminate|].
    intros Hl. apply IH in Hl as [-> Hrest].
    apply risk_ticker_grows in Ht as [Hp [[Hm ->]|[x Hx]]].
    + split; [reflexivity|]. constructor; [exact Hm|]. now rewrite <- Hp.
    + now destruct rep.
Qed.

(** X11. The two other fixed answers of the Risk step, on a loaded
    portfolio. It answers that the benchmark could not be fetched exactly
    when the SPY download raised, and then nothing was computed or stored.
    It answers "No metrics calculated" exactly when the download returned
    and none of the requested tickers is loaded. *)
Theorem risk_fixed_answers (tickers : option string) (w : World) :
  let st := DATA_STATE w in
  let r := calculate_risk_metrics E tickers w in
  portfolio st <> [] ->
  (fst r = inr NO_BENCHMARK
   <-> exists e, yf_download E (List.length (log w)) "SPY" "2y" = inl e)
  /\ (fst r = inr NO_BENCHMARK
      -> r = (inr NO_BENCHMARK, log_event (ev_download "SPY" "2y") w))
  /\ (fst r = inr "❌ No metrics calculated"%string
      <-> (exists spy, yf_download E (List.length (log w)) "SPY" "2y" = inr spy)
          /\ Forall (fun t => Dict.mem t (portfolio st) = false)
                    (risk_ticker_list tickers st)).
Proof.
  cbv zeta. intros Hne.
  unfold calculate_risk_metrics. rewrite bind_get_state.
  destruct (portfolio (DATA_STATE w)) as [|kv d] eqn:Hp; [contradiction|].
  cbv beta iota delta [Dict.is_empty]. rewrite bind_eq, fetch_benchmark_eq.
  destruct (yf_download E (List.length (log w)) "SPY" "2y") as [e|spy].
  { split; [|split].
    - split; [intros _; now exists e | reflexivity].
    - reflexivity.
    - split; [intros H; discriminate H | intros [[spy H] _]; discriminate H]. }
  rewrite bind_eq.
  set (w1 := log_event (ev_download "SPY" "2y") w).
  assert (Hp1 : portfolio (DATA_STATE w1) = kv :: d) by exact Hp.
  destruct (risk_loop E (Np.pct_change (map Close spy))
                      (risk_ticker_list tickers (DATA_STATE w)) [] w1)
    as [[e|rep] w2] eqn:Hloop.
  { split; [|split].
    - split; [intros H; discriminate H | intros [e' H]; discriminate H].
    - intros H; discriminate H.
    - split; [intros H; discriminate H|]. intros [_ H].
      rewrite risk_loop_skips in Hloop; [discriminate Hloop|]. now rewrite Hp1. }
  pose proof (risk_loop_lines E _ _ _ _ _ _ Hloop (Forall_nil _)) as Hlines.
  destruct rep as [|x rep].
  - apply risk_loop_empty in Hloop as [_ Hall]. rewrite Hp1 in Hall.
    split; [|split].
    + split; [intros H; discriminate H | intros [e' H]; discriminate H].
    + intros H; discriminate H.
    + split; [|reflexivity]. intros _. split; [now exists spy | exact Hall].
  - assert (Hx : risk_line x) by now inversion Hlines.
    split; [|split].
    + split; [|intros [e' H]; discriminate H].
      intros H. injection H as H.
      now apply (risk_line_not_error (nl ++ nl) x rep NO_BENCHMARK Hx) in H.
    + intros H. injection H as H.
      now apply (risk_line_not_error (nl ++ nl) x rep NO_BENCHMARK Hx) in H.
    + split.
      * intros H. injection H as H.
        now apply (risk_line_not_error (nl ++ nl) x rep "❌ No metrics calculated" Hx) in H.
      * intros [_ H]. rewrite risk_loop_skips in Hloop; [discriminate Hloop|].
        now rewrite Hp1.
Qed.

End RiskReport.

(** X10 on the stored portfolio and a market in which the benchmark trades. *)
Lemma risk_report_witness :
  exists report w',
    calculate_risk_metrics Demo.quiet None (Demo.world_of Demo.stored)
    = (inr (match report with
            | [] => "❌ No metrics calculated"%string
            | _ => join (nl ++ nl) report
            end), w')
    /\ log w' = [ev_download "SPY" "2y"].
Proof.
  destruct (risk_report_per_ticker Demo.quiet None (Demo.world_of Demo.stored)
              (Demo.frame 3 400 1))
    as (report & w' & Hr & Hl & _).
  - discriminate.
  - reflexivity.
  - vm_compute. discriminate.
  - exists report, w'. split; [exact Hr | exact Hl].
Defined.

(** X11 on the stored portfolio on a day the benchmark download fails. *)
Lemma risk_fixed_answers_witness :
  fst (calculate_risk_metrics
         (Demo.env (Scenario.market_benchmark_down 3) Demo.llm_direct 25)
         None (Demo.world_of Demo.stored)) = inr NO_BENCHMARK.
Proof.
  apply (risk_fixed_answers (Demo.env (Scenario.market_benchmark_down 3) Demo.llm_direct 25)
           None (Demo.world_of Demo.stored)).
  - discriminate.
  - eexists. reflexivity.
Defined.

(** ** The ranking *)

Lemma filter_insert_desc (q : Q) x l :
  filter (fun e => Qeq_bool (snd e) q) (insert_desc x l)
  = filter (fun e => Qeq_bool (snd e) q) (x :: l).
Proof.
  induction l as [|y r IH]; [reflexivity|].
  simpl insert_desc. destruct (Np.Qltb (snd x) (snd y)) eqn:Hlt; [|reflexivity].
  apply Qltb_true in Hlt.
  cbn [filter]. rewrite IH. cbn [filter].
  destruct (Qeq_bool (snd x) q) eqn:Hx, (Qeq_bool (snd y) q) eqn:Hy; try reflexivity.
  apply Qeq_bool_eq in Hx, Hy. rewrite Hx, Hy in Hlt. now apply Qlt_irrefl in Hlt.
Qed.

Lemma filter_sort_reverse (q : Q) l :
  filter (fun e => Qeq_bool (snd e) q) (sort_reverse l)
  = filter (fun e => Qeq_bool (snd e) q) l.
Proof.
  induction l as [|x l IH]; [reflexivity|].
  unfold sort_reverse in *. simpl fold_right. rewrite filter_insert_desc.
  simpl. now rewrite IH.
Qed.

(** X12. The ranking is stable: the tickers that share a score stand in the
    ranking in the order in which they entered [risk_metrics]. *)
Theorem ranking_stable (st : DataState) (q : Q) :
  filter (fun e => Qeq_bool (snd e) q) (ranking_of st)
  = filter (fun e => Qeq_bool (snd e) q)
           (map (fun item => (fst item, score_of (forecasts st) item)) (risk_metrics st)).
Proof. unfold ranking_of. apply filter_sort_reverse. Qed.

(** ** Invariants of the shared state *)

Section StateInvariants.

Variable E : Env.



(** X13. Whatever tools are invoked from the reset state, the four mappings
    stay dictionaries with distinct keys, every key of [portfolio] is free
    of lower-case letters, and no stored frame is empty. *)
Theorem state_well_formed (calls : list tool_call) (w : World) :
  let st := DATA_STATE (run_calls E calls (snd (reset_state w))) in
  NoDup (Dict.keys (portfolio st))
  /\ NoDup (Dict.keys (forecasts st))
  /\ NoDup (Dict.keys (risk_metrics st))
  /\ NoDup (Dict.keys (sentiment st))
  /\ Forall (fun k => has_lower k = false) (Dict.keys (portfolio st))
  /\ entries_ok (fun df => df <> []) (portfolio st).
Proof.
  cbv zeta.
  destruct (run_calls_state_ok E calls w) as (_ & Hu & (H1 & H2 & H3 & H4) & H5 & _).
  repeat split; assumption.
Qed.

Lemma risk_without_portfolio tickers w :
  portfolio (DATA_STATE w) = [] ->
  calculate_risk_metrics E tickers w = (inr NO_PORTFOLIO, w).
Proof.
  intros H. unfold calculate_risk_metrics. rewrite bind_get_state. now rewrite H.
Qed.

Lemma forecast_without_portfolio ticker days w :
  portfolio (DATA_STATE w) = [] ->
  ensemble_forecast E ticker days w = (inr (NOT_LOADED ticker), w).
Proof. intros H. apply forecast_not_loaded. now rewrite H. Qed.

(** X14. Nothing is derived before a Fetch: a sequence of tool invocations
    from the reset state that contains no Fetch stores no frame, no risk
    entry and no forecast, and in the state it leaves Risk, Forecast and
    Ranking give their fixed answers without touching anything. *)
Theorem nothing_without_fetch (calls : list tool_call) (w : World) :
  let w' := run_calls E calls (snd (reset_state w)) in
  (forall tickers period, ~ In (call_fetch_portfolio_data tickers period) calls) ->
  portfolio (DATA_STATE w') = []
  /\ risk_metrics (DATA_STATE w') = []
  /\ forecasts (DATA_STATE w') = []
  /\ (forall tickers, calculate_risk_metrics E tickers w' = (inr NO_PORTFOLIO, w'))
  /\ (forall ticker days, ensemble_forecast E ticker days w' = (inr (NOT_LOADED ticker), w'))
  /\ compare_portfolio w' = (inr NO_RISK, w').
Proof.
  cbv zeta. intros Hno.
  assert (H : forall w0,
             portfolio (DATA_STATE w0) = [] /\ risk_metrics (DATA_STATE w0) = []
             /\ forecasts (DATA_STATE w0) = [] ->
             portfolio (DATA_STATE (run_calls E calls w0)) = []
             /\ risk_metrics (DATA_STATE (run_calls E calls w0)) = []
             /\ forecasts (DATA_STATE (run_calls E calls w0)) = []).
  { induction calls as [|c calls IH]; intros w0 Hw0; [exact Hw0|].
    simpl. apply IH.
    - intros t p Hin. apply (Hno t p). now right.
    - destruct Hw0 as (Hp & Hr & Hf).
      destruct c as [tickers period|tickers|ticker days|ticker|]; simpl.
      + now elim (Hno tickers period); left.
      + rewrite risk_without_portfolio by exact Hp. auto.
      + rewrite forecast_without_portfolio by exact Hp. auto.
      + pose proof (sentiment_respects E _ (keeps_frame portfolio) ticker
                      ltac:(intros k v w1; reflexivity) w0) as K1.
        pose proof (sentiment_respects E _ (keeps_frame risk_metrics) ticker
                      ltac:(intros k v w1; reflexivity) w0) as K2.
        pose proof (sentiment_respects E _ (keeps_frame forecasts) ticker
                      ltac:(intros k v w1; reflexivity) w0) as K3.
        unfold keeps in K1, K2, K3. rewrite K1, K2, K3. auto.
      + rewrite compare_eq. auto. }
  destruct (H (snd (reset_state w))) as (Hp & Hr & Hf); [repeat split|].
  repeat split; try assumption.
  - intros tickers. now apply risk_without_portfolio.
  - intros ticker days. now apply forecast_without_portfolio.
  - rewrite compare_eq, Hr. reflexivity.
Qed.

End StateInvariants.

(** X14 on Risk, Forecast and Ranking invoked right after a reset. *)
Lemma nothing_without_fetch_witness :
  compare_portfolio
    (run_calls Demo.quiet
       [call_calculate_risk_metrics None; call_ensemble_forecast "AAA" None;
        call_analyze_sentiment "AAA"; call_compare_portfolio]
       (snd (reset_state (Demo.world_of Demo.stored))))
  = (inr NO_RISK,
     run_calls Demo.quiet
       [call_calculate_risk_metrics None; call_ensemble_forecast "AAA" None;
        call_analyze_sentiment "AAA"; call_compare_portfolio]
       (snd (reset_state (Demo.world_of Demo.stored)))).
Proof.
  apply (nothing_without_fetch Demo.quiet
           [call_calculate_risk_metrics None; call_ensemble_forecast "AAA" None;
            call_analyze_sentiment "AAA"; call_compare_portfolio]
           (Demo.world_of Demo.stored)).
  intros tickers period [H|[H|[H|[H|[]]]]]; discriminate H.
Defined.

(** ** The orchestrator *)

(** An autonomous run, from the reset state on. *)
Lemma run_autonomous_eq E query w :
  run_autonomous E query w =
    let w0 := snd (reset_state w) in
    let inputs := autonomous_inputs E query w in
    match app_stream E inputs 15 autonomous_body [] w0 with
    | ((steps, inl e), w1) => (inr (autonomous_error steps e), w1)
    | ((steps, inr _), w1) =>
        match app_invoke E inputs w1 with
        | ((_, inl e), w2) => (inr (autonomous_error steps e), w2)
        | ((_, inr final_messages), w2) =>
            (inr {| steps := steps;
                    final_response :=
                      content_of (List.last final_messages (HumanMessage ""));
                    data_state := Some (agents_DATA_STATE w2);
                    synthesis_mode := None |}, w2)
        end
    end.
Proof. reflexivity. Qed.

Section OrchestratorFrames.

Variable E : Env.
Variable R : World -> World -> Prop.
Hypothesis F : frame R.
Hypothesis Htools : forall c, respects R (invoke_tool E c).

Lemma run_tool_call_respects r : respects R (run_tool_call E r).
Proof.
  destruct r as [c|name]; simpl; [|now apply respects_ret].
  apply respects_try; [assumption| |].
  - apply respects_bind; [assumption | apply Htools | intros; now apply respects_ret].
  - intros e. destruct (handle_tool_error E e);
      [now apply respects_ret | now apply respects_raise].
Qed.

Lemma tool_node_respects calls : respects R (tool_node E calls).
Proof.
  induction calls as [|c calls IH]; simpl; [now apply respects_ret|].
  apply respects_bind; [assumption | apply run_tool_call_respects | intros m].
  apply respects_bind; [assumption | apply IH | intros; now apply respects_ret].
Qed.

Lemma graph_step_respects n messages : respects R (graph_step E n messages).
Proof.
  destruct n; unfold graph_step.
  - apply respects_bind;
      [assumption | now apply respects_external | intros; now apply respects_ret].
  - apply respects_bind;
      [assumption | apply tool_node_respects | intros; now apply respects_ret].
Qed.

Lemma autonomous_body_respects key messages steps :
  respects R (autonomous_body key messages steps).
Proof.
  unfold autonomous_body. apply respects_bind; [assumption| |].
  - intros w. apply (frame_log R F).
  - intros _. destruct messages; now apply respects_ret.
Qed.

Lemma pregel_respects {St : Type} (body : string -> list message -> St -> M St) limit :
  (forall key update s, respects R (body key update s)) ->
  forall fuel next messages s w,
    R w (snd (pregel E limit fuel next messages body s w)).
Proof.
  intros Hbody. induction fuel as [|fuel IH]; intros next messages s w.
  - apply (frame_refl R F).
  - cbn [pregel]. pose proof (graph_step_respects next messages w) as H1.
    destruct (graph_step E next messages w) as [[e|[[key update] nxt]] w1];
      cbn [snd] in H1 |- *; [exact H1|].
    pose proof (Hbody key update s w1) as H2.
    destruct (body key update s w1) as [[e|s'] w2]; cbn [snd] in H2 |- *.
    + exact (frame_trans R F _ _ _ H1 H2).
    + destruct nxt as [n|]; cbn [snd].
      * apply (frame_trans R F _ _ _ H1). apply (frame_trans R F _ _ _ H2). apply IH.
      * exact (frame_trans R F _ _ _ H1 H2).
Qed.

Lemma run_autonomous_respects query w :
  R (snd (reset_state w)) (snd (run_autonomous E query w)).
Proof.
  rewrite run_autonomous_eq. cbv zeta.
  set (w0 := snd (reset_state w)). unfold app_stream, app_invoke.
  pose proof (pregel_respects autonomous_body 15 autonomous_body_respects 15 agent
                (autonomous_inputs E query w) [] w0) as H1.
  destruct (pregel E 15 15 agent (autonomous_inputs E query w) autonomous_body [] w0)
    as [[steps1 [e|msgs1]] w1]; cbn [snd] in H1 |- *; [exact H1|].
  pose proof (pregel_respects (fun _ _ (s : unit) => ret s) (default_recursion_limit E)
                (fun _ _ _ => respects_ret R _ F) (default_recursion_limit E) agent
                (autonomous_inputs E query w) tt w1) as H2.
  destruct (pregel E _ _ agent (autonomous_inputs E query w) _ tt w1)
    as [[u [e|final_messages]] w2]; cbn [snd] in H2 |- *;
    exact (frame_trans R F _ _ _ H1 H2).
Qed.

Lemma run_steps_respects todo : forall done, respects R (run_steps E todo done).
Proof.
  induction todo as [|[name call] todo IH]; intros done; simpl; [now apply respects_ret|].
  apply respects_bind; [assumption | apply Htools | intros; apply IH].
Qed.

Lemma run_manual_respects tickers forecast_days include_sentiment w :
  R (snd (reset_state w)) (snd (run_manual E tickers forecast_days include_sentiment w)).
Proof. rewrite run_manual_world. apply run_steps_respects. Qed.

Lemma run_hybrid_respects tickers forecast_days include_sentiment w :
  R (snd (reset_state w)) (snd (run_hybrid E tickers forecast_days include_sentiment w)).
Proof.
  unfold run_hybrid. rewrite bind_eq.
  pose proof (run_manual_respects tickers forecast_days include_sentiment w) as H1.
  destruct (run_manual E tickers forecast_days include_sentiment w) as [[e|res] w1];
    cbn [snd] in H1 |- *; [exact H1|].
  rewrite bind_eq. unfold now at 1. cbv beta iota. rewrite bind_eq, external_eq.
  destruct (llm_text E _ _) as [e|text]; cbn [snd];
    exact (frame_trans R F _ _ _ H1 (frame_log R F _ _)).
Qed.

End OrchestratorFrames.

Lemma stale_frame : frame stale.
Proof.
  split; unfold stale.
  - auto.
  - intros w1 w2 w3 H12 H23 H. destruct (H12 H) as [H2 E2].
    destruct (H23 H2) as [H3 E3]. split; [exact H3 | congruence].
  - intros ev w H. simpl. auto.
Qed.

Lemma stale_writes {V} (set : string -> V -> DataState -> DataState) : writes stale set.
Proof. intros k v w H. simpl. rewrite H. auto. Qed.

Section Modes.

Variable E : Env.

(** X16. A run in any of the three modes leaves the shared state well
    formed: every key of [risk_metrics] and [forecasts] is a key of
    [portfolio], the keys of [portfolio] are free of lower-case letters, no
    mapping has a key twice, no frame is empty, every forecast entry has
    the percentage of its two prices, and every sentiment label agrees with
    its score. *)
Theorem every_mode_leaves_state_ok (query tickers : string) (forecast_days : Z)
        (include_sentiment : bool) (w : World) :
  state_ok (DATA_STATE (snd (run_autonomous E query w)))
  /\ state_ok (DATA_STATE (snd (run_manual E tickers forecast_days include_sentiment w)))
  /\ state_ok (DATA_STATE (snd (run_hybrid E tickers forecast_days include_sentiment w))).
Proof.
  split; [|split].
  - apply (run_autonomous_respects E _ (maintains_frame state_ok)
             (tools_maintain_state_ok E) query w). exact state_ok_empty.
  - apply (run_manual_respects E _ (maintains_frame state_ok)
             (tools_maintain_state_ok E) tickers forecast_days include_sentiment w).
    exact state_ok_empty.
  - apply (run_hybrid_respects E _ (maintains_frame state_ok)
             (tools_maintain_state_ok E) tickers forecast_days include_sentiment w).
    exact state_ok_empty.
Qed.

End Modes.

Lemma length_append (a b : string) :
  String.length (a ++ b) = (String.length a + String.length b)%nat.
Proof. induction a as [|c a IH]; simpl; [reflexivity | now rewrite IH]. Qed.

Lemma length_take n : forall s, (String.length (take n s) <= n)%nat.
Proof.
  induction n as [|n IH]; intros [|c s]; simpl; try lia.
  specialize (IH s). lia.
Qed.

Section AutonomousRuns.

Variable E : Env.

Lemma autonomous_body_entry key messages steps w :
  key = "agent"%string \/ key = "tools"%string ->
  exists new,
    autonomous_body key messages steps w
    = (inr (steps ++ new)%list, log_event (ev_sleep 5) w)
    /\ (List.length new <= 1)%nat
    /\ (messages <> [] -> new <> [])
    /\ Forall step_shape new.
Proof.
  intros Hkey. unfold autonomous_body. rewrite bind_eq. unfold sleep at 1. cbv beta iota.
  destruct messages as [|m ms].
  - exists []. rewrite app_nil_r. repeat split; auto.
  - eexists [_]. split; [reflexivity|]. split; [simpl; lia|]. split; [discriminate|].
    constructor; [|constructor]. split; cbn [step result].
    + destruct Hkey as [-> | ->]; [left | right]; reflexivity.
    + destruct (String.eqb _ ""); [simpl; lia|].
      rewrite length_append. pose proof (length_take 300 (content_of (List.last (m :: ms) (HumanMessage "")))).
      simpl String.length at 2. lia.
Qed.

Lemma graph_step_key n messages w key update nxt w1 :
  graph_step E n messages w = (inr (key, update, nxt), w1) ->
  key = "agent"%string \/ key = "tools"%string.
Proof.
  destruct n; unfold graph_step; rewrite bind_eq.
  - rewrite external_eq. destruct (llm_invoke E _ _); [discriminate|].
    intros [= <- _ _ _]. now left.
  - destruct (tool_node E _ w) as [[e|out] w2]; [discriminate|].
    intros [= <- _ _ _]. now right.
Qed.

Lemma pregel_entries limit : forall fuel next messages steps w,
  exists new,
    fst (fst (pregel E limit fuel next messages autonomous_body steps w))
    = (steps ++ new)%list
    /\ (List.length new <= fuel)%nat
    /\ Forall step_shape new.
Proof.
  induction fuel as [|fuel IH]; intros next messages steps w.
  - exists []. rewrite app_nil_r. repeat split; auto.
  - cbn [pregel].
    destruct (graph_step E next messages w) as [[e|[[key update] nxt]] w1] eqn:Hg.
    + exists []. rewrite app_nil_r. repeat split; auto. simpl. lia.
    + apply graph_step_key in Hg.
      destruct (autonomous_body_entry key update steps w1 Hg) as (new & -> & Hl & _ & Hs).
      destruct nxt as [n|].
      * destruct (IH n (messages ++ update)%list (steps ++ new)%list
                     (log_event (ev_sleep 5) w1)) as (new' & -> & Hl' & Hs').
        exists (new ++ new')%list. rewrite app_assoc. split; [reflexivity|].
        split; [rewrite length_app; lia | now apply Forall_app].
      * exists new. split; [reflexivity|]. split; [lia | exact Hs].
Qed.

(** X17. An autonomous run never raises. Its step log holds at most 15
    entries named Agent or Tool Output, each result cut to 300 characters
    and an ellipsis. When both runs of the graph complete, [data_state] is
    the dictionary [agents.py] imported, as it was before the run; when
    either raises, the log ends with a Critical Error entry carrying the
    message, the final response is the message behind the warning prefix,
    and [data_state] is left empty. *)
Theorem autonomous_result_shape (query : string) (w : World) :
  exists res w' entries,
    run_autonomous E query w = (inr res, w')
    /\ (List.length entries <= 15)%nat
    /\ Forall step_shape entries
    /\ synthesis_mode res = None
    /\ ((steps res = entries /\ data_state res = Some (agents_DATA_STATE w))
        \/ exists e,
            steps res
            = (entries ++ [{| step := "Critical Error"; result := exn_msg e |}])%list
            /\ final_response res = ("⚠️ Autonomous Agent Error: " ++ exn_msg e)%string
            /\ data_state res = None).
Proof.
  pose proof (run_autonomous_respects E _ stale_frame
                (fun c => invoke_tool_respects E _ stale_frame c (stale_writes _)
                            (stale_writes _) (stale_writes _) (stale_writes _))
                query w eq_refl)
    as [_ Hstale].
  rewrite run_autonomous_eq in *. cbv zeta in *.
  unfold app_stream in *.
  destruct (pregel_entries 15 15 agent (autonomous_inputs E query w) []
              (snd (reset_state w))) as (entries & He & Hl & Hs).
  destruct (pregel E 15 15 agent (autonomous_inputs E query w) autonomous_body []
                   (snd (reset_state w))) as [[steps1 [e|msgs1]] w1].
  - simpl in He. subst steps1.
    eexists _, _, entries. split; [reflexivity|]. repeat split; auto.
    right. exists e. repeat split.
  - simpl in He. subst steps1.
    destruct (app_invoke E (autonomous_inputs E query w) w1) as [[u [e|final]] w2].
    + eexists _, _, entries. split; [reflexivity|]. repeat split; auto.
      right. exists e. repeat split.
    + eexists _, _, entries. split; [reflexivity|]. repeat split; auto.
      left. split; [reflexivity|]. simpl in Hstale |- *. now rewrite Hstale.
Qed.

(** X18. When the first call of the model raises, the run stops there: no
    tool is invoked, the shared state is the one the reset left, empty, and
    the result reports the message, in the only entry of its step log and
    in the final response. *)
Theorem autonomous_model_failure (query : string) (w : World) (e : exn) :
  llm_invoke E (List.length (log w)) (autonomous_inputs E query w) = inl e ->
  run_autonomous E query w
  = (inr {| steps := [{| step := "Critical Error"; result := exn_msg e |}];
            final_response := ("⚠️ Autonomous Agent Error: " ++ exn_msg e)%string;
            data_state := None;
            synthesis_mode := None |},
     log_event (ev_llm (autonomous_inputs E query w)) (snd (reset_state w))).
Proof.
  intros H. rewrite run_autonomous_eq. cbv zeta. unfold app_stream. cbn [pregel].
  rewrite graph_step_agent.
  change (List.length (log (snd (reset_state w)))) with (List.length (log w)).
  rewrite H. reflexivity.
Qed.

Section Runaway.

Hypothesis Hllm :
  forall i messages, exists content c rest,
    llm_invoke E i messages = inr (AIMessage content (c :: rest)).
Hypothesis Herr : forall e, handle_tool_error E e <> None.

Lemma run_tool_call_total r w : exists m, fst (run_tool_call E r w) = inr m.
Proof.
  destruct r as [c|name]; [|eexists; reflexivity].
  unfold run_tool_call, try_except. rewrite bind_eq.
  destruct (invoke_tool E c w) as [[e|res] w1]; [|eexists; reflexivity].
  destruct (handle_tool_error E e) eqn:Hh; [eexists; reflexivity|].
  now elim (Herr e).
Qed.

Lemma tool_node_total calls : forall w, exists out, fst (tool_node E calls w) = inr out.
Proof.
  induction calls as [|c calls IH]; intros w; [eexists; reflexivity|].
  simpl tool_node. rewrite bind_eq.
  destruct (run_tool_call_total c w) as [m Hm].
  destruct (run_tool_call E c w) as [[e|m'] w1]; [discriminate Hm|].
  rewrite bind_eq. destruct (IH w1) as [out Hout].
  destruct (tool_node E calls w1) as [[e|out'] w2]; [discriminate Hout|].
  eexists; reflexivity.
Qed.

Lemma pregel_runaway limit : forall fuel next messages steps w,
  snd (fst (pregel E limit fuel next messages autonomous_body steps w))
  = inl (GraphRecursionError E limit).
Proof.
  induction fuel as [|fuel IH]; intros next messages steps w; [reflexivity|].
  cbn [pregel]. destruct next.
  - rewrite graph_step_agent.
    destruct (Hllm (List.length (log w)) messages) as (content & c & rest & ->).
    destruct (autonomous_body_entry "agent" [AIMessage content (c :: rest)] steps
                (log_event (ev_llm messages) w) (or_introl eq_refl)) as (new & -> & _).
    cbn [tool_calls_of]. apply IH.
  - unfold graph_step. rewrite bind_eq.
    destruct (tool_node_total (tool_calls_of (List.last messages (HumanMessage ""))) w)
      as [out Hout].
    destruct (tool_node E _ w) as [[e|out'] w1]; [discriminate Hout|].
    unfold ret at 1. cbv beta iota.
    destruct (autonomous_body_entry "tools" out' steps w1 (or_intror eq_refl))
      as (new & -> & _).
    apply IH.
Qed.

(** X19. A model that asks for tools at every call, under a tool node that
    turns tool errors into messages, cannot keep an autonomous run going:
    the streamed run ends with the recursion error of limit 15, the second
    run is not started, and the result carries the error and no data. *)
Theorem autonomous_runaway (query : string) (w : World) :
  exists res w' entries,
    run_autonomous E query w = (inr res, w')
    /\ steps res
       = (entries ++ [{| step := "Critical Error";
                         result := recursion_error_msg E 15 |}])%list
    /\ (List.length entries <= 15)%nat
    /\ Forall step_shape entries
    /\ final_response res
       = ("⚠️ Autonomous Agent Error: " ++ recursion_error_msg E 15)%string
    /\ data_state res = None
    /\ w' = snd (app_stream E (autonomous_inputs E query w) 15 autonomous_body []
                            (snd (reset_state w))).
Proof.
  rewrite run_autonomous_eq. cbv zeta. unfold app_stream.
  pose proof (pregel_runaway 15 15 agent (autonomous_inputs E query w) []
                (snd (reset_state w))) as Hr.
  destruct (pregel_entries 15 15 agent (autonomous_inputs E query w) []
              (snd (reset_state w))) as (entries & He & Hl & Hs).
  destruct (pregel E 15 15 agent (autonomous_inputs E query w) autonomous_body []
                   (snd (reset_state w))) as [[steps1 r] w1].
  simpl in Hr, He. subst r steps1.
  eexists _, _, entries. split; [reflexivity|]. repeat split; auto.
Qed.

End Runaway.

End AutonomousRuns.

(** X18 on a model whose provider refuses every call. *)
Lemma autonomous_model_failure_witness :
  fst (run_autonomous
         (Scenario.env Scenario.with_news (Demo.market 3) (fun _ => Demo.flat_prophet)
                       Scenario.llm_down Scenario.keep_going 25)
         "Rank AAA" (Demo.world_of Demo.stored))
  = inr {| steps := [{| step := "Critical Error"; result := "429 quota exceeded" |}];
           final_response := "⚠️ Autonomous Agent Error: 429 quota exceeded";
           data_state := None;
           synthesis_mode := None |}.
Proof.
  rewrite (autonomous_model_failure
             (Scenario.env Scenario.with_news (Demo.market 3) (fun _ => Demo.flat_prophet)
                           Scenario.llm_down Scenario.keep_going 25)
             "Rank AAA" (Demo.world_of Demo.stored)
             (Raise "ResourceExhausted" "429 quota exceeded")).
  - reflexivity.
  - reflexivity.
Defined.

(** X19 on a model that never stops asking for the ranking. *)
Lemma autonomous_runaway_witness :
  exists res w',
    run_autonomous
      (Scenario.env Scenario.with_news (Demo.market 3) (fun _ => Demo.flat_prophet)
                    Scenario.llm_forever Scenario.keep_going 25)
      "Rank AAA" (Demo.world_of Demo.stored) = (inr res, w')
    /\ data_state res = None.
Proof.
  destruct (autonomous_runaway
              (Scenario.env Scenario.with_news (Demo.market 3) (fun _ => Demo.flat_prophet)
                            Scenario.llm_forever Scenario.keep_going 25))
    with (query := "Rank AAA"%string) (w := Demo.world_of Demo.stored)
    as (res & w' & entries & Hr & _ & _ & _ & _ & Hd & _).
  - intros i messages. exists ""%string, (req_tool call_compare_portfolio), [].
    reflexivity.
  - intros e. discriminate.
  - exists res, w'. split; [exact Hr | exact Hd].
Defined.

Section ManualRuns.

Variable E : Env.

Lemma run_manual_eq tickers forecast_days include_sentiment w :
  run_manual E tickers forecast_days include_sentiment w =
    match run_steps E (manual_steps E tickers forecast_days include_sentiment) []
                    (snd (reset_state w)) with
    | (inl e, w1) => (inl e, w1)
    | (inr done, w1) =>
        (inr {| steps := done;
                final_response := last_result done;
                data_state := Some (agents_DATA_STATE w1);
                synthesis_mode := None |}, w1)
    end.
Proof. reflexivity. Qed.

Lemma run_manual_stale tickers forecast_days include_sentiment w :
  agents_DATA_STATE (snd (run_manual E tickers forecast_days include_sentiment w))
  = agents_DATA_STATE w.
Proof.
  now destruct (run_manual_respects E _ stale_frame
                  (fun c => invoke_tool_respects E _ stale_frame c (stale_writes _)
                              (stale_writes _) (stale_writes _) (stale_writes _))
                  tickers forecast_days include_sentiment w eq_refl).
Qed.

Lemma run_hybrid_eq tickers forecast_days include_sentiment w :
  run_hybrid E tickers forecast_days include_sentiment w =
    match run_manual E tickers forecast_days include_sentiment w with
    | (inl e, w1) => (inl e, w1)
    | (inr res, w1) =>
        let prompt := synthesis_prompt (now_text E (List.length (log w1))) (steps res) in
        (match llm_text E (List.length (log w1)) prompt with
         | inl e => inl e
         | inr text =>
             inr {| steps := steps res;
                    final_response := text;
                    data_state := data_state res;
                    synthesis_mode := Some "hybrid"%string |}
         end, log_event (ev_llm_text prompt) w1)
    end.
Proof.
  unfold run_hybrid. rewrite bind_eq.
  destruct (run_manual E tickers forecast_days include_sentiment w) as [[e|res] w1];
    [reflexivity|].
  rewrite bind_eq. unfold now at 1. cbv beta iota. rewrite bind_eq, external_eq.
  destruct (llm_text E _ _) as [e|text]; reflexivity.
Qed.

(** X20. The [data_state] of a manual or hybrid result is not the state the
    run filled. [reset_state] rebinds the name in [tools.py] only, so the
    field holds the dictionary [agents.py] imported, with the content it had
    before the run, and the tools never write to it again. *)
Theorem result_data_state_is_stale (tickers : string) (forecast_days : Z)
        (include_sentiment : bool) (w : World) :
  let m := run_manual E tickers forecast_days include_sentiment w in
  let h := run_hybrid E tickers forecast_days include_sentiment w in
  match fst m with
  | inr res => data_state res = Some (agents_DATA_STATE w)
  | inl _ => True
  end
  /\ match fst h with
     | inr res => data_state res = Some (agents_DATA_STATE w)
     | inl _ => True
     end
  /\ agents_DATA_STATE (snd m) = agents_DATA_STATE w
  /\ agents_DATA_STATE (snd h) = agents_DATA_STATE w.
Proof.
  cbv zeta.
  pose proof (run_manual_stale tickers forecast_days include_sentiment w) as Hm.
  assert (Hres : match fst (run_manual E tickers forecast_days include_sentiment w) with
                 | inr res => data_state res = Some (agents_DATA_STATE w)
                 | inl _ => True
                 end).
  { rewrite run_manual_eq in Hm |- *.
    destruct (run_steps E _ [] (snd (reset_state w))) as [[e|done] w1]; [exact I|].
    simpl in Hm |- *. now rewrite Hm. }
  split; [exact Hres|].
  rewrite run_hybrid_eq.
  destruct (run_manual E tickers forecast_days include_sentiment w) as [[e|res] w1];
    cbn [fst snd] in Hm, Hres |- *; [auto|].
  cbv zeta. destruct (llm_text E _ _) as [e|text]; cbn [fst snd agents_DATA_STATE log_event];
    auto.
Qed.

Lemma fetch_never_raises tickers period w :
  exists s, fst (fetch_portfolio_data E tickers period w) = inr s.
Proof.
  unfold fetch_portfolio_data. cbv zeta. rewrite bind_eq.
  destruct (fetch_loop_spec E
              (match period with None => DEFAULT_PERIOD (config E) | Some p => p end)
              (map (fun t => upper (strip t)) (split "," tickers)) [] w)
    as (lines & w' & -> & _).
  eexists. reflexivity.
Qed.



(** X23. Without a news credential in the environment there is no
    sentiment anywhere, whatever the flag says: the configuration comes up
    with the flag off, every Sentiment step answers that it is disabled and
    leaves the world as it is, and a manual run asked to include sentiment
    plans the same steps as one asked not to. *)
Theorem no_sentiment_without_news_key (flag key : option string) :
  config E = Config_init flag key ->
  key = None \/ key = Some ""%string ->
  ENABLE_SENTIMENT (config E) = false
  /\ (forall ticker w, analyze_sentiment E ticker w = (inr SENTIMENT_DISABLED, w))
  /\ (forall tickers forecast_days,
         manual_steps E tickers forecast_days true
         = manual_steps E tickers forecast_days false).
Proof.
  intros Hc Hk.
  assert (Hoff : ENABLE_SENTIMENT (config E) = false).
  { rewrite Hc. unfold Config_init. cbv zeta. cbn [ENABLE_SENTIMENT].
    destruct Hk as [-> | ->]; cbn [String.eqb negb];
      destruct (String.eqb (lower _) "true"); reflexivity. }
  split; [exact Hoff|]. split.
  - intros ticker w. rewrite analyze_sentiment_eq, Hoff. reflexivity.
  - intros tickers forecast_days. unfold manual_steps. now rewrite Hoff.
Qed.

End ManualRuns.


(** X23 on a configuration whose flag is set without a news credential. *)
Lemma no_sentiment_witness :
  ENABLE_SENTIMENT
    (config (Scenario.env Scenario.without_news (Demo.market 3)
                          (fun _ => Demo.flat_prophet) Demo.llm_direct
                          Scenario.keep_going 25)) = false.
Proof.
  apply (no_sentiment_without_news_key
           (Scenario.env Scenario.without_news (Demo.market 3)
                         (fun _ => Demo.flat_prophet) Demo.llm_direct
                         Scenario.keep_going 25)
           (Some "TRUE"%string) None).
  - reflexivity.
  - now left.
Defined.

(** ** Where the stored frames come from *)

Section FetchProvenance.

Variable E : Env.

Lemma fetch_loop_provenance period l : forall acc w k df,
  Dict.get k (portfolio (DATA_STATE (snd (fetch_loop E period l acc w)))) = Some df ->
  Dict.get k (portfolio (DATA_STATE w)) = Some df
  \/ exists i, nth_error l i = Some k
               /\ yf_download E (List.length (log w) + i) k period = inr df
               /\ df <> [].
Proof.
  induction l as [|t l IH]; intros acc w k df; simpl fetch_loop.
  - intros H. now left.
  - rewrite bind_eq, fetch_ticker_eq. cbv zeta.
    set (w1 := log_event (ev_download t period) w).
    assert (Hlen : forall i, (List.length (log w1) + i = List.length (log w) + S i)%nat).
    { intros i. unfold w1. simpl. rewrite length_app. simpl. lia. }
    destruct (yf_download E (List.length (log w)) t period) as [e|[|b df0]] eqn:Hd;
      intros H; apply IH in H as [H|(i & Hi & Hy & Hne)].
    + now left.
    + right. exists (S i). rewrite <- Hlen. auto.
    + now left.
    + right. exists (S i). rewrite <- Hlen. auto.
    + simpl in H. rewrite DictFacts.get_set in H.
      destruct (String.eqb_spec k t) as [->|Hkt]; [|now left].
      injection H as <-. right. exists 0%nat. rewrite Nat.add_0_r.
      split; [reflexivity|]. split; [exact Hd | discriminate].
    + right. exists (S i). rewrite <- Hlen. auto.
Qed.

Lemma fetch_provenance tickers period w k df :
  Dict.get k (portfolio (DATA_STATE (snd (fetch_portfolio_data E tickers period w))))
  = Some df ->
  Dict.get k (portfolio (DATA_STATE w)) = Some df
  \/ exists i, nth_error (map (fun t => upper (strip t)) (split "," tickers)) i = Some k
               /\ yf_download E (List.length (log w) + i) k
                              (match period with
                               | None => DEFAULT_PERIOD (config E)
                               | Some p => p
                               end) = inr df
               /\ df <> [].
Proof.
  unfold fetch_portfolio_data. cbv zeta. rewrite bind_eq. intros H.
  apply (fetch_loop_provenance _ _ [] w k df).
  destruct (fetch_loop E _ _ [] w) as [[e|lines] w1]; exact H.
Qed.

(** X24. Every frame found in [portfolio] after a Fetch was either there
    before or is the non-empty frame that one of the downloads of this call
    returned for exactly that key: a download that fails or comes back
    empty stores nothing. *)
Theorem fetch_stores_what_was_downloaded (tickers : string) (period : option string)
        (w : World) (k : string) (df : DataFrame) :
  let ticker_list := map (fun t => upper (strip t)) (split "," tickers) in
  let period' := match period with None => DEFAULT_PERIOD (config E) | Some p => p end in
  let w' := snd (fetch_portfolio_data E tickers period w) in
  Dict.get k (portfolio (DATA_STATE w')) = Some df ->
  Dict.get k (portfolio (DATA_STATE w)) = Some df
  \/ exists i, nth_error ticker_list i = Some k
               /\ yf_download E (List.length (log w) + i) k period' = inr df
               /\ df <> [].
Proof. cbv zeta. apply fetch_provenance. Qed.

Lemma dict_without_keys {V} (d : Dict.dict V) : (forall k, Dict.get k d = None) -> d = [].
Proof.
  destruct d as [|[k v] d]; [reflexivity|]. intros H. specialize (H k).
  simpl in H. rewrite String.eqb_refl in H. discriminate H.
Qed.

Section Offline.

Hypothesis Hdown :
  forall i ticker period,
    yf_download E i ticker period = inr [] \/ exists e, yf_download E i ticker period = inl e.

Lemma fetch_offline tickers period w :
  portfolio (DATA_STATE w) = [] ->
  exists lines w',
    fetch_portfolio_data E tickers period w = (inr lines, w')
    /\ portfolio (DATA_STATE w') = []
    /\ risk_metrics (DATA_STATE w') = risk_metrics (DATA_STATE w)
    /\ forecasts (DATA_STATE w') = forecasts (DATA_STATE w).
Proof.
  intros Hp.
  pose proof (fetch_respects E _ (keeps_frame risk_metrics) tickers period
                ltac:(intros k v w1; reflexivity) w) as K1.
  pose proof (fetch_respects E _ (keeps_frame forecasts) tickers period
                ltac:(intros k v w1; reflexivity) w) as K2.
  assert (Hnone : portfolio (DATA_STATE (snd (fetch_portfolio_data E tickers period w))) = []).
  { apply dict_without_keys. intros k.
    destruct (Dict.get k _) as [df|] eqn:Hg; [|reflexivity].
    apply fetch_provenance in Hg as [Hg|(i & _ & Hy & Hne)].
    - rewrite Hp in Hg. discriminate Hg.
    - destruct (Hdown (List.length (log w) + i) k
                  (match period with None => DEFAULT_PERIOD (config E) | Some p => p end))
        as [H|[e H]]; rewrite H in Hy; [injection Hy as <-; now elim Hne | discriminate Hy]. }
  destruct (fetch_never_raises E tickers period w) as [lines Hl].
  destruct (fetch_portfolio_data E tickers period w) as [r w'].
  simpl in *. subst r. exists lines, w'. auto.
Qed.

Lemma tool_offline c w :
  portfolio (DATA_STATE w) = [] /\ risk_metrics (DATA_STATE w) = []
  /\ forecasts (DATA_STATE w) = [] ->
  exists res w',
    invoke_tool E c w = (inr res, w')
    /\ (portfolio (DATA_STATE w') = [] /\ risk_metrics (DATA_STATE w') = []
        /\ forecasts (DATA_STATE w') = [])
    /\ match c with
       | call_calculate_risk_metrics _ => res = NO_PORTFOLIO
       | call_ensemble_forecast ticker _ => res = NOT_LOADED ticker
       | call_compare_portfolio => res = NO_RISK
       | _ => True
       end.
Proof.
  intros (Hp & Hr & Hf).
  destruct c as [tickers period|tickers|ticker days|ticker|]; simpl invoke_tool.
  - destruct (fetch_offline tickers period w Hp) as (lines & w' & -> & Hp' & Hr' & Hf').
    exists lines, w'. rewrite Hr', Hf'. auto.
  - rewrite risk_without_portfolio by exact Hp. eauto 10.
  - rewrite forecast_without_portfolio by exact Hp. eauto 10.
  - pose proof (sentiment_respects E _ (keeps_frame portfolio) ticker
                  ltac:(intros k v w1; reflexivity) w) as K1.
    pose proof (sentiment_respects E _ (keeps_frame risk_metrics) ticker
                  ltac:(intros k v w1; reflexivity) w) as K2.
    pose proof (sentiment_respects E _ (keeps_frame forecasts) ticker
                  ltac:(intros k v w1; reflexivity) w) as K3.
    unfold keeps in K1, K2, K3. rewrite analyze_sentiment_eq in *.
    destruct (ENABLE_SENTIMENT (config E)); cbv zeta in *; cbn [snd] in K1, K2, K3;
      eexists _, _; (split; [reflexivity|]); rewrite ?K1, ?K2, ?K3; auto.
  - rewrite compare_eq, Hr. eauto 10.
Qed.

Lemma run_steps_offline todo : forall done w,
  portfolio (DATA_STATE w) = [] /\ risk_metrics (DATA_STATE w) = []
  /\ forecasts (DATA_STATE w) = [] ->
  exists new w',
    run_steps E todo done w = (inr (done ++ new)%list, w')
    /\ (portfolio (DATA_STATE w') = [] /\ risk_metrics (DATA_STATE w') = []
        /\ forecasts (DATA_STATE w') = [])
    /\ Forall2 (fun nc s =>
                  step s = fst nc
                  /\ match snd nc with
                     | call_calculate_risk_metrics _ => result s = NO_PORTFOLIO
                     | call_ensemble_forecast ticker _ => result s = NOT_LOADED ticker
                     | call_compare_portfolio => result s = NO_RISK
                     | _ => True
                     end) todo new.
Proof.
  induction todo as [|[name c] todo IH]; intros done w Hw; simpl run_steps.
  - exists [], w. rewrite app_nil_r. repeat split; try apply Hw. constructor.
  - rewrite bind_eq. destruct (tool_offline c w Hw) as (res & w1 & -> & Hw1 & Hres).
    destruct (IH (done ++ [{| step := name; result := res |}])%list w1 Hw1)
      as (new & w' & -> & Hw' & HF).
    exists ({| step := name; result := res |} :: new), w'. rewrite <- app_assoc.
    split; [reflexivity|]. split; [exact Hw'|].
    constructor; [|exact HF]. split; [reflexivity|]. destruct c; exact Hres.
Qed.

(** X25. A manual run on a day no download returns data still completes:
    the Risk step answers that no portfolio is loaded, every Forecast step
    that its ticker is not loaded, the final response is the request to run
    the risk analysis first, and no frame, risk entry or forecast is
    stored. *)
Theorem manual_run_without_data (tickers : string) (forecast_days : Z)
        (include_sentiment : bool) (w : World) :
  exists res w',
    run_manual E tickers forecast_days include_sentiment w = (inr res, w')
    /\ final_response res = NO_RISK
    /\ In {| step := "Risk Analysis"; result := NO_PORTFOLIO |} (steps res)
    /\ (forall t, In t (split "," tickers) ->
                  In {| step := ("Forecasting " ++ strip t)%string;
                        result := NOT_LOADED (strip t) |} (steps res))
    /\ portfolio (DATA_STATE w') = []
    /\ risk_metrics (DATA_STATE w') = []
    /\ forecasts (DATA_STATE w') = [].
Proof.
  rewrite run_manual_eq.
  destruct (run_steps_offline (manual_steps E tickers forecast_days include_sentiment) []
              (snd (reset_state w)) ltac:(repeat split))
    as (new & w' & -> & (Hp & Hr & Hf) & HF).
  eexists _, w'. split; [reflexivity|]. cbn [steps final_response app].
  assert (Hin : forall name c,
             In (name, c) (manual_steps E tickers forecast_days include_sentiment) ->
             exists s, In s new /\ step s = name
                       /\ match c with
                          | call_calculate_risk_metrics _ => result s = NO_PORTFOLIO
                          | call_ensemble_forecast ticker _ => result s = NOT_LOADED ticker
                          | call_compare_portfolio => result s = NO_RISK
                          | _ => True
                          end).
  { clear - HF. induction HF as [|nc s todo new [H1 H2] _ IH]; intros name c []; subst.
    - exists s. split; [now left|]. split; [exact H1 | exact H2].
    - destruct (IH name c H) as (s' & Hs' & H'). exists s'. split; [now right | exact H']. }
  split; [|split; [|split; [|auto]]].
  - unfold manual_steps in HF. rewrite !app_assoc in HF.
    apply Forall2_app_inv_l in HF as (new1 & new2 & _ & HF2 & ->).
    inversion HF2 as [|nc s ? ? [_ Hs] Hnil]; subst. inversion Hnil; subst.
    rewrite last_result_snoc. exact Hs.
  - destruct (Hin "Risk Analysis"%string (call_calculate_risk_metrics (Some tickers)))
      as ([n r] & Hs & Hn & Hres); [unfold manual_steps; right; now left|].
    simpl in Hn, Hres. now subst.
  - intros t Ht.
    destruct (Hin ("Forecasting " ++ strip t)%string
                  (call_ensemble_forecast (strip t) (Some forecast_days)))
      as ([n r] & Hs & Hn & Hres).
    + unfold manual_steps. cbn [app]. right. right. apply in_or_app. left.
      apply in_map_iff. exists t. split; [reflexivity | exact Ht].
    + simpl in Hn, Hres. now subst.
Qed.

End Offline.

End FetchProvenance.

(** X24 on the first fetch of AAA. *)
Lemma fetch_provenance_witness :
  Dict.get "AAA" (portfolio (DATA_STATE (Demo.world_of empty_state)))
  = Some (Demo.frame 3 100 1)
  \/ exists i,
      nth_error (map (fun t => upper (strip t)) (split "," "aaa")) i = Some "AAA"%string
      /\ yf_download Demo.quiet (List.length (log (Demo.world_of empty_state)) + i) "AAA"
                     (DEFAULT_PERIOD (config Demo.quiet))
         = inr (Demo.frame 3 100 1)
      /\ Demo.frame 3 100 1 <> [].
Proof.
  apply (fetch_stores_what_was_downloaded Demo.quiet "aaa" None
           (Demo.world_of empty_state) "AAA" (Demo.frame 3 100 1)).
  reflexivity.
Defined.

(** X25 on a closed market. *)
Lemma manual_run_without_data_witness :
  exists res w',
    run_manual (Demo.env Scenario.market_closed Demo.llm_direct 25) "AAA, BBB" 5%Z true
               (Demo.world_of Demo.stored) = (inr res, w')
    /\ final_response res = NO_RISK.
Proof.
  destruct (manual_run_without_data (Demo.env Scenario.market_closed Demo.llm_direct 25))
    with (tickers := "AAA, BBB"%string) (forecast_days := 5%Z) (include_sentiment := true)
         (w := Demo.world_of Demo.stored)
    as (res & w' & Hr & Hf & _).
  - intros i ticker period. left. reflexivity.
  - exists res, w'. split; [exact Hr | exact Hf].
Defined.

(** ** The response cleaner *)

Section Cleaner.

Variable E : Env.
Variable literal_eval : string -> exn + App.pyval.
Variable repr : App.pyval -> string.

Lemma strip_head c r :
  is_space c = false -> exists r', strip (String c r) = String c r'.
Proof.
  intros Hc. unfold strip. cbn [lstrip]. rewrite Hc. cbn [rstrip].
  destruct (rstrip r); [rewrite Hc|]; eexists; reflexivity.
Qed.

Lemma cleaner_plain c r :
  is_space c = false -> Ascii.eqb "["%char c = false ->
  App.clean_ai_response literal_eval repr (App.VStr (String c r)) = App.VStr (String c r).
Proof.
  intros Hs Hc. unfold App.clean_ai_response.
  destruct (strip_head c r Hs) as [r' ->]. cbn [startswith]. now rewrite Hc.
Qed.

Lemma manual_final_response tickers forecast_days include_sentiment w res :
  fst (run_manual E tickers forecast_days include_sentiment w) = inr res ->
  final_response res = NO_RISK
  \/ exists st,
      final_response res
      = ("🏆 PORTFOLIO RANKING:" ++ nl ++ report_lines 1 (ranking_of st))%string.
Proof.
  rewrite run_manual_eq.
  destruct (run_steps E _ [] (snd (reset_state w))) as [[e|done] w1] eqn:Hrun;
    [discriminate|].
  intros [= <-]. cbn [final_response].
  unfold manual_steps in Hrun. rewrite !app_assoc in Hrun.
  rewrite run_steps_app, bind_eq in Hrun.
  destruct (run_steps E _ [] (snd (reset_state w))) as [[e|done1] w2]; [discriminate|].
  rewrite run_steps_single, bind_eq in Hrun. cbn [invoke_tool] in Hrun.
  rewrite compare_eq in Hrun. injection Hrun as <- _.
  rewrite last_result_snoc. cbn [result].
  destruct (Dict.is_empty _); [now left | right; now eexists].
Qed.

(** X26. The cleaner of the user interface shows the reports of the
    orchestrator as they are: the final response of a manual run and the
    error message of a failed autonomous run pass through it unchanged,
    whatever they contain after their first character. *)
Theorem cleaner_keeps_reports (tickers : string) (forecast_days : Z)
        (include_sentiment : bool) (w : World) (res : Result)
        (entries : list Step) (e : exn) :
  fst (run_manual E tickers forecast_days include_sentiment w) = inr res ->
  App.clean_ai_response literal_eval repr (App.VStr (final_response res))
  = App.VStr (final_response res)
  /\ App.clean_ai_response literal_eval repr
       (App.VStr (final_response (autonomous_error entries e)))
     = App.VStr (final_response (autonomous_error entries e)).
Proof.
  intros H. split.
  - apply manual_final_response in H as [-> | [st ->]]; now apply cleaner_plain.
  - now apply cleaner_plain.
Qed.

End Cleaner.

(** X26 on a manual run for AAA. *)
Lemma cleaner_keeps_reports_witness :
  App.clean_ai_response (fun _ => inr (App.VList [])) (fun _ => "[]"%string)
    (App.VStr "❌ Run risk analysis first.")
  = App.VStr "❌ Run risk analysis first.".
Proof.
  apply (cleaner_keeps_reports
           (Demo.env Scenario.market_closed Demo.llm_direct 25)
           (fun _ => inr (App.VList [])) (fun _ => "[]"%string)
           "AAA" 5%Z false (Demo.world_of Demo.stored)
           {| steps := [{| step := "Fetching Data"; result := "❌ AAA: No data available" |};
                        {| step := "Risk Analysis"; result := NO_PORTFOLIO |};
                        {| step := "Forecasting AAA"; result := NOT_LOADED "AAA" |};
                        {| step := "Portfolio Ranking"; result := NO_RISK |}];
              final_response := NO_RISK;
              data_state := Some empty_state;
              synthesis_mode := None |}
           [] (Raise "Exception" "none")).
  vm_compute. reflexivity.
Defined.

(** ** External calls of the manual and hybrid modes *)

Lemma tool_calls_only_frame : tool_frame tool_calls_only.
Proof.
  split.
  - intros w. exists []. now rewrite app_nil_r.
  - intros w1 w2 w3 (l1 & H1 & F1) (l2 & H2 & F2). exists (l1 ++ l2)%list.
    split; [now rewrite H2, H1, app_assoc | now apply Forall_app].
  - intros ev w Hev. exists [ev]. split; [reflexivity | now constructor].
Qed.

Lemma tool_calls_only_writes {V} (set : string -> V -> DataState -> DataState) :
  writes tool_calls_only set.
Proof. intros k v w. exists []. simpl. now rewrite app_nil_r. Qed.

Section ExternalCalls.

Variable E : Env.

Lemma run_steps_tool_calls todo : forall done,
  respects tool_calls_only (run_steps E todo done).
Proof.
  induction todo as [|[name call] todo IH]; intros done; simpl;
    [apply tf_ret, tool_calls_only_frame|].
  apply tf_bind; [apply tool_calls_only_frame | | intros; apply IH].
  apply invoke_tool_respects_tf;
    [apply tool_calls_only_frame | apply tool_calls_only_writes ..].
Qed.

(** X27. A manual run never calls the language model and never pauses: its
    external calls are downloads, fits of the seasonal model, charts and
    random draws. A hybrid run makes the same calls and then at most one
    more, the request for the summary. *)
Theorem manual_calls_no_model (tickers : string) (forecast_days : Z)
        (include_sentiment : bool) (w : World) :
  exists l,
    log (snd (run_manual E tickers forecast_days include_sentiment w)) = (log w ++ l)%list
    /\ Forall tool_event l
    /\ (log (snd (run_hybrid E tickers forecast_days include_sentiment w))
        = (log w ++ l)%list
        \/ exists prompt,
            log (snd (run_hybrid E tickers forecast_days include_sentiment w))
            = (log w ++ l ++ [ev_llm_text prompt])%list).
Proof.
  destruct (run_steps_tool_calls
              (manual_steps E tickers forecast_days include_sentiment) []
              (snd (reset_state w))) as (l & Hl & HF).
  rewrite <- run_manual_world in Hl. exists l.
  split; [exact Hl|]. split; [exact HF|].
  rewrite run_hybrid_eq.
  destruct (run_manual E tickers forecast_days include_sentiment w) as [[e|res] w1];
    cbn [snd] in Hl |- *; [now left|].
  right. eexists. cbv zeta. cbn [snd log log_event]. rewrite Hl, <- app_assoc. reflexivity.
Qed.

End ExternalCalls.
